(** * ludusavi-runner: the retry HTTP client and the cycle runner

    A shallow embedding of [internal/http/client.go] (the retry client),
    of the [domain] result types and of [internal/app/runner.go] (one backup
    cycle), with the properties of the specification proved about them.

    Go values are modelled as follows.
    - [int], [int64] and [time.Duration] are [Z]; a duration counts
      nanoseconds.
    - [float64] is the binary64 instance of the Standard Library's
      [spec_float] (53 bits of precision, [emax = 1024]).
    - An [error] is a small tree ([fmt.Errorf] with [%w] wraps); a nil
      error or a nil pointer is [None].
    - Effects (the calls to the collaborators, the log, the clock) are
      threaded through a state monad over a [World] that records every
      call in a trace. *)

From Stdlib Require Import ZArith List String Bool Lia.
From Stdlib Require Import DecimalString.
From Stdlib Require Import Floats.SpecFloat.
Import ListNotations.
Local Open Scope string_scope.
Local Open Scope list_scope.
Local Open Scope Z_scope.

(** ** Errors *)

(** [errorString] stands for any error made by [errors.New] or coming
    from outside (transport, executor, ...), [wrapError msg e] for
    [fmt.Errorf(msg + "%w", e)] ([wrapNil] when [e] is nil), and the two
    context errors are the values [ctx.Err()] can return. *)
Inductive error : Type :=
| errorString (s : string)
| Canceled
| DeadlineExceeded
| wrapError (msg : string) (err : error)
| wrapNil (msg : string).

(** [err.Error()] *)
Fixpoint error_Error (e : error) : string :=
  match e with
  | errorString s => s
  | Canceled => "context canceled"
  | DeadlineExceeded => "context deadline exceeded"
  | wrapError msg e' => (msg ++ error_Error e')%string
  | wrapNil msg => (msg ++ "%!w(<nil>)")%string
  end.

(** [errors.Unwrap] *)
Definition Unwrap (e : error) : option error :=
  match e with
  | wrapError _ inner => Some inner
  | _ => None
  end.

(** [fmt.Errorf(msg + "%w", err)] for an [err] that may be nil. *)
Definition Errorf_w (msg : string) (err : option error) : error :=
  match err with
  | Some e => wrapError msg e
  | None => wrapNil msg
  end.

(** [%d] of an integer. *)
Definition itoa (z : Z) : string := NilZero.string_of_int (Z.to_int z).

(** ** The world: clock and trace *)

Inductive level := Debug | Info | Warn | LError.

Definition Time := Z.
Definition Duration := Z.

Definition Millisecond : Duration := 1000000.
Definition Second : Duration := 1000 * Millisecond.

(** A computation reads the clock and appends what it does (calls to
    collaborators, log lines) to a trace of events of type [E]. *)
Record World (E : Type) := mkWorld { ticks : nat; trace : list E }.
Arguments mkWorld {E}.
Arguments ticks {E}.
Arguments trace {E}.

Definition Eff (E A : Type) : Type := World E -> A * World E.

Definition ret {E A} (a : A) : Eff E A := fun w => (a, w).

Definition bind {E A B} (m : Eff E A) (k : A -> Eff E B) : Eff E B :=
  fun w => let (a, w') := m w in k a w'.

Declare Scope eff_scope.
Delimit Scope eff_scope with eff.
Notation "x <- m ;; k" := (bind m (fun x => k))
  (at level 61, m at next level, right associativity) : eff_scope.
Notation "' pat <- m ;; k" := (bind m (fun x => match x with pat => k end))
  (at level 61, pat pattern, m at next level, right associativity) : eff_scope.
Notation "m ;; k" := (bind m (fun _ => k))
  (at level 61, right associativity) : eff_scope.
Local Open Scope eff_scope.

Definition emit {E} (e : E) : Eff E unit :=
  fun w => (tt, mkWorld (ticks w) (trace w ++ [e])).

(** [time.Now()]: the clock is a stream of readings, one per call. *)
Definition time_Now {E} (clock : nat -> Time) : Eff E Time :=
  fun w => (clock (ticks w), mkWorld (S (ticks w)) (trace w)).

Definition world0 {E} : World E := mkWorld 0%nat [].

(** What a call comes to: it returns a value, or it panics on a nil
    pointer. Nothing in the program recovers from a panic. *)
Inductive completion (A : Type) : Type :=
| Returns (a : A)
| Panics.
Arguments Returns {A} a.
Arguments Panics {A}.

(** ** internal/http/client.go *)
Module HTTP.

(** [RetryConfig] configures retry behavior for the HTTP client. *)
Record RetryConfig := {
  MaxAttempts : Z;
  InitialDelay : Duration;
  MaxDelay : Duration
}.

Definition DefaultRetryConfig : RetryConfig :=
  {| MaxAttempts := 3; InitialDelay := 5 * Second; MaxDelay := 30 * Second |}.

Definition Header := list (string * list string).

Record Response := {
  StatusCode : Z;
  Body : string;
  Headers : Header
}.

(** What [io.ReadAll] gives. *)
Inductive readResult :=
| ReadOk (data : string)
| ReadErr (e : error).

(** What [c.httpClient.Do] gives: a transport-level error, or a response
    whose body is still to be read. *)
Inductive roundTrip :=
| TransportError (e : error)
| Received (status : Z) (header : Header) (body : readResult).

(** The case a [select] on [ctx.Done()] and [time.After(delay)] takes. *)
Inductive selected := CtxDone | TimerFired.

(** The surroundings of one call of [Do]: the server behind the
    [http.Client], by attempt number, and the calling context. *)
Record Env := {
  httpClient_Do : Z -> option string -> roundTrip;
  ctx_select : Z -> selected;
  ctx_Err : error
}.

(** [req.Body]: nil, or a reader that gives its bytes or fails. *)
Record Request := {
  Method : string;
  URL : string;
  ReqBody : option readResult
}.

Inductive event : Type :=
| EvLog (l : level) (msg : string)
| EvRoundTrip (attempt : Z) (body : option string)
| EvSelect (attempt : Z) (delay : option Duration).

Definition log (l : level) (msg : string) : Eff event unit := emit (EvLog l msg).

(** *** float64 *)

Definition prec : Z := 53.
Definition emax : Z := 1024.
Definition float64 := spec_float.

(** [float64(x)] of an integer: rounded to nearest, ties to even. *)
Definition float64_of_int (x : Z) : float64 := binary_normalize prec emax x 0 false.

(** [math.Pow(2, float64(k))] for an integer [k]: the power of two itself
    where binary64 has it, [+Inf] above. *)
Definition math_Pow2 (k : Z) : float64 := binary_round prec emax false 1 k.

Definition float64_mul : float64 -> float64 -> float64 := SFmul prec emax.

(** [x > y] *)
Definition float64_gt (x y : float64) : bool := SFltb y x.

Definition MinInt64 : Z := - 2 ^ 63.
Definition MaxInt64 : Z := 2 ^ 63 - 1.

(** [int64(f)], towards zero. Where the value is not an int64 (NaN,
    infinities, out of range) the language leaves the result to the
    implementation: [None]. *)
Definition int64_of_float64 (f : float64) : option Z :=
  match f with
  | S754_zero _ => Some 0
  | S754_finite s m e =>
      let mag := match e with
                 | Zneg p => Zpos m / 2 ^ Zpos p
                 | _ => Zpos m * 2 ^ e
                 end in
      let v := if s then - mag else mag in
      if (MinInt64 <=? v) && (v <=? MaxInt64) then Some v else None
  | _ => None
  end.

(** [calculateDelay] calculates the delay for a given attempt using
    exponential backoff. *)
Definition calculateDelay (retry : RetryConfig) (attempt : Z) : option Duration :=
  let delay := float64_mul (float64_of_int (InitialDelay retry))
                           (math_Pow2 (attempt - 1)) in
  if float64_gt delay (float64_of_int (MaxDelay retry))
  then Some (MaxDelay retry)
  else int64_of_float64 delay.

(** [shouldRetry] returns true if the status code indicates a retryable
    error. *)
Definition shouldRetry (statusCode : Z) : bool :=
  match statusCode with
  | 429 | 500 | 502 | 503 | 504 => true
  | _ => false
  end.

(** [Client] is an HTTP client with retry logic; its [http.Client] is
    the [httpClient_Do] of the environment and its logger is the trace. *)
Record Client := { retry : RetryConfig }.

(** [NewClient()] without options. *)
Definition NewClient : Client := {| retry := DefaultRetryConfig |}.

(** [WithRetryConfig] *)
Definition WithRetryConfig (cfg : RetryConfig) (c : Client) : Client :=
  {| retry := cfg |}.

Definition doRoundTrip (env : Env) (attempt : Z) (body : option string)
  : Eff event roundTrip :=
  emit (EvRoundTrip attempt body) ;;
  ret (httpClient_Do env attempt body).

Definition select (env : Env) (attempt : Z) (delay : option Duration)
  : Eff event selected :=
  emit (EvSelect attempt delay) ;;
  ret (ctx_select env attempt).

Definition result : Type := option Response * option error.

(** The [for attempt := 1; attempt <= c.retry.MaxAttempts; attempt++] loop
    of [Do], from [attempt] on, followed by the return after the loop.
    [n] counts the iterations that are left, [MaxAttempts - attempt + 1]
    of them. *)
Fixpoint attempts (env : Env) (c : Client) (bodyBytes : option string)
    (n : nat) (attempt : Z) (lastErr : option error) : Eff event result :=
  match n with
  | O =>
      ret (None,
           Some (Errorf_w ("request failed after "
                           ++ itoa (MaxAttempts (retry c)) ++ " attempts: ")%string
                          lastErr))
  | S n' =>
      log Debug "HTTP request attempt" ;;
      rt <- doRoundTrip env attempt bodyBytes ;;
      match rt with
      | TransportError err =>
          log Warn "HTTP request failed" ;;
          if attempt <? MaxAttempts (retry c) then
            let delay := calculateDelay (retry c) attempt in
            log Debug "Retrying after delay" ;;
            s <- select env attempt delay ;;
            match s with
            | CtxDone => ret (None, Some (ctx_Err env))
            | TimerFired => attempts env c bodyBytes n' (attempt + 1) (Some err)
            end
          else attempts env c bodyBytes n' (attempt + 1) (Some err)
      | Received status header (ReadErr err) =>
          attempts env c bodyBytes n' (attempt + 1)
                   (Some (wrapError "failed to read response body: " err))
      | Received status header (ReadOk body) =>
          if shouldRetry status && (attempt <? MaxAttempts (retry c)) then
            log Warn "HTTP request returned retryable status" ;;
            let delay := calculateDelay (retry c) attempt in
            s <- select env attempt delay ;;
            match s with
            | CtxDone => ret (None, Some (ctx_Err env))
            | TimerFired =>
                attempts env c bodyBytes n' (attempt + 1)
                         (Some (errorString ("HTTP " ++ itoa status ++ ": " ++ body)%string))
            end
          else
            ret (Some {| StatusCode := status; Body := body; Headers := header |},
                 None)
      end
  end.

(** [Do] performs an HTTP request with retry logic. *)
Definition Do (env : Env) (c : Client) (req : Request) : Eff event result :=
  match ReqBody req with
  | Some (ReadErr err) =>
      ret (None, Some (wrapError "failed to read request body: " err))
  | Some (ReadOk bodyBytes) =>
      attempts env c (Some bodyBytes) (Z.to_nat (MaxAttempts (retry c))) 1 None
  | None =>
      attempts env c None (Z.to_nat (MaxAttempts (retry c))) 1 None
  end.

(** [Get] performs a GET request. *)
Definition Get (env : Env) (c : Client) (url : string) : Eff event result :=
  Do env c {| Method := "GET"; URL := url; ReqBody := None |}.

(** [Post] performs a POST request. *)
Definition Post (env : Env) (c : Client) (url : string) (body : string)
  : Eff event result :=
  Do env c {| Method := "POST"; URL := url; ReqBody := Some (ReadOk body) |}.

(** The number of times the target was called. *)
Definition calls (tr : list event) : nat :=
  List.length (filter (fun e => match e with EvRoundTrip _ _ => true | _ => false end) tr).

(** The delays handed to [time.After], in order. *)
Definition delays (tr : list event) : list (option Duration) :=
  flat_map (fun e => match e with EvSelect _ d => [d] | _ => [] end) tr.

(** *** Vocabulary of the properties *)

(** The body a request sends: its bytes when it has a body. *)
Definition sent (req : Request) : option string :=
  match ReqBody req with
  | Some (ReadOk bodyBytes) => Some bodyBytes
  | _ => None
  end.

(** The request body can be read (or there is none). *)
Definition readable (req : Request) : Prop :=
  forall e, ReqBody req <> Some (ReadErr e).

(** The statuses the client retries. *)
Definition retryableStatuses : list Z := [429; 500; 502; 503; 504].

(** An outcome after which the loop goes on (when attempts are left): a
    transport error, a body that cannot be read, a retryable status. *)
Definition retryable (rt : roundTrip) : bool :=
  match rt with
  | TransportError _ => true
  | Received _ _ (ReadErr _) => true
  | Received status _ (ReadOk _) => shouldRetry status
  end.

Definition exhaustedMsg (c : Client) : string :=
  ("request failed after " ++ itoa (MaxAttempts (retry c)) ++ " attempts: ")%string.

(** What [Do] returns when the last attempt, too, had a retryable
    outcome. *)
Definition exhausted (c : Client) (last : roundTrip) : result :=
  match last with
  | TransportError e => (None, Some (wrapError (exhaustedMsg c) e))
  | Received _ _ (ReadErr e) =>
      (None, Some (wrapError (exhaustedMsg c)
                             (wrapError "failed to read response body: " e)))
  | Received status header (ReadOk body) =>
      (Some {| StatusCode := status; Body := body; Headers := header |}, None)
  end.

(** An outcome after which [Do] waits out a delay (when attempts are
    left): a transport error or a retryable status. *)
Definition waits (rt : roundTrip) : bool :=
  match rt with
  | TransportError _ => true
  | Received _ _ (ReadErr _) => false
  | Received status _ (ReadOk _) => shouldRetry status
  end.

(** *** Concrete inputs *)

(** The retry configuration of the package's tests. *)
Definition testClient : Client :=
  {| retry := {| MaxAttempts := 3;
                 InitialDelay := 10 * Millisecond;
                 MaxDelay := 100 * Millisecond |} |}.

Definition getRequest : Request :=
  {| Method := "GET"; URL := "http://localhost/"; ReqBody := None |}.

(** A server that always answers 503, under a context that is never
    cancelled. *)
Definition unavailable : Env :=
  {| httpClient_Do := fun _ _ => Received 503 [] (ReadOk "busy");
     ctx_select := fun _ => TimerFired;
     ctx_Err := Canceled |}.

(** A server that cannot be reached. *)
Definition unreachable : Env :=
  {| httpClient_Do := fun _ _ => TransportError (errorString "connection refused");
     ctx_select := fun _ => TimerFired;
     ctx_Err := Canceled |}.

(** A server that answers 400. *)
Definition badRequest : Env :=
  {| httpClient_Do := fun _ _ => Received 400 [] (ReadOk "bad request");
     ctx_select := fun _ => TimerFired;
     ctx_Err := Canceled |}.

(** A server that always answers 503, under a context whose deadline
    passes during the second wait. *)
Definition deadlineInSecondWait : Env :=
  {| httpClient_Do := fun _ _ => Received 503 [] (ReadOk "busy");
     ctx_select := fun attempt => if attempt =? 2 then CtxDone else TimerFired;
     ctx_Err := DeadlineExceeded |}.

(** A server that answers 400 and whose response body breaks off while
    it is read. *)
Definition brokenBody : Env :=
  {| httpClient_Do := fun _ _ => Received 400 [] (ReadErr (errorString "unexpected EOF"));
     ctx_select := fun _ => TimerFired;
     ctx_Err := Canceled |}.

(** *** More vocabulary and inputs *)

(** The calls of the target in a trace: attempt number and body sent. *)
Definition roundTrips (tr : list event) : list (Z * option string) :=
  flat_map (fun e => match e with EvRoundTrip a b => [(a, b)] | _ => [] end) tr.

(** The attempt numbers [from], [from + 1], ..., [n] of them. *)
Definition attemptNumbers (from : Z) (n : nat) : list Z :=
  map (fun i => from + Z.of_nat i) (seq 0 n).

(** The delays [Do] waits out after the attempts in [ks]: one after each
    attempt that ended in a transport error or a retryable status. *)
Definition backoffs (env : Env) (c : Client) (body : option string) (ks : list Z)
  : list (option Duration) :=
  flat_map (fun k => if waits (httpClient_Do env k body)
                     then [calculateDelay (retry c) k] else []) ks.

(** [Do] returned a response and a nil error, or no response and an
    error. *)
Definition oneOf (r : result) : Prop :=
  match r with
  | (Some _, None) | (None, Some _) => True
  | _ => False
  end.

(** A server that answers 503 twice and then 200, as the one of
    [TestClient_Retry_Success]. *)
Definition recovering : Env :=
  {| httpClient_Do := fun attempt _ =>
       if attempt <? 3 then Received 503 [] (ReadOk "")
       else Received 200 [] (ReadOk "success");
     ctx_select := fun _ => TimerFired;
     ctx_Err := Canceled |}.

(** [CheckConnectivity] performs a simple connectivity check to the given
    URL: one request through the [http.Client], outside the retry loop.
    [url_Parse] is what [http.NewRequestWithContext] says of the URL. The
    body of the response is closed unread. *)
Definition CheckConnectivity (url_Parse : string -> option error) (env : Env)
    (c : Client) (url : string) : Eff event (option error) :=
  match url_Parse url with
  | Some err => ret (Some (wrapError "failed to create request: " err))
  | None =>
      rt <- doRoundTrip env 1 None ;;
      match rt with
      | TransportError err =>
          ret (Some (wrapError "connectivity check failed: " err))
      | Received status _ _ =>
          if (200 <=? status) && (status <? 300) then ret None
          else ret (Some (errorString ("connectivity check returned status "
                                       ++ itoa status)%string))
      end
  end.

End HTTP.

(** ** internal/config *)
Module Config.

(** [NotifyLevel] represents when to send notifications; it is a string
    type, so a configuration can hold any string. *)
Definition NotifyLevel := string.

Definition NotifyError : NotifyLevel := "error".
Definition NotifyWarning : NotifyLevel := "warning".
Definition NotifyAlways : NotifyLevel := "always".

(** [IsValid] returns true if the notify level is valid. *)
Definition IsValid (n : NotifyLevel) : bool :=
  String.eqb n NotifyError || String.eqb n NotifyWarning || String.eqb n NotifyAlways.

Record MetricsConfig := {
  MetricsEnabled : bool;
  PushgatewayURL : string
}.

Record AppriseConfig := {
  AppriseEnabled : bool;
  AppriseURL : string;
  Key : string;
  Notify : NotifyLevel
}.

Record LogConfig := {
  Level : string;
  Output : string;
  MaxSizeMB : Z
}.

(** [Config] holds all application configuration. *)
Record Config := {
  Interval : Duration;
  BackupOnStartup : bool;
  LudusaviPath : string;
  DryRun : bool;
  Retry : HTTP.RetryConfig;
  Metrics : MetricsConfig;
  Apprise : AppriseConfig;
  Log : LogConfig
}.

Definition Minute : Duration := 60 * Second.

(** What [Validate] takes from outside the configuration: [os.Stat],
    [strings.ToLower] and the text of a [time.Duration]. *)
Record OS := {
  os_Stat : string -> option error;
  strings_ToLower : string -> string;
  formatDuration : Duration -> string
}.

Definition validLogLevels : list string := ["debug"; "info"; "warn"; "error"].

(** [Validate] checks if the configuration is valid. *)
Definition Validate (os : OS) (c : Config) : option error :=
  if Interval c <? Minute then
    Some (errorString ("interval must be at least 1 minute, got "
                       ++ formatDuration os (Interval c))%string)
  else if negb (String.eqb (LudusaviPath c) "")
          && match os_Stat os (LudusaviPath c) with Some _ => true | None => false end
  then Some (errorString ("ludusavi_path does not exist: " ++ LudusaviPath c)%string)
  else if MetricsEnabled (Metrics c) && String.eqb (PushgatewayURL (Metrics c)) ""
  then Some (errorString "metrics.pushgateway_url is required when metrics is enabled")
  else if HTTP.MaxAttempts (Retry c) <? 1
  then Some (errorString "retry.max_attempts must be at least 1")
  else if HTTP.InitialDelay (Retry c) <? 0
  then Some (errorString "retry.initial_delay cannot be negative")
  else if HTTP.MaxDelay (Retry c) <? HTTP.InitialDelay (Retry c)
  then Some (errorString "retry.max_delay must be >= retry.initial_delay")
  else if AppriseEnabled (Apprise c) && String.eqb (AppriseURL (Apprise c)) ""
  then Some (errorString "apprise.url is required when apprise is enabled")
  else if AppriseEnabled (Apprise c) && String.eqb (Key (Apprise c)) ""
  then Some (errorString "apprise.key is required when apprise is enabled")
  else if AppriseEnabled (Apprise c) && negb (IsValid (Notify (Apprise c)))
  then Some (errorString "apprise.notify must be one of: error, warning, always")
  else if negb (existsb (String.eqb (strings_ToLower os (Level (Log c)))) validLogLevels)
  then Some (errorString "log.level must be one of: debug, info, warn, error")
  else if MaxSizeMB (Log c) <? 1
  then Some (errorString "log.max_size_mb must be at least 1")
  else None.

(** The configurations [Validate] is written to accept. *)
Definition valid (os : OS) (c : Config) : Prop :=
  Minute <= Interval c
  /\ (LudusaviPath c = "" \/ os_Stat os (LudusaviPath c) = None)
  /\ (MetricsEnabled (Metrics c) = true -> PushgatewayURL (Metrics c) <> "")
  /\ 1 <= HTTP.MaxAttempts (Retry c)
  /\ 0 <= HTTP.InitialDelay (Retry c) <= HTTP.MaxDelay (Retry c)
  /\ (AppriseEnabled (Apprise c) = true ->
      AppriseURL (Apprise c) <> "" /\ Key (Apprise c) <> ""
      /\ In (Notify (Apprise c)) [NotifyError; NotifyWarning; NotifyAlways])
  /\ In (strings_ToLower os (Level (Log c))) validLogLevels
  /\ 1 <= MaxSizeMB (Log c).

(** A system on which every path exists and log levels are written in
    lower case. *)
Definition testOS : OS :=
  {| os_Stat := fun _ => None;
     strings_ToLower := fun s => s;
     formatDuration := fun d => (itoa d ++ "ns")%string |}.

(** [validConfig()] of [TestConfig_Validate]. *)
Definition validConfig : Config :=
  {| Interval := 20 * Minute;
     BackupOnStartup := true;
     LudusaviPath := "";
     DryRun := false;
     Retry := {| HTTP.MaxAttempts := 3;
                 HTTP.InitialDelay := 5 * Second;
                 HTTP.MaxDelay := 30 * Second |};
     Metrics := {| MetricsEnabled := true;
                   PushgatewayURL := "http://pushgateway:9091" |};
     Apprise := {| AppriseEnabled := true;
                   AppriseURL := "http://localhost:8000";
                   Key := "ludusavi";
                   Notify := NotifyError |};
     Log := {| Level := "info"; Output := ""; MaxSizeMB := 10 |} |}.

End Config.

(** ** internal/domain *)
Module Domain.

(** [OperationType] represents the type of backup operation. *)
Definition OperationType := string.
Definition OperationBackup : OperationType := "backup".
Definition OperationCloudUpload : OperationType := "cloud_upload".

(** [BackupStats] contains statistics from a backup or upload operation. *)
Record BackupStats := {
  TotalGames : Z;
  ProcessedGames : Z;
  TotalBytes : Z;
  ProcessedBytes : Z;
  NewGames : Z;
  ChangedGames : Z;
  SameGames : Z
}.

(** The zero value of [BackupStats]. *)
Definition zeroStats : BackupStats :=
  {| TotalGames := 0; ProcessedGames := 0; TotalBytes := 0; ProcessedBytes := 0;
     NewGames := 0; ChangedGames := 0; SameGames := 0 |}.

(** [BackupResult] contains the result of a backup operation. *)
Module BackupResult.

Record t := {
  Operation : OperationType;
  Success : bool;
  StartTime : Time;
  EndTime : Time;
  Duration : Duration;
  Stats : BackupStats;
  Error : string
}.

(** [NewBackupResult] creates a new BackupResult with the given operation
    type. *)
Definition New {E} (clock : nat -> Time) (op : OperationType) : Eff E t :=
  now <- time_Now clock ;;
  ret {| Operation := op; Success := false; StartTime := now; EndTime := 0;
         Duration := 0; Stats := zeroStats; Error := "" |}.

(** [Complete] marks the result as complete. *)
Definition Complete {E} (clock : nat -> Time) (r : t) (success : bool)
    (err : option error) : Eff E t :=
  now <- time_Now clock ;;
  ret {| Operation := Operation r;
         Success := success;
         StartTime := StartTime r;
         EndTime := now;
         Duration := now - StartTime r;
         Stats := Stats r;
         Error := match err with
                  | Some e => error_Error e
                  | None => Error r
                  end |}.

End BackupResult.

(** [RunResult] contains the results of a complete backup run (all
    operations). *)
Module RunResult.

Record t := {
  StartTime : Time;
  EndTime : Time;
  Duration : Duration;
  Success : bool;
  DryRun : bool;
  Backup : option BackupResult.t;
  CloudUpload : option BackupResult.t;
  Errors : list string
}.

(** [NewRunResult] creates a new RunResult. *)
Definition New {E} (clock : nat -> Time) (dryRun : bool) : Eff E t :=
  now <- time_Now clock ;;
  ret {| StartTime := now; EndTime := 0; Duration := 0; Success := false;
         DryRun := dryRun; Backup := None; CloudUpload := None; Errors := [] |}.

(** The result of a slot counts against the run when the slot is filled
    and its operation did not succeed. *)
Definition failed (slot : option BackupResult.t) : bool :=
  match slot with
  | Some b => negb (BackupResult.Success b)
  | None => false
  end.

(** [Complete] marks the run as complete. *)
Definition Complete {E} (clock : nat -> Time) (r : t) : Eff E t :=
  now <- time_Now clock ;;
  let success := true in
  let success := if failed (CloudUpload r) then false else success in
  let success := if failed (Backup r) then false else success in
  ret {| StartTime := StartTime r;
         EndTime := now;
         Duration := now - StartTime r;
         Success := success;
         DryRun := DryRun r;
         Backup := Backup r;
         CloudUpload := CloudUpload r;
         Errors := Errors r |}.

(** [AddError] adds an error to the run result. *)
Definition AddError (r : t) (err : option error) : t :=
  match err with
  | Some e =>
      {| StartTime := StartTime r; EndTime := EndTime r; Duration := Duration r;
         Success := Success r; DryRun := DryRun r; Backup := Backup r;
         CloudUpload := CloudUpload r;
         Errors := Errors r ++ [error_Error e] |}
  | None => r
  end.

Definition setCloudUpload (r : t) (b : option BackupResult.t) : t :=
  {| StartTime := StartTime r; EndTime := EndTime r; Duration := Duration r;
     Success := Success r; DryRun := DryRun r; Backup := Backup r;
     CloudUpload := b; Errors := Errors r |}.

Definition setBackup (r : t) (b : option BackupResult.t) : t :=
  {| StartTime := StartTime r; EndTime := EndTime r; Duration := Duration r;
     Success := Success r; DryRun := DryRun r; Backup := b;
     CloudUpload := CloudUpload r; Errors := Errors r |}.

End RunResult.

(** [NotificationLevel] represents the severity of a notification. *)
Inductive NotificationLevel :=
| NotificationLevelInfo
| NotificationLevelWarning
| NotificationLevelError.

(** [Notification] represents a notification to be sent. *)
Record Notification := {
  Title : string;
  Body : string;
  Level : NotificationLevel
}.

Definition NewNotification (title body : string) (level : NotificationLevel)
  : Notification :=
  {| Title := title; Body := body; Level := level |}.

Definition InfoNotification (title body : string) : Notification :=
  NewNotification title body NotificationLevelInfo.

Definition WarningNotification (title body : string) : Notification :=
  NewNotification title body NotificationLevelWarning.

Definition ErrorNotification (title body : string) : Notification :=
  NewNotification title body NotificationLevelError.

(** [Notifier] defines the interface for sending notifications. *)
Record Notifier := {
  Notify : Notification -> option error;
  NotifierValidate : option error
}.

(** [NopNotifier] is a no-op notifier that does nothing. *)
Definition NopNotifier : Notifier :=
  {| Notify := fun _ => None; NotifierValidate := None |}.

Record BackupOptions := { BackupForce : bool }.
Record UploadOptions := { UploadForce : bool }.

(** What an executor method returns, a BackupResult pointer and an error:
    a result with a nil error, an error (the runner drops whatever result
    comes with an error), or neither, a nil result with a nil error. The
    interface allows all three; the functions of a [MockExecutor] can
    return any of them. *)
Inductive outcome :=
| Returned (result : BackupResult.t)
| Failed (err : error)
| Neither.

(** [Executor] defines the interface for running backup operations. *)
Record Executor := {
  Backup : BackupOptions -> outcome;
  CloudUpload : UploadOptions -> outcome;
  Version : string + error;
  ExecutorValidate : option error
}.

(** [Metrics] contains all metrics to be pushed. *)
Record Metrics := {
  Timestamp : Time;
  Hostname : string;
  ServiceUp : bool;
  MetricsVersion : string;
  GoVersion : string;
  Results : list BackupResult.t
}.

(** [NewMetrics] creates a new Metrics instance. *)
Definition NewMetrics {E} (clock : nat -> Time) (hostname : string) : Eff E Metrics :=
  now <- time_Now clock ;;
  ret {| Timestamp := now; Hostname := hostname; ServiceUp := true;
         MetricsVersion := ""; GoVersion := ""; Results := [] |}.

Definition setServiceUp (m : Metrics) (up : bool) : Metrics :=
  {| Timestamp := Timestamp m; Hostname := Hostname m; ServiceUp := up;
     MetricsVersion := MetricsVersion m; GoVersion := GoVersion m;
     Results := Results m |}.

(** [AddResult] adds a backup result to the metrics. *)
Definition AddResult (m : Metrics) (result : option BackupResult.t) : Metrics :=
  match result with
  | Some r =>
      {| Timestamp := Timestamp m; Hostname := Hostname m; ServiceUp := ServiceUp m;
         MetricsVersion := MetricsVersion m; GoVersion := GoVersion m;
         Results := Results m ++ [r] |}
  | None => m
  end.

(** [MetricsPusher] defines the interface for pushing metrics to a remote
    endpoint. *)
Record MetricsPusher := {
  Push : Metrics -> option error;
  PusherValidate : option error
}.

End Domain.

(** ** internal/app/runner.go *)
Module App.
Import Config Domain.

(** What the runner takes from its surroundings: the clock behind
    [time.Now], [os.Hostname] and the text of a [time.Duration]. *)
Record Env := {
  clock : nat -> Time;
  os_Hostname : string;
  Duration_String : Duration -> string
}.

(** [Runner] orchestrates backup operations. A collaborator that was not
    set is [None]. *)
Record Runner := {
  executor : option Executor;
  metricsPusher : option MetricsPusher;
  notifier : option Notifier;
  config : Config;
  hostname : string
}.

(** The options of [NewRunner]. *)
Definition RunnerOption := Runner -> Runner.

Definition WithExecutor (e : option Executor) : RunnerOption := fun r =>
  {| executor := e; metricsPusher := metricsPusher r; notifier := notifier r;
     config := config r; hostname := hostname r |}.

Definition WithMetricsPusher (m : option MetricsPusher) : RunnerOption := fun r =>
  {| executor := executor r; metricsPusher := m; notifier := notifier r;
     config := config r; hostname := hostname r |}.

Definition WithNotifier (n : option Notifier) : RunnerOption := fun r =>
  {| executor := executor r; metricsPusher := metricsPusher r; notifier := n;
     config := config r; hostname := hostname r |}.

(** [NewRunner] creates a new Runner. *)
Definition NewRunner (env : Env) (cfg : Config) (opts : list RunnerOption) : Runner :=
  fold_left (fun r opt => opt r) opts
    {| executor := None; metricsPusher := None; notifier := Some NopNotifier;
       config := cfg; hostname := os_Hostname env |}.

Inductive event : Type :=
| EvLog (l : level) (msg : string)
| EvCloudUpload (opts : UploadOptions)
| EvBackup (opts : BackupOptions)
| EvPush (m : Metrics)
| EvNotify (n : Notification).

(** A log line; the structured attributes are left out. *)
Definition log (l : level) (msg : string) : Eff event unit := emit (EvLog l msg).

Definition result : Type := option BackupResult.t * option error.

(** [runCloudUpload] executes the cloud upload operation. [Run] calls it
    only with an executor, passed here as [ex]. After a nil error the
    result is read without a check ([result.Success]): on a nil result
    the call panics. *)
Definition runCloudUpload (env : Env) (r : Runner) (ex : Executor)
  : Eff event (completion result) :=
  log Debug "starting cloud upload" ;;
  if DryRun (config r) then
    log Info "dry run: skipping cloud upload" ;;
    result <- BackupResult.New (clock env) OperationCloudUpload ;;
    result <- BackupResult.Complete (clock env) result true None ;;
    ret (Returns (Some result, None))
  else
    emit (EvCloudUpload {| UploadForce := true |}) ;;
    match CloudUpload ex {| UploadForce := true |} with
    | Failed err => ret (Returns (None, Some (wrapError "cloud upload error: " err)))
    | Neither => ret Panics
    | Returned result =>
        (if BackupResult.Success result
         then log Info "cloud upload completed"
         else log Warn "cloud upload failed") ;;
        ret (Returns (Some result, None))
    end.

(** [runBackup] executes the local backup operation; it panics on a nil
    result with a nil error, as [runCloudUpload] does. *)
Definition runBackup (env : Env) (r : Runner) (ex : Executor)
  : Eff event (completion result) :=
  log Debug "starting local backup" ;;
  if DryRun (config r) then
    log Info "dry run: skipping local backup" ;;
    result <- BackupResult.New (clock env) OperationBackup ;;
    result <- BackupResult.Complete (clock env) result true None ;;
    ret (Returns (Some result, None))
  else
    emit (EvBackup {| BackupForce := true |}) ;;
    match Backup ex {| BackupForce := true |} with
    | Failed err => ret (Returns (None, Some (wrapError "backup error: " err)))
    | Neither => ret Panics
    | Returned result =>
        (if BackupResult.Success result
         then log Info "local backup completed"
         else log Warn "local backup failed") ;;
        ret (Returns (Some result, None))
    end.

(** [pushMetrics] sends metrics to the metrics pusher. *)
Definition pushMetrics (env : Env) (r : Runner) (result : RunResult.t)
  : Eff event (option error) :=
  match metricsPusher r with
  | None => ret None
  | Some pusher =>
      metrics <- NewMetrics (clock env) (hostname r) ;;
      let metrics := setServiceUp metrics true in
      let metrics := AddResult metrics (RunResult.CloudUpload result) in
      let metrics := AddResult metrics (RunResult.Backup result) in
      emit (EvPush metrics) ;;
      ret (Push pusher metrics)
  end.

Definition nl : string := String (Ascii.ascii_of_nat 10) EmptyString.

(** [time.Duration.Round] *)
Definition Duration_Round (d m : Duration) : Duration :=
  if m <=? 0 then d
  else
    let r := Z.rem d m in
    if d <? 0 then
      let r := - r in
      if r + r <? m then d + r
      else if HTTP.MinInt64 <=? d - m + r then d - m + r else HTTP.MinInt64
    else
      if r + r <? m then d - r
      else if d + m - r <=? HTTP.MaxInt64 then d + m - r else HTTP.MaxInt64.

(** [buildErrorMessage] builds an error notification message. *)
Definition buildErrorMessage (r : Runner) (result : RunResult.t) : string :=
  let msg := ("Backup failed on " ++ hostname r ++ "." ++ nl)%string in
  let msg :=
    match RunResult.CloudUpload result with
    | Some b =>
        if negb (BackupResult.Success b)
        then (msg ++ "Cloud upload error: " ++ BackupResult.Error b ++ nl)%string
        else msg
    | None => msg
    end in
  let msg :=
    match RunResult.Backup result with
    | Some b =>
        if negb (BackupResult.Success b)
        then (msg ++ "Backup error: " ++ BackupResult.Error b ++ nl)%string
        else msg
    | None => msg
    end in
  fold_left (fun msg err => (msg ++ "Error: " ++ err ++ nl)%string)
            (RunResult.Errors result) msg.

(** [buildSuccessMessage] builds a success notification message. *)
Definition buildSuccessMessage (env : Env) (r : Runner) (result : RunResult.t) : string :=
  let msg := ("Backup completed successfully on " ++ hostname r ++ "." ++ nl)%string in
  let msg :=
    match RunResult.Backup result with
    | Some b =>
        let st := BackupResult.Stats b in
        let msg := (msg ++ "Games: " ++ itoa (TotalGames st) ++ " total, "
                        ++ itoa (ProcessedGames st) ++ " processed" ++ nl)%string in
        if (0 <? NewGames st) || (0 <? ChangedGames st)
        then (msg ++ "Changes: " ++ itoa (NewGames st) ++ " new, "
                  ++ itoa (ChangedGames st) ++ " updated" ++ nl)%string
        else msg
    | None => msg
    end in
  (msg ++ "Duration: "
       ++ Duration_String env (Duration_Round (RunResult.Duration result) 100000000))%string.

(** [sendNotifications] sends notifications based on the result and
    config. *)
Definition sendNotifications (env : Env) (r : Runner) (result : RunResult.t)
  : Eff event (option error) :=
  match notifier r with
  | None => ret None
  | Some n =>
      let notifyLevel := Config.Notify (Apprise (config r)) in
      let '(shouldNotify, notification) :=
        if negb (RunResult.Success result)
           && (String.eqb notifyLevel NotifyError
               || String.eqb notifyLevel NotifyWarning
               || String.eqb notifyLevel NotifyAlways)
        then (true, Some (ErrorNotification "Ludusavi Backup Failed"
                                            (buildErrorMessage r result)))
        else if String.eqb notifyLevel NotifyAlways
        then (true, Some (InfoNotification "Ludusavi Backup Completed"
                                           (buildSuccessMessage env r result)))
        else (false, None) in
      match shouldNotify, notification with
      | true, Some notification =>
          emit (EvNotify notification) ;;
          ret (Domain.Notify n notification)
      | _, _ => ret None
      end
  end.

(** The part of [Run] under [if r.executor != nil]. A panic of an
    operation ends it there. *)
Definition runOperations (env : Env) (r : Runner) (ex : Executor)
    (result : RunResult.t) : Eff event (completion RunResult.t) :=
  upload <- runCloudUpload env r ex ;;
  match upload with
  | Panics => ret Panics
  | Returns (uploadResult, err) =>
      result <- match err with
                | Some _ =>
                    log LError "cloud upload failed" ;;
                    ret (RunResult.AddError result err)
                | None => ret result
                end ;;
      let result := RunResult.setCloudUpload result uploadResult in
      backup <- runBackup env r ex ;;
      match backup with
      | Panics => ret Panics
      | Returns (backupResult, err) =>
          result <- match err with
                    | Some _ =>
                        log LError "backup failed" ;;
                        ret (RunResult.AddError result err)
                    | None => ret result
                    end ;;
          ret (Returns (RunResult.setBackup result backupResult))
      end
  end.

(** [Run] executes a single backup cycle. *)
Definition Run (env : Env) (r : Runner)
  : Eff event (completion (option RunResult.t * option error)) :=
  result <- RunResult.New (clock env) (DryRun (config r)) ;;
  log Info "starting backup run" ;;
  operated <- match executor r with
              | Some ex => runOperations env r ex result
              | None => ret (Returns result)
              end ;;
  match operated with
  | Panics => ret Panics
  | Returns result =>
      result <- RunResult.Complete (clock env) result ;;
      err <- pushMetrics env r result ;;
      result <- match err with
                | Some _ =>
                    log LError "failed to push metrics" ;;
                    ret (RunResult.AddError result err)
                | None => ret result
                end ;;
      err <- sendNotifications env r result ;;
      match err with
      | Some _ => log LError "failed to send notification"
      | None => ret tt
      end ;;
      log Info "backup run completed" ;;
      ret (Returns (Some result, None))
  end.

(** *** Vocabulary of the properties *)

(** [Run] up to and including [result.Complete()]. *)
Definition operate (env : Env) (r : Runner) : Eff event (completion RunResult.t) :=
  result <- RunResult.New (clock env) (DryRun (config r)) ;;
  log Info "starting backup run" ;;
  operated <- match executor r with
              | Some ex => runOperations env r ex result
              | None => ret (Returns result)
              end ;;
  match operated with
  | Panics => ret Panics
  | Returns result =>
      result <- RunResult.Complete (clock env) result ;;
      ret (Returns result)
  end.

(** [Run] after [result.Complete()]: metrics, notifications, return. *)
Definition report (env : Env) (r : Runner) (result : RunResult.t)
  : Eff event (completion (option RunResult.t * option error)) :=
  err <- pushMetrics env r result ;;
  result <- match err with
            | Some _ =>
                log LError "failed to push metrics" ;;
                ret (RunResult.AddError result err)
            | None => ret result
            end ;;
  err <- sendNotifications env r result ;;
  match err with
  | Some _ => log LError "failed to send notification"
  | None => ret tt
  end ;;
  log Info "backup run completed" ;;
  ret (Returns (Some result, None)).

(** The calls of the executor in a trace. *)
Definition executorCalls (tr : list event) : list event :=
  filter (fun e => match e with
                   | EvCloudUpload _ | EvBackup _ => true
                   | _ => false
                   end) tr.

(** The metrics pushed, in order. *)
Definition pushed (tr : list event) : list Metrics :=
  flat_map (fun e => match e with EvPush m => [m] | _ => [] end) tr.

(** The notifications handed to the notifier, in order. *)
Definition notified (tr : list event) : list Notification :=
  flat_map (fun e => match e with EvNotify n => [n] | _ => [] end) tr.

(** What [sendNotifications] hands to the notifier for a result. *)
Definition sentFor (env : Env) (r : Runner) (result : RunResult.t) : list Notification :=
  notified (trace (snd (sendNotifications env r result world0))).

(** The results a slot of the metrics holds. *)
Definition slot (b : option BackupResult.t) : list BackupResult.t :=
  match b with
  | Some x => [x]
  | None => []
  end.

Definition notifyLevel (r : Runner) : NotifyLevel := Config.Notify (Apprise (config r)).

Definition force : BackupOptions := {| BackupForce := true |}.
Definition forceUpload : UploadOptions := {| UploadForce := true |}.

(** The result [Run] stores in a slot for what an executor method
    returned: the result that came with a nil error, nil otherwise. *)
Definition stored (o : outcome) : option BackupResult.t :=
  match o with
  | Returned b => Some b
  | Failed _ | Neither => None
  end.

(** The entry of [Errors] for what an executor method returned. *)
Definition recorded (msg : string) (o : outcome) : list string :=
  match o with
  | Returned _ | Neither => []
  | Failed err => [error_Error (wrapError msg err)]
  end.

(** An executor method answered: it returned a result or an error. *)
Definition answered (o : outcome) : bool :=
  match o with
  | Returned _ | Failed _ => true
  | Neither => false
  end.

(** Every call of the executor that a cycle of the runner makes is
    answered: the runner has no executor, or it skips the calls (dry run),
    or [CloudUpload] and [Backup] each return a result or an error. *)
Definition answers (r : Runner) : bool :=
  match executor r with
  | None => true
  | Some ex =>
      DryRun (config r)
      || (answered (CloudUpload ex forceUpload) && answered (Backup ex force))
  end.

(** The result [Run] returned, if it returned one. *)
Definition returnedResult (o : completion (option RunResult.t * option error))
  : option RunResult.t :=
  match o with
  | Returns (result, _) => result
  | Panics => None
  end.

(** The entry of [Errors] for what the metrics push returned. *)
Definition pushError (err : option error) : list string :=
  match err with
  | Some e => [error_Error e]
  | None => []
  end.

(** The synthetic result of a skipped operation. *)
Definition skipped (op : OperationType) (b : BackupResult.t) : Prop :=
  BackupResult.Operation b = op
  /\ BackupResult.Success b = true
  /\ BackupResult.Stats b = zeroStats
  /\ BackupResult.Error b = "".

(** *** Concrete inputs *)

Definition testEnv : Env :=
  {| clock := fun n => 1000 + Z.of_nat n;
     os_Hostname := "test-host";
     Duration_String := fun d => (itoa d ++ "ns")%string |}.

(** [testConfig()] of the package's tests, with the notify level and the
    dry-run flag to choose. *)
Definition testConfig (notify : NotifyLevel) (dryRun : bool) : Config :=
  {| Interval := 20 * 60 * Second;
     BackupOnStartup := true;
     LudusaviPath := "";
     DryRun := dryRun;
     Retry := HTTP.DefaultRetryConfig;
     Config.Metrics := {| MetricsEnabled := false;
                          PushgatewayURL := "http://localhost:9091" |};
     Apprise := {| AppriseEnabled := true;
                   AppriseURL := "http://localhost:8000";
                   Key := "test";
                   Config.Notify := notify |};
     Log := {| Config.Level := "info"; Output := ""; MaxSizeMB := 10 |} |}.

Definition succeeded (op : OperationType) : BackupResult.t :=
  {| BackupResult.Operation := op;
     BackupResult.Success := true;
     BackupResult.StartTime := 10;
     BackupResult.EndTime := 20;
     BackupResult.Duration := 10;
     BackupResult.Stats := zeroStats;
     BackupResult.Error := "" |}.

(** A [MockExecutor] with both functions unset: both operations succeed. *)
Definition mockExecutor : Executor :=
  {| Backup := fun _ => Returned (succeeded OperationBackup);
     CloudUpload := fun _ => Returned (succeeded OperationCloudUpload);
     Version := inl "mock-version";
     ExecutorValidate := None |}.

(** A [MockExecutor] whose [CloudUploadFunc] returns [nil] and an error,
    as the functions of [TestRunner_Run_DryRun] do. *)
Definition uploadErrorExecutor : Executor :=
  {| Backup := fun _ => Returned (succeeded OperationBackup);
     CloudUpload := fun _ => Failed (errorString "upload unreachable");
     Version := inl "mock-version";
     ExecutorValidate := None |}.

(** A [MockExecutor] whose [CloudUploadFunc] returns a result completed
    with [Complete(false, err)] and a nil error, as the [BackupFunc] of
    [TestRunner_Run_BackupFailure] does. *)
Definition uploadUnsuccessfulExecutor : Executor :=
  {| Backup := fun _ => Returned (succeeded OperationBackup);
     CloudUpload := fun _ =>
       Returned {| BackupResult.Operation := OperationCloudUpload;
                   BackupResult.Success := false;
                   BackupResult.StartTime := 10;
                   BackupResult.EndTime := 20;
                   BackupResult.Duration := 10;
                   BackupResult.Stats := zeroStats;
                   BackupResult.Error := "upload failed" |};
     Version := inl "mock-version";
     ExecutorValidate := None |}.

(** A [MockExecutor] whose [CloudUploadFunc] returns a nil result and a
    nil error. *)
Definition nilResultExecutor : Executor :=
  {| Backup := fun _ => Returned (succeeded OperationBackup);
     CloudUpload := fun _ => Neither;
     Version := inl "mock-version";
     ExecutorValidate := None |}.

(** A pusher that always fails. *)
Definition failingPusher : MetricsPusher :=
  {| Push := fun _ => Some (errorString "pushgateway down");
     PusherValidate := None |}.

(** A notifier that always fails. *)
Definition failingNotifier : Notifier :=
  {| Domain.Notify := fun _ => Some (errorString "apprise down");
     NotifierValidate := None |}.

(** A pusher and a notifier that record nothing and succeed. *)
Definition mockPusher : MetricsPusher :=
  {| Push := fun _ => None; PusherValidate := None |}.

(** A completed result of a cycle without operations. *)
Definition completed (success : bool) : RunResult.t :=
  {| RunResult.StartTime := 1000;
     RunResult.EndTime := 1010;
     RunResult.Duration := 10;
     RunResult.Success := success;
     RunResult.DryRun := false;
     RunResult.Backup := None;
     RunResult.CloudUpload := None;
     RunResult.Errors := [] |}.

(** The runner of the package's tests. *)
Definition testRunner (notify : NotifyLevel) (dryRun : bool)
    (ex : option Executor) (p : option MetricsPusher) (n : option Notifier) : Runner :=
  NewRunner testEnv (testConfig notify dryRun)
            [WithExecutor ex; WithMetricsPusher p; WithNotifier n].

(** [sub] occurs in [s]. *)
Definition contains (s sub : string) : Prop :=
  exists pre post, s = (pre ++ sub ++ post)%string.

(** The line of [buildErrorMessage] for an operation. *)
Definition operationLine (label : string) (slot : option BackupResult.t) : string :=
  match slot with
  | Some b => if BackupResult.Success b then ""
              else (label ++ BackupResult.Error b ++ nl)%string
  | None => ""
  end.

(** The lines of [buildErrorMessage] for the entries of [Errors]. *)
Definition errorLines (errs : list string) : string :=
  String.concat "" (map (fun err => ("Error: " ++ err ++ nl)%string) errs).

End App.

(** ** internal/notify/multi.go *)
Module MultiNotifier.
Import Domain.

(** [MultiNotifier] sends notifications to multiple notifiers. *)
Record t := { notifiers : list Notifier }.

(** [NewMultiNotifier] creates a new MultiNotifier. *)
Definition NewMultiNotifier (notifiers : list Notifier) : t :=
  {| notifiers := notifiers |}.

(** The error [errors.Join] makes of errors that are not nil: it wraps
    them all, and its text is theirs, one per line. *)
Record joinError := { errs : list error }.

Definition joinError_Error (e : joinError) : string :=
  String.concat App.nl (map error_Error (errs e)).

(** [errors.Join] of errors none of which is nil. *)
Definition errors_Join (errs : list error) : option joinError :=
  match errs with
  | [] => None
  | _ => Some {| errs := errs |}
  end.

(** A call of the [i]-th notifier, or a log line. *)
Inductive event : Type :=
| EvLog (l : level) (msg : string)
| EvNotify (i : nat) (notification : Notification)
| EvValidate (i : nat).

Definition log (l : level) (msg : string) : Eff event unit := emit (EvLog l msg).

(** The loop [for _, notifier := range m.notifiers] of [Notify], from
    the [i]-th notifier on. *)
Fixpoint notifyEach (i : nat) (ns : list Notifier) (notification : Notification)
    (errs : list error) : Eff event (list error) :=
  match ns with
  | [] => ret errs
  | notifier :: ns' =>
      emit (EvNotify i notification) ;;
      match Domain.Notify notifier notification with
      | Some err =>
          log Warn "notifier failed" ;;
          notifyEach (S i) ns' notification (errs ++ [err])
      | None => notifyEach (S i) ns' notification errs
      end
  end.

(** [Notify] sends a notification to all configured notifiers. It
    returns an error if any notifier fails, but attempts all notifiers. *)
Definition Notify (m : t) (notification : Notification) : Eff event (option joinError) :=
  errs <- notifyEach 0 (notifiers m) notification [] ;;
  if (0 <? List.length errs)%nat then ret (errors_Join errs) else ret None.

(** The loop of [Validate]. *)
Fixpoint validateEach (i : nat) (ns : list Notifier) (errs : list error)
  : Eff event (list error) :=
  match ns with
  | [] => ret errs
  | notifier :: ns' =>
      emit (EvValidate i) ;;
      match NotifierValidate notifier with
      | Some err => validateEach (S i) ns' (errs ++ [err])
      | None => validateEach (S i) ns' errs
      end
  end.

(** [Validate] validates all configured notifiers. *)
Definition Validate (m : t) : Eff event (option joinError) :=
  errs <- validateEach 0 (notifiers m) [] ;;
  if (0 <? List.length errs)%nat then ret (errors_Join errs) else ret None.

(** *** Vocabulary of the properties *)

(** The notifiers called in a trace, by index, with what they were
    handed. *)
Definition notifyCalls (tr : list event) : list (nat * Notification) :=
  flat_map (fun e => match e with EvNotify i n => [(i, n)] | _ => [] end) tr.

Definition validateCalls (tr : list event) : list nat :=
  flat_map (fun e => match e with EvValidate i => [i] | _ => [] end) tr.

(** The warnings logged in a trace. *)
Definition warnings (tr : list event) : list string :=
  flat_map (fun e => match e with EvLog Warn msg => [msg] | _ => [] end) tr.

(** The errors of the notifiers that fail on a notification, in the order
    of the notifiers. *)
Definition failures (ns : list Notifier) (notification : Notification) : list error :=
  flat_map (fun n => match Domain.Notify n notification with
                     | Some err => [err]
                     | None => []
                     end) ns.

Definition invalid (ns : list Notifier) : list error :=
  flat_map (fun n => match NotifierValidate n with
                     | Some err => [err]
                     | None => []
                     end) ns.

(** *** Concrete inputs *)

Definition alert : Notification := ErrorNotification "Ludusavi Backup Failed" "disk full".

(** A failing notifier between two that work. *)
Definition oneDown : t :=
  NewMultiNotifier [NopNotifier; App.failingNotifier; NopNotifier].

End MultiNotifier.

(** ** internal/executor/ludusavi.go *)
Module Ludusavi.

(** [LudusaviChangedGames] contains the breakdown of changed games. *)
Record LudusaviChangedGames := { New : Z; Different : Z; Same : Z }.

(** [LudusaviOverall] contains the overall statistics from ludusavi. *)
Record LudusaviOverall := {
  TotalGames : Z;
  TotalBytes : Z;
  ProcessedGames : Z;
  ProcessedBytes : Z;
  ChangedGames : LudusaviChangedGames
}.

(** [LudusaviErrors] contains error information from ludusavi. *)
Record LudusaviErrors := { SomeGamesFailed : bool }.

(** [LudusaviOutput] represents the JSON output from ludusavi --api
    commands. *)
Record LudusaviOutput := { Overall : LudusaviOverall; Errors : LudusaviErrors }.

(** [LudusaviExecutor] implements Executor using the ludusavi CLI. *)
Record LudusaviExecutor := {
  binaryPath : string;
  env : list (string * string)
}.

(** What [cmd.Run] gives: the standard output of a command that exited
    with status zero, or an error and the standard error output. *)
Inductive ran :=
| Exited (stdout : string)
| Broke (err : error) (stderr : string).

(** The system the executor runs on: [exec.LookPath], [os.Stat], the
    candidates of [getCommonPaths], the commands ([cmd.Run], by path,
    arguments and extra environment), [ctx.Err()] once a command has
    failed, the trimming of white space, [json.Unmarshal] into a
    [LudusaviOutput], and the clock. *)
Record OS := {
  exec_LookPath : string -> string + error;
  os_Stat : string -> option error;
  getCommonPaths : list string;
  cmd_Run : string -> list string -> list (string * string) -> ran;
  ctx_Err : option error;
  strings_TrimSpace : string -> string;
  bytes_TrimSpace : string -> string;
  json_Unmarshal : string -> LudusaviOutput + error;
  clock : nat -> Time
}.

Inductive event : Type :=
| EvLog (l : level) (msg : string)
| EvRun (path : string) (args : list string).

Definition log (l : level) (msg : string) : Eff event unit := emit (EvLog l msg).

(** The first candidate that exists. *)
Fixpoint firstExisting (os : OS) (candidates : list string) : option string :=
  match candidates with
  | [] => None
  | candidate :: rest =>
      match os_Stat os candidate with
      | None => Some candidate
      | Some _ => firstExisting os rest
      end
  end.

(** [getBinaryPath] returns the path to the ludusavi binary. *)
Definition getBinaryPath (os : OS) (e : LudusaviExecutor) : string + error :=
  if negb (String.eqb (binaryPath e) "") then inl (binaryPath e)
  else
    match exec_LookPath os "ludusavi" with
    | inl path => inl path
    | inr _ =>
        match firstExisting os (getCommonPaths os) with
        | Some candidate => inl candidate
        | None => inr (errorString "ludusavi not found in PATH or common locations")
        end
    end.

(** [run] executes ludusavi with the given arguments. *)
Definition run (os : OS) (e : LudusaviExecutor) (args : list string)
  : Eff event (string + error) :=
  match getBinaryPath os e with
  | inr err => ret (inr err)
  | inl path =>
      log Debug "executing ludusavi" ;;
      emit (EvRun path args) ;;
      match cmd_Run os path args (env e) with
      | Exited stdout => ret (inl stdout)
      | Broke err stderr =>
          match ctx_Err os with
          | Some ctxErr => ret (inr ctxErr)
          | None =>
              let errMsg := strings_TrimSpace os stderr in
              if negb (String.eqb errMsg "")
              then ret (inr (wrapError ("ludusavi failed: " ++ errMsg ++ ": ") err))
              else ret (inr (wrapError "ludusavi failed: " err))
          end
      end
  end.

(** [parseOutput] parses the JSON output from ludusavi. *)
Definition parseOutput (os : OS) (output : string) : Domain.BackupStats + error :=
  if (String.length (bytes_TrimSpace os output) =? 0)%nat then inl Domain.zeroStats
  else
    match json_Unmarshal os output with
    | inr err => inr (wrapError "failed to parse JSON: " err)
    | inl ludusaviOut =>
        inl {| Domain.TotalGames := TotalGames (Overall ludusaviOut);
               Domain.ProcessedGames := ProcessedGames (Overall ludusaviOut);
               Domain.TotalBytes := TotalBytes (Overall ludusaviOut);
               Domain.ProcessedBytes := ProcessedBytes (Overall ludusaviOut);
               Domain.NewGames := New (ChangedGames (Overall ludusaviOut));
               Domain.ChangedGames := Different (ChangedGames (Overall ludusaviOut));
               Domain.SameGames := Same (ChangedGames (Overall ludusaviOut)) |}
    end.

(** [result.Stats = *stats] *)
Definition setStats (r : Domain.BackupResult.t) (stats : Domain.BackupStats)
  : Domain.BackupResult.t :=
  {| Domain.BackupResult.Operation := Domain.BackupResult.Operation r;
     Domain.BackupResult.Success := Domain.BackupResult.Success r;
     Domain.BackupResult.StartTime := Domain.BackupResult.StartTime r;
     Domain.BackupResult.EndTime := Domain.BackupResult.EndTime r;
     Domain.BackupResult.Duration := Domain.BackupResult.Duration r;
     Domain.BackupResult.Stats := stats;
     Domain.BackupResult.Error := Domain.BackupResult.Error r |}.

(** What [Backup] and [CloudUpload] return: a result and an error. *)
Definition returned : Type := Domain.BackupResult.t * option error.

(** The body [Backup] and [CloudUpload] share, for an operation and its
    arguments. *)
Definition operation (os : OS) (e : LudusaviExecutor) (op : Domain.OperationType)
    (args : list string) : Eff event returned :=
  result <- Domain.BackupResult.New (clock os) op ;;
  out <- run os e args ;;
  match out with
  | inr err =>
      result <- Domain.BackupResult.Complete (clock os) result false (Some err) ;;
      ret (result, None)
  | inl output =>
      match parseOutput os output with
      | inr err =>
          result <- Domain.BackupResult.Complete (clock os) result false
                      (Some (wrapError "failed to parse output: " err)) ;;
          ret (result, None)
      | inl stats =>
          let result := setStats result stats in
          result <- Domain.BackupResult.Complete (clock os) result true None ;;
          ret (result, None)
      end
  end.

(** [Backup] runs a local backup operation. *)
Definition Backup (os : OS) (e : LudusaviExecutor) (opts : Domain.BackupOptions)
  : Eff event returned :=
  operation os e Domain.OperationBackup
            (["backup"; "--api"] ++ (if Domain.BackupForce opts then ["--force"] else [])).

(** [CloudUpload] runs a cloud upload operation. *)
Definition CloudUpload (os : OS) (e : LudusaviExecutor) (opts : Domain.UploadOptions)
  : Eff event returned :=
  operation os e Domain.OperationCloudUpload
            (["cloud"; "upload"; "--api"]
               ++ (if Domain.UploadForce opts then ["--force"] else [])).

(** [Version] returns the ludusavi version. *)
Definition Version (os : OS) (e : LudusaviExecutor) : Eff event (string + error) :=
  out <- run os e ["--version"] ;;
  match out with
  | inr err => ret (inr err)
  | inl output => ret (inl (strings_TrimSpace os output))
  end.

(** [Validate] checks if ludusavi is properly configured and available. *)
Definition Validate (os : OS) (e : LudusaviExecutor) : Eff event (option error) :=
  match getBinaryPath os e with
  | inr err => ret (Some err)
  | inl path =>
      match os_Stat os path with
      | Some err =>
          ret (Some (wrapError ("ludusavi binary not found at " ++ path ++ ": ") err))
      | None =>
          v <- Version os e ;;
          match v with
          | inr err => ret (Some (wrapError "ludusavi binary failed to execute: " err))
          | inl _ => ret None
          end
      end
  end.

(** *** Vocabulary of the properties *)

(** The commands run in a trace: path and arguments. *)
Definition commands (tr : list event) : list (string * list string) :=
  flat_map (fun e => match e with EvRun path args => [(path, args)] | _ => [] end) tr.

(** *** Concrete inputs *)

Definition sampleOutput : LudusaviOutput :=
  {| Overall := {| TotalGames := 100; TotalBytes := 5000; ProcessedGames := 95;
                   ProcessedBytes := 4000;
                   ChangedGames := {| New := 5; Different := 10; Same := 80 |} |};
     Errors := {| SomeGamesFailed := false |} |}.

(** A system with ludusavi on the PATH, where backups work and the cloud
    upload fails. *)
Definition testOS : OS :=
  {| exec_LookPath := fun _ => inl "/usr/bin/ludusavi";
     os_Stat := fun _ => None;
     getCommonPaths := ["/usr/bin/ludusavi"; "/usr/local/bin/ludusavi"];
     cmd_Run := fun _ args _ =>
       match args with
       | "backup" :: _ => Exited "{...}"
       | _ => Broke (errorString "exit status 1") "no cloud configured"
       end;
     ctx_Err := None;
     strings_TrimSpace := fun s => s;
     bytes_TrimSpace := fun s => s;
     json_Unmarshal := fun _ => inl sampleOutput;
     clock := fun n => 1000 + Z.of_nat n |}.

Definition testExecutor : LudusaviExecutor := {| binaryPath := ""; env := [] |}.

End Ludusavi.

(** ** internal/notify/apprise.go *)
Module Apprise.
Import Domain.

Definition maxBodyLength : nat := 1000.

(** [AppriseClient] sends notifications via an Apprise server. *)
Record AppriseClient := {
  url : string;
  key : string;
  httpClient : HTTP.Client
}.

Definition AppriseOption := AppriseClient -> AppriseClient.

(** [WithHTTPClient] sets a custom HTTP client. *)
Definition WithHTTPClient (client : HTTP.Client) : AppriseOption := fun a =>
  {| url := url a; key := key a; httpClient := client |}.

(** [strings.HasSuffix] *)
Definition HasSuffix (s suffix : string) : bool :=
  (String.length suffix <=? String.length s)%nat
  && String.eqb (substring (String.length s - String.length suffix)
                           (String.length suffix) s) suffix.

(** [strings.TrimSuffix] *)
Definition TrimSuffix (s suffix : string) : string :=
  if HasSuffix s suffix
  then substring 0 (String.length s - String.length suffix) s
  else s.

(** [NewAppriseClient] creates a new AppriseClient. *)
Definition NewAppriseClient (url key : string) (opts : list AppriseOption)
  : AppriseClient :=
  fold_left (fun a opt => opt a) opts
    {| url := TrimSuffix url "/"; key := key; httpClient := HTTP.NewClient |}.

(** [appriseRequest] represents the JSON body sent to Apprise. *)
Record appriseRequest := {
  Title : string;
  Body : string;
  Type' : string
}.

(** The network a client talks to: what [http.NewRequestWithContext]
    says of a URL, the server behind each URL, and [json.Marshal] of a
    request. *)
Record Net := {
  url_Parse : string -> option error;
  server : string -> HTTP.Env;
  json_Marshal : appriseRequest -> string + error
}.

(** [mapLevel] maps domain notification level to Apprise type. A level
    that is none of the three is mapped to info by the [default] case;
    the levels here are the three. *)
Definition mapLevel (level : NotificationLevel) : string :=
  match level with
  | NotificationLevelInfo => "info"
  | NotificationLevelWarning => "warning"
  | NotificationLevelError => "failure"
  end.

(** The request [Notify] builds for a notification: a body of more than
    [maxBodyLength] bytes is cut. *)
Definition requestFor (notification : Notification) : appriseRequest :=
  let body := Domain.Body notification in
  let body := if (maxBodyLength <? String.length body)%nat
              then (substring 0 (maxBodyLength - 3) body ++ "...")%string
              else body in
  {| Title := Domain.Title notification;
     Body := body;
     Type' := mapLevel (Domain.Level notification) |}.

(** [c.Post(ctx, url, contentType, body)] of the HTTP client, with the
    making of the request. *)
Definition post (net : Net) (c : HTTP.Client) (url body : string)
  : Eff HTTP.event HTTP.result :=
  match url_Parse net url with
  | Some err => ret (None, Some (wrapError "failed to create request: " err))
  | None => HTTP.Post (server net url) c url body
  end.

(** What a method returns: an error that may be nil, unless it panics
    on a nil response. *)
Inductive returned :=
| Return (err : option error)
| Panic.

(** [Notify] sends a notification via Apprise. *)
Definition Notify (net : Net) (a : AppriseClient) (notification : Notification)
  : Eff HTTP.event returned :=
  let req := requestFor notification in
  match json_Marshal net req with
  | inr err => ret (Return (Some (wrapError "failed to marshal notification: " err)))
  | inl jsonBody =>
      let notifyURL := (url a ++ "/notify/" ++ key a)%string in
      HTTP.log Debug "sending notification via apprise" ;;
      '(resp, err) <- post net (httpClient a) notifyURL jsonBody ;;
      match err with
      | Some err => ret (Return (Some (wrapError "failed to send notification: " err)))
      | None =>
          match resp with
          | None => ret Panic
          | Some resp =>
              if (HTTP.StatusCode resp <? 200) || (300 <=? HTTP.StatusCode resp)
              then ret (Return (Some (errorString
                          ("apprise returned status " ++ itoa (HTTP.StatusCode resp)
                           ++ ": " ++ HTTP.Body resp)%string)))
              else
                HTTP.log Debug "notification sent successfully" ;;
                ret (Return None)
          end
      end
  end.

(** [c.CheckConnectivity(ctx, url)] against the server behind the URL. *)
Definition checkConnectivity (net : Net) (c : HTTP.Client) (url : string)
  : Eff HTTP.event (option error) :=
  HTTP.CheckConnectivity (url_Parse net) (server net url) c url.

(** [Validate] checks if the Apprise server is reachable. *)
Definition Validate (net : Net) (a : AppriseClient) : Eff HTTP.event (option error) :=
  let detailsURL := (url a ++ "/details/" ++ key a)%string in
  err <- checkConnectivity net (httpClient a) detailsURL ;;
  match err with
  | Some err =>
      err2 <- checkConnectivity net (httpClient a) (url a) ;;
      match err2 with
      | Some _ =>
          ret (Some (wrapError ("apprise server not reachable at " ++ url a ++ ": ") err))
      | None => ret None
      end
  | None => ret None
  end.

(** *** Vocabulary of the properties *)

(** A URL answers a connectivity check. *)
Definition reachable (net : Net) (url : string) : Prop :=
  url_Parse net url = None
  /\ exists status header body,
       HTTP.httpClient_Do (server net url) 1 None = HTTP.Received status header body
       /\ 200 <= status < 300.

(** *** Concrete inputs *)

(** An Apprise server that accepts what it is sent and has no details
    page. *)
Definition testNet : Net :=
  {| url_Parse := fun _ => None;
     server := fun u =>
       if String.eqb u "http://localhost:8000" then
         {| HTTP.httpClient_Do := fun _ _ => HTTP.Received 200 [] (HTTP.ReadOk "OK");
            HTTP.ctx_select := fun _ => HTTP.TimerFired;
            HTTP.ctx_Err := Canceled |}
       else if String.eqb u "http://localhost:8000/notify/test" then
         {| HTTP.httpClient_Do := fun _ _ => HTTP.Received 200 [] (HTTP.ReadOk "");
            HTTP.ctx_select := fun _ => HTTP.TimerFired;
            HTTP.ctx_Err := Canceled |}
       else HTTP.unreachable;
     json_Marshal := fun req => inl (Title req ++ ": " ++ Body req)%string |}.

Definition alert : Notification := ErrorNotification "Ludusavi Backup Failed" "disk full".

Definition testApprise : AppriseClient :=
  NewAppriseClient "http://localhost:8000/" "test" [WithHTTPClient HTTP.testClient].

End Apprise.

(** ** internal/app/scheduler.go *)
Module Scheduler.
Import Config Domain App.

(** [Scheduler] manages periodic execution of backup runs. The mutex and
    the two channels are left to the schedule below; [running] is the
    flag they guard. *)
Record t := {
  runner : Runner;
  interval : Duration;
  backupOnStartup : bool;
  running : bool
}.

Definition SchedulerOption := t -> t.

(** [WithInterval] sets the backup interval. *)
Definition WithInterval (d : Duration) : SchedulerOption := fun s =>
  {| runner := runner s; interval := d; backupOnStartup := backupOnStartup s;
     running := running s |}.

(** [WithBackupOnStartup] sets whether to run a backup immediately on
    start. *)
Definition WithBackupOnStartup (b : bool) : SchedulerOption := fun s =>
  {| runner := runner s; interval := interval s; backupOnStartup := b;
     running := running s |}.

(** [NewScheduler] creates a new Scheduler. *)
Definition NewScheduler (runner : Runner) (opts : list SchedulerOption) : t :=
  fold_left (fun s opt => opt s) opts
    {| runner := runner; interval := 20 * Minute; backupOnStartup := true;
       running := false |}.

Definition setRunning (s : t) (b : bool) : t :=
  {| runner := runner s; interval := interval s; backupOnStartup := backupOnStartup s;
     running := b |}.

(** The case a [select] of the loop of [Start] takes: the ticker (and
    whether the context is done by the time [runBackup] looks), the stop
    channel, or the context. *)
Inductive signal :=
| Tick (ctxDone : bool)
| StopSignal
| CtxDone.

(** What happens around one call of [Start]: whether the context is done
    when the backup on startup looks, the cases the successive [select]s
    take, and [ctx.Err()]. *)
Record Schedule := {
  ctxDoneAtStartup : bool;
  signals : list signal;
  ctx_Err : error
}.

(** [runBackup] runs a backup with a separate context that allows
    graceful completion. The goroutine that watches for a shutdown only
    cancels the context of the cycle, which the collaborators of the
    runner stand for; its log lines are not in the trace. *)
Definition runBackup (env : Env) (s : t) (ctxDone : bool)
  : Eff event (completion unit) :=
  if ctxDone then ret (Returns tt)
  else
    ran <- Run env (runner s) ;;
    match ran with
    | Panics => ret Panics
    | Returns (_, err) =>
        match err with
        | Some _ => log LError "backup failed"
        | None => ret tt
        end ;;
        ret (Returns tt)
    end.

(** [runFinalBackup] pushes a final metrics update before stopping. *)
Definition runFinalBackup (env : Env) (s : t) : Eff event unit :=
  log Debug "pushing final metrics before shutdown" ;;
  match metricsPusher (runner s) with
  | Some pusher =>
      metrics <- NewMetrics (clock env) (hostname (runner s)) ;;
      let metrics := setServiceUp metrics false in
      emit (EvPush metrics) ;;
      match Push pusher metrics with
      | Some _ => log Warn "failed to push final metrics"
      | None => ret tt
      end
  | None => ret tt
  end.

(** How a call of [Start] ends: it returns an error that may be nil, it
    panics, or it is still in its loop when the schedule runs out. *)
Inductive ended :=
| Returned (err : option error)
| Panicked
| StillRunning.

(** The loop [for { select { ... } }] of [Start]. *)
Fixpoint loop (env : Env) (s : t) (ctxErr : error) (sigs : list signal)
  : Eff event ended :=
  match sigs with
  | [] => ret StillRunning
  | CtxDone :: _ =>
      log Info "scheduler stopping due to context cancellation" ;;
      runFinalBackup env s ;;
      ret (Returned (Some ctxErr))
  | StopSignal :: _ =>
      log Info "scheduler stopping due to stop signal" ;;
      runFinalBackup env s ;;
      ret (Returned None)
  | Tick ctxDone :: rest =>
      log Debug "interval triggered, running backup" ;;
      ran <- runBackup env s ctxDone ;;
      match ran with
      | Panics => ret Panicked
      | Returns _ => loop env s ctxErr rest
      end
  end.

(** The part of [Start] before the ticker: the backup on startup. *)
Definition startup (env : Env) (s : t) (sched : Schedule)
  : Eff event (completion unit) :=
  log Info "scheduler started" ;;
  if backupOnStartup s
  then log Debug "running backup on startup" ;;
       runBackup env s (ctxDoneAtStartup sched)
  else ret (Returns tt).

(** [Start] begins the scheduler loop. It runs until Stop is called or
    the context is cancelled. [time.NewTicker] panics on an interval that
    is not positive, and a cycle panics with its runner; the deferred
    function clears [running] on the way out, panic or not. *)
Definition Start (env : Env) (s : t) (sched : Schedule) : Eff event (t * ended) :=
  if running s then ret (s, Returned None)
  else
    let s := setRunning s true in
    began <- startup env s sched ;;
    match began with
    | Panics => ret (setRunning s false, Panicked)
    | Returns _ =>
        if interval s <=? 0 then ret (setRunning s false, Panicked)
        else
          e <- loop env s (ctx_Err sched) (signals sched) ;;
          match e with
          | StillRunning => ret (s, StillRunning)
          | _ => ret (setRunning s false, e)
          end
    end.

(** *** Vocabulary of the properties *)

(** The cycles begun in a trace. *)
Definition started (tr : list event) : nat :=
  List.length (filter (fun e => match e with
                                | EvLog Info msg => String.eqb msg "starting backup run"
                                | _ => false
                                end) tr).

(** The pushes of a trace that say the service is down. *)
Definition downs (tr : list event) : list Metrics :=
  filter (fun m => negb (ServiceUp m)) (pushed tr).

(** The cycles a schedule lets begin: one for each time [runBackup]
    finds the context not done. *)
Definition cycles (flags : list bool) : nat :=
  List.length (filter negb flags).

(** What a signal that ends the loop makes [Start] return. *)
Definition answer (ctxErr : error) (last : signal) : ended :=
  match last with
  | CtxDone => Returned (Some ctxErr)
  | _ => Returned None
  end.

(** *** Concrete inputs *)

(** Two ticks, then a stop. *)
Definition twoTicks : Schedule :=
  {| ctxDoneAtStartup := false;
     signals := [Tick false; Tick false; StopSignal];
     ctx_Err := Canceled |}.

Definition testScheduler : t :=
  NewScheduler (testRunner NotifyError false (Some mockExecutor) (Some mockPusher)
                           (Some NopNotifier))
               [WithInterval (20 * Minute)].

End Scheduler.

(** * Properties of the retry client *)
Section ClientProperties.
Import HTTP.

(** Counting calls in a trace. *)
Lemma calls_app (a b : list event) : calls (a ++ b) = (calls a + calls b)%nat.
Proof.
  unfold calls. rewrite filter_app, length_app. reflexivity.
Qed.

Lemma delays_app (a b : list event) : delays (a ++ b) = delays a ++ delays b.
Proof.
  unfold delays. apply flat_map_app.
Qed.

Lemma Do_readable env c req :
  readable req ->
  Do env c req = attempts env c (sent req) (Z.to_nat (MaxAttempts (retry c))) 1 None.
Proof.
  unfold readable, Do, sent. intros Hr.
  destruct (ReqBody req) as [[b | e] |]; try reflexivity.
  exfalso. apply (Hr e). reflexivity.
Qed.

Lemma shouldRetry_iff (statusCode : Z) :
  shouldRetry statusCode = true <-> In statusCode retryableStatuses.
Proof.
  unfold retryableStatuses. split.
  - unfold shouldRetry. intros H.
    destruct statusCode as [| p | p]; try discriminate.
    repeat (destruct p as [p | p |]; try discriminate); simpl; tauto.
  - simpl. intros [H | [H | [H | [H | [H | []]]]]]; subst; reflexivity.
Qed.

(** What one pass through the loop body appends to the trace. *)
Ltac run_eff :=
  cbn [andb];
  cbv beta iota zeta delta [bind ret log emit doRoundTrip select];
  cbn [fst snd trace ticks].

(** C4, as the code has it. A first response whose body was read and
    whose status is not one of 429, 500, 502, 503, 504 ends the loop at
    once: whatever [MaxAttempts >= 1] is, [Do] calls the target once, waits
    for no retry and returns that response with a nil error; and
    [shouldRetry] holds of exactly those five statuses. The body has to be
    read: the status is looked at only after [io.ReadAll] succeeded. *)
Theorem Do_non_retryable_once env c req status header body :
  1 <= MaxAttempts (retry c) ->
  readable req ->
  httpClient_Do env 1 (sent req) = Received status header (ReadOk body) ->
  ~ In status retryableStatuses ->
  fst (Do env c req world0)
    = (Some {| StatusCode := status; Body := body; Headers := header |}, None)
  /\ calls (trace (snd (Do env c req world0))) = 1%nat
  /\ delays (trace (snd (Do env c req world0))) = []
  /\ (forall s, shouldRetry s = true <-> In s retryableStatuses).
Proof.
  intros Hmax Hr Hrt Hs.
  rewrite (Do_readable env c req Hr).
  destruct (Z.to_nat (MaxAttempts (retry c))) as [| n] eqn:Hn; [lia |].
  assert (Hno : shouldRetry status = false).
  { destruct (shouldRetry status) eqn:E; [| reflexivity].
    apply shouldRetry_iff in E. contradiction. }
  cbn [attempts]. run_eff. rewrite Hrt. run_eff. rewrite Hno. cbn.
  repeat split; try reflexivity; apply shouldRetry_iff.
Qed.

Lemma attempts_exhausted env c body :
  forall n attempt lastErr w,
    Z.of_nat (S n) = MaxAttempts (retry c) - attempt + 1 ->
    (forall k, attempt <= k <= MaxAttempts (retry c) ->
               retryable (httpClient_Do env k body) = true) ->
    (forall k, attempt <= k < MaxAttempts (retry c) ->
               ctx_select env k = TimerFired) ->
    fst (attempts env c body (S n) attempt lastErr w)
      = exhausted c (httpClient_Do env (MaxAttempts (retry c)) body)
    /\ calls (trace (snd (attempts env c body (S n) attempt lastErr w)))
       = (calls (trace w) + S n)%nat.
Proof.
  induction n as [| n IH]; intros attempt lastErr w Hn Hret Hsel.
  - assert (Hlast : attempt = MaxAttempts (retry c)) by lia.
    subst attempt. clear Hret Hsel.
    cbn [attempts]. run_eff.
    destruct (httpClient_Do env (MaxAttempts (retry c)) body)
      as [e | status header [b | e]];
      run_eff; rewrite ?Z.ltb_irrefl, ?andb_false_r;
      cbn [exhausted attempts]; run_eff; unfold exhaustedMsg;
      rewrite !calls_app; cbn; split; try reflexivity; lia.
  - assert (Hlt : (attempt <? MaxAttempts (retry c)) = true)
      by (apply Z.ltb_lt; lia).
    pose proof (Hret attempt ltac:(lia)) as Hr.
    pose proof (Hsel attempt ltac:(lia)) as Hs.
    assert (Hn' : Z.of_nat (S n) = MaxAttempts (retry c) - (attempt + 1) + 1) by lia.
    assert (Hret' : forall k, attempt + 1 <= k <= MaxAttempts (retry c) ->
                              retryable (httpClient_Do env k body) = true)
      by (intros; apply Hret; lia).
    assert (Hsel' : forall k, attempt + 1 <= k < MaxAttempts (retry c) ->
                              ctx_select env k = TimerFired)
      by (intros; apply Hsel; lia).
    remember (S n) as m.
    cbn [attempts]. run_eff.
    destruct (httpClient_Do env attempt body) as [e | status header [b | e]];
      cbn [retryable] in Hr; run_eff; rewrite ?Hr, ?Hlt, ?Hs; run_eff; subst m;
      lazymatch goal with
      | |- context [attempts env c body (S n) (attempt + 1) ?l ?w'] =>
          destruct (IH (attempt + 1) l w' Hn' Hret' Hsel') as [IH1 IH2];
          rewrite IH1, IH2; cbn [trace]; rewrite !calls_app; cbn;
          split; [reflexivity | lia]
      end.
Qed.

(** C1, as the code has it. With [MaxAttempts = N >= 1], a target whose
    outcome is retryable on all [N] attempts (a transport error, a response
    whose body cannot be read, a response with a retryable status), and no
    wait cut short by the context, [Do] calls the target exactly [N] times.
    What it returns depends on the last attempt. A response whose body was
    read is returned with a nil error. A response whose body could not be
    read is not returned: [Do] returns no response and the error
    "request failed after N attempts" that wraps "failed to read response
    body" and the error of the read. A failure at the transport level gives
    no response and the error "request failed after N attempts" that wraps
    that transport error. *)
Theorem Do_retries_exhausted env c req N :
  MaxAttempts (retry c) = N ->
  1 <= N ->
  readable req ->
  (forall k, 1 <= k <= N -> retryable (httpClient_Do env k (sent req)) = true) ->
  (forall k, 1 <= k < N -> ctx_select env k = TimerFired) ->
  calls (trace (snd (Do env c req world0))) = Z.to_nat N
  /\ (forall status header body,
        httpClient_Do env N (sent req) = Received status header (ReadOk body) ->
        fst (Do env c req world0)
          = (Some {| StatusCode := status; Body := body; Headers := header |}, None))
  /\ (forall status header e,
        httpClient_Do env N (sent req) = Received status header (ReadErr e) ->
        fst (Do env c req world0)
          = (None,
             Some (wrapError ("request failed after " ++ itoa N ++ " attempts: ")
                             (wrapError "failed to read response body: " e))))
  /\ (forall e,
        httpClient_Do env N (sent req) = TransportError e ->
        fst (Do env c req world0)
          = (None, Some (wrapError ("request failed after " ++ itoa N ++ " attempts: ") e))
        /\ Unwrap (wrapError ("request failed after " ++ itoa N ++ " attempts: ") e)
           = Some e).
Proof.
  intros HN Hpos Hr Hret Hsel. subst N.
  rewrite (Do_readable env c req Hr).
  destruct (Z.to_nat (MaxAttempts (retry c))) as [| n] eqn:Hn; [lia |].
  destruct (attempts_exhausted env c (sent req) n 1 None world0) as [H1 H2];
    [lia | assumption | assumption |].
  rewrite H1, H2. split; [reflexivity |]. split; [| split].
  - intros status header body Hlast. rewrite Hlast. reflexivity.
  - intros status header e Hlast. rewrite Hlast. reflexivity.
  - intros e Hlast. rewrite Hlast. split; reflexivity.
Qed.

Lemma attempts_cancelled env c body n :
  forall fuel attempt lastErr w,
    Z.of_nat fuel = MaxAttempts (retry c) - attempt + 1 ->
    attempt <= n < MaxAttempts (retry c) ->
    (forall k, attempt <= k < n ->
               retryable (httpClient_Do env k body) = true
               /\ ctx_select env k = TimerFired) ->
    waits (httpClient_Do env n body) = true ->
    ctx_select env n = CtxDone ->
    fst (attempts env c body fuel attempt lastErr w) = (None, Some (ctx_Err env))
    /\ calls (trace (snd (attempts env c body fuel attempt lastErr w)))
       = (calls (trace w) + Z.to_nat (n - attempt + 1))%nat
    /\ exists tr, trace (snd (attempts env c body fuel attempt lastErr w))
                  = tr ++ [EvSelect n (calculateDelay (retry c) n)].
Proof.
  induction fuel as [| fuel IH]; intros attempt lastErr w Hfuel Hn Hbefore Hwait Hdone;
    [lia |].
  assert (Hlt : (attempt <? MaxAttempts (retry c)) = true) by (apply Z.ltb_lt; lia).
  destruct (Z.eq_dec attempt n) as [-> | Hne].
  - replace (Z.to_nat (n - n + 1)) with 1%nat by lia.
    cbn [attempts]. run_eff.
    destruct (httpClient_Do env n body) as [e | status header [b | e]];
      cbn [waits] in Hwait; try discriminate;
      run_eff; rewrite ?Hwait, ?Hlt, ?Hdone; run_eff;
      rewrite !calls_app; cbn; (split; [reflexivity |]); (split; [lia |]);
      eexists; reflexivity.
  - destruct (Hbefore attempt ltac:(lia)) as [Hr Hs].
    assert (Hfuel' : Z.of_nat fuel = MaxAttempts (retry c) - (attempt + 1) + 1) by lia.
    assert (Hn' : attempt + 1 <= n < MaxAttempts (retry c)) by lia.
    assert (Hbefore' : forall k, attempt + 1 <= k < n ->
                                 retryable (httpClient_Do env k body) = true
                                 /\ ctx_select env k = TimerFired)
      by (intros; apply Hbefore; lia).
    replace (Z.to_nat (n - attempt + 1)) with (S (Z.to_nat (n - (attempt + 1) + 1))) by lia.
    cbn [attempts]. run_eff.
    destruct (httpClient_Do env attempt body) as [e | status header [b | e]];
      cbn [retryable] in Hr; run_eff; rewrite ?Hr, ?Hlt, ?Hs; run_eff;
      lazymatch goal with
      | |- context [attempts env c body fuel (attempt + 1) ?l ?w'] =>
          destruct (IH (attempt + 1) l w' Hfuel' Hn' Hbefore' Hwait Hdone)
            as (IH1 & IH2 & IH3);
          rewrite IH1, IH2; cbn [trace]; rewrite !calls_app; cbn;
          (split; [reflexivity |]); (split; [lia | exact IH3])
      end.
Qed.

(** C5. When the context is done during the wait that follows attempt [n]
    (the [select] takes [ctx.Done()] before the timer fires), [Do] returns
    at once: no response, the context's error itself and not the
    "request failed after N attempts" error, no further call of the
    target, and the interrupted [select] is the last thing [Do] did. *)
Theorem Do_cancelled_during_backoff env c req n :
  readable req ->
  1 <= n < MaxAttempts (retry c) ->
  (forall k, 1 <= k < n ->
             retryable (httpClient_Do env k (sent req)) = true
             /\ ctx_select env k = TimerFired) ->
  waits (httpClient_Do env n (sent req)) = true ->
  ctx_select env n = CtxDone ->
  fst (Do env c req world0) = (None, Some (ctx_Err env))
  /\ calls (trace (snd (Do env c req world0))) = Z.to_nat n
  /\ exists tr, trace (snd (Do env c req world0))
                = tr ++ [EvSelect n (calculateDelay (retry c) n)].
Proof.
  intros Hr Hn Hbefore Hwait Hdone.
  rewrite (Do_readable env c req Hr).
  destruct (attempts_cancelled env c (sent req) n
              (Z.to_nat (MaxAttempts (retry c))) 1 None world0)
    as (H1 & H2 & H3); try assumption; [lia |].
  rewrite H1, H2. cbn [trace world0 calls filter List.length Nat.add].
  split; [reflexivity |]. split; [f_equal; lia | exact H3].
Qed.

Lemma readable_getRequest : readable getRequest.
Proof. intros e H. discriminate H. Qed.

(** The test [TestClient_NoRetry_ClientError]: a 400 is returned after
    one call. *)
Lemma Do_non_retryable_once_witness :
  1 <= MaxAttempts (retry testClient)
  /\ ~ In 400 retryableStatuses
  /\ fst (Do badRequest testClient getRequest world0)
     = (Some {| StatusCode := 400; Body := "bad request"; Headers := [] |}, None)
  /\ calls (trace (snd (Do badRequest testClient getRequest world0))) = 1%nat
  /\ delays (trace (snd (Do badRequest testClient getRequest world0))) = [].
Proof.
  assert (H1 : 1 <= MaxAttempts (retry testClient)) by (vm_compute; discriminate).
  assert (H4 : ~ In 400 retryableStatuses)
    by (simpl; intros [H | [H | [H | [H | [H | []]]]]]; discriminate H).
  destruct (Do_non_retryable_once badRequest testClient getRequest 400 [] "bad request"
              H1 readable_getRequest eq_refl H4) as (R1 & R2 & R3 & _).
  repeat split; assumption.
Defined.

(** A server that cannot be reached is tried [MaxAttempts] times; the
    error wraps the last transport error. *)
Lemma Do_retries_exhausted_witness :
  calls (trace (snd (Do unreachable testClient getRequest world0))) = 3%nat
  /\ fst (Do unreachable testClient getRequest world0)
     = (None, Some (wrapError "request failed after 3 attempts: "
                              (errorString "connection refused"))).
Proof.
  assert (H2 : 1 <= 3) by lia.
  destruct (Do_retries_exhausted unreachable testClient getRequest 3
              eq_refl H2 readable_getRequest
              (fun k _ => eq_refl) (fun k _ => eq_refl)) as (R1 & _ & _ & R3).
  destruct (R3 (errorString "connection refused") eq_refl) as [R4 _].
  split; [exact R1 | exact R4].
Defined.

(** C1 as stated fails on the test [TestClient_Retry_Exhausted]: the
    server answers 503 on each of the three attempts, and [Do] returns the
    last response with a nil error instead of an error that describes the
    exhaustion. *)
Lemma Do_exhausted_status_counterexample :
  MaxAttempts (retry testClient) = 3
  /\ (forall k, retryable (httpClient_Do unavailable k (sent getRequest)) = true)
  /\ calls (trace (snd (Do unavailable testClient getRequest world0))) = 3%nat
  /\ fst (Do unavailable testClient getRequest world0)
     = (Some {| StatusCode := 503; Body := "busy"; Headers := [] |}, None).
Proof.
  repeat split.
Qed.

(** C4 as stated fails on a response whose body cannot be read: the
    server answers 400, a status that is not retried, on every attempt, and
    the body breaks off each time. [Do] calls the target three times,
    without a wait in between, and returns no response but the error of the
    exhausted attempts. *)
Lemma Do_unreadable_body_counterexample :
  MaxAttempts (retry testClient) = 3
  /\ shouldRetry 400 = false
  /\ (forall k, httpClient_Do brokenBody k (sent getRequest)
                = Received 400 [] (ReadErr (errorString "unexpected EOF")))
  /\ calls (trace (snd (Do brokenBody testClient getRequest world0))) = 3%nat
  /\ delays (trace (snd (Do brokenBody testClient getRequest world0))) = []
  /\ fst (Do brokenBody testClient getRequest world0)
     = (None,
        Some (wrapError "request failed after 3 attempts: "
                (wrapError "failed to read response body: "
                           (errorString "unexpected EOF")))).
Proof.
  repeat split.
Qed.

(** The test [TestClient_Retry_ContextCancelled]: the deadline passes
    during the second wait. *)
Lemma Do_cancelled_during_backoff_witness :
  ctx_select deadlineInSecondWait 2 = CtxDone
  /\ fst (Do deadlineInSecondWait testClient getRequest world0)
     = (None, Some DeadlineExceeded)
  /\ calls (trace (snd (Do deadlineInSecondWait testClient getRequest world0))) = 2%nat.
Proof.
  assert (Hn : 1 <= 2 < MaxAttempts (retry testClient)) by (vm_compute; split; [discriminate | reflexivity]).
  assert (Hbefore : forall k, 1 <= k < 2 ->
            retryable (httpClient_Do deadlineInSecondWait k (sent getRequest)) = true
            /\ ctx_select deadlineInSecondWait k = TimerFired).
  { intros k Hk. assert (k = 1) by lia. subst k. split; reflexivity. }
  destruct (Do_cancelled_during_backoff deadlineInSecondWait testClient getRequest 2
              readable_getRequest Hn Hbefore eq_refl eq_refl) as (R1 & R2 & _).
  repeat split; assumption.
Defined.

End ClientProperties.

(** * Properties of the cycle runner *)
Section RunnerProperties.
Import Config Domain App.

Lemma executorCalls_app (a b : list event) :
  executorCalls (a ++ b) = executorCalls a ++ executorCalls b.
Proof. unfold executorCalls. apply filter_app. Qed.

Lemma pushed_app (a b : list event) : pushed (a ++ b) = pushed a ++ pushed b.
Proof. unfold pushed. apply flat_map_app. Qed.

Lemma notified_app (a b : list event) : notified (a ++ b) = notified a ++ notified b.
Proof. unfold notified. apply flat_map_app. Qed.

Lemma notified_map_EvNotify (l : list Notification) : notified (map EvNotify l) = l.
Proof.
  induction l as [| n l IH]; [reflexivity |].
  cbn. unfold notified in IH. rewrite IH. reflexivity.
Qed.

Lemma executorCalls_map_EvNotify (l : list Notification) :
  executorCalls (map EvNotify l) = [].
Proof. induction l as [| n l IH]; [reflexivity | exact IH]. Qed.

Lemma pushed_map_EvNotify (l : list Notification) : pushed (map EvNotify l) = [].
Proof. induction l as [| n l IH]; [reflexivity | exact IH]. Qed.

Ltac run_app :=
  cbv beta iota zeta delta
    [bind ret App.log emit time_Now
     RunResult.New RunResult.Complete BackupResult.New BackupResult.Complete
     NewMetrics];
  cbn [fst snd trace ticks].

(** [Run] is its two halves, one after the other, unless the first
    panics. *)
Lemma Run_split env r w :
  Run env r w = (let (operated, w1) := operate env r w in
                 match operated with
                 | Panics => (Panics, w1)
                 | Returns result => report env r result w1
                 end).
Proof.
  unfold Run, operate, report, bind, ret.
  destruct (RunResult.New (clock env) (DryRun (config r)) w) as [result w1].
  destruct (log Info "starting backup run" w1) as [u w2].
  destruct (match executor r with
            | Some ex => runOperations env r ex result
            | None => fun w => (Returns result, w)
            end w2) as [[result' |] w3]; [| reflexivity].
  destruct (RunResult.Complete (clock env) result' w3) as [result'' w4].
  reflexivity.
Qed.

Lemma answers_no_executor r : executor r = None -> answers r = true.
Proof. unfold answers. intros ->. reflexivity. Qed.

Lemma answers_dry_run r : DryRun (config r) = true -> answers r = true.
Proof. unfold answers. intros ->. destruct (executor r); reflexivity. Qed.

Lemma answers_live r ex :
  executor r = Some ex ->
  answered (CloudUpload ex forceUpload) = true ->
  answered (Backup ex force) = true ->
  answers r = true.
Proof. unfold answers. intros -> -> ->. apply orb_true_r. Qed.

Lemma pushMetrics_spec env r result w :
  match metricsPusher r with
  | None => pushMetrics env r result w = (None, w)
  | Some p =>
      exists m,
        pushMetrics env r result w
          = (Push p m, mkWorld (S (ticks w)) (trace w ++ [EvPush m]))
        /\ Results m = slot (RunResult.CloudUpload result)
                       ++ slot (RunResult.Backup result)
        /\ ServiceUp m = true
        /\ Hostname m = hostname r
  end.
Proof.
  unfold pushMetrics. destruct (metricsPusher r) as [p |]; [| reflexivity].
  run_app. eexists. split; [reflexivity |].
  destruct (RunResult.CloudUpload result), (RunResult.Backup result);
    cbn; repeat split; reflexivity.
Qed.

Lemma sendNotifications_spec env r result w :
  exists out,
    sendNotifications env r result w
      = (out, mkWorld (ticks w) (trace w ++ map EvNotify (sentFor env r result)))
    /\ (forall n nt, notifier r = Some n -> In nt (sentFor env r result) ->
                     out = Domain.Notify n nt)
    /\ (sentFor env r result = [] -> out = None).
Proof.
  unfold sentFor, sendNotifications.
  destruct (notifier r) as [n |].
  - destruct (negb (RunResult.Success result)
              && (String.eqb (Config.Notify (Apprise (config r))) NotifyError
                  || String.eqb (Config.Notify (Apprise (config r))) NotifyWarning
                  || String.eqb (Config.Notify (Apprise (config r))) NotifyAlways));
      [| destruct (String.eqb (Config.Notify (Apprise (config r))) NotifyAlways)];
      run_app; cbn; eexists; (split; [try reflexivity |]).
    + split; [| discriminate].
      intros n' nt Hn [<- | []]. injection Hn as <-. reflexivity.
    + split; [| discriminate].
      intros n' nt Hn [<- | []]. injection Hn as <-. reflexivity.
    + rewrite app_nil_r. destruct w; reflexivity.
    + split; [intros n' nt _ [] | reflexivity].
  - run_app. cbn. eexists. split.
    + rewrite app_nil_r. destruct w; reflexivity.
    + split; [intros n' nt _ [] | reflexivity].
Qed.

(** What the reporting half of [Run] does, whatever the result. *)
Lemma report_spec env r result w :
  exists perr w',
    report env r result w = (Returns (Some (RunResult.AddError result perr), None), w')
    /\ perr = fst (pushMetrics env r result w)
    /\ executorCalls (trace w') = executorCalls (trace w)
    /\ pushed (trace w') = pushed (trace (snd (pushMetrics env r result w)))
    /\ notified (trace w')
       = notified (trace w) ++ sentFor env r (RunResult.AddError result perr)
    /\ (forall n nt e,
          notifier r = Some n ->
          In nt (sentFor env r (RunResult.AddError result perr)) ->
          Domain.Notify n nt = Some e ->
          In (EvLog LError "failed to send notification") (trace w')).
Proof.
  unfold report, bind.
  pose proof (pushMetrics_spec env r result w) as Hp.
  destruct (pushMetrics env r result w) as [perr w1] eqn:Epush.
  exists perr.
  assert (Hw1 : executorCalls (trace w1) = executorCalls (trace w)
                /\ notified (trace w1) = notified (trace w)).
  { destruct (metricsPusher r) as [p |].
    - destruct Hp as (m & Hm & _). injection Hm as _ ->.
      cbn [trace]. rewrite executorCalls_app, notified_app. cbn. rewrite !app_nil_r.
      split; reflexivity.
    - injection Hp as _ ->. split; reflexivity. }
  destruct Hw1 as [Hcalls Hnot].
  assert (Hsent : forall res w2,
             executorCalls (trace w2) = executorCalls (trace w) ->
             pushed (trace w2) = pushed (trace w1) ->
             notified (trace w2) = notified (trace w) ->
             exists w',
               (let (a, w'0) := sendNotifications env r res w2 in
                let (_, w'1) :=
                  match a with
                  | Some _ => fun w => (tt, mkWorld (ticks w)
                       (trace w ++ [EvLog LError "failed to send notification"]))
                  | None => fun w => (tt, w)
                  end w'0 in
                (Returns (Some res, @None error),
                 mkWorld (ticks w'1)
                         (trace w'1 ++ [EvLog Info "backup run completed"])))
               = (Returns (Some res, None), w')
               /\ executorCalls (trace w') = executorCalls (trace w)
               /\ pushed (trace w') = pushed (trace w1)
               /\ notified (trace w') = notified (trace w) ++ sentFor env r res
               /\ (forall n nt e, notifier r = Some n ->
                      In nt (sentFor env r res) -> Domain.Notify n nt = Some e ->
                      In (EvLog LError "failed to send notification") (trace w'))).
  { intros res w2 H1 H2 H3.
    destruct (sendNotifications_spec env r res w2) as (out & Hsend & Hout & _).
    rewrite Hsend.
    destruct out as [e' |]; eexists; (split; [reflexivity |]); cbn [trace];
      rewrite ?executorCalls_app, ?pushed_app, ?notified_app,
              ?executorCalls_map_EvNotify, ?pushed_map_EvNotify,
              ?notified_map_EvNotify, H1, H2, H3;
      cbn; rewrite ?app_nil_r; repeat split.
    - intros _ _ _ _ _ _. rewrite !in_app_iff. left. right. left. reflexivity.
    - intros n nt e Hn Hin Hfail. rewrite <- (Hout n nt Hn Hin) in Hfail.
      discriminate. }
  destruct perr as [e |]; run_app; cbn [fst snd].
  - destruct (Hsent (RunResult.AddError result (Some e))
                (mkWorld (ticks w1)
                   (trace w1 ++ [EvLog LError "failed to push metrics"])))
      as (w' & Hrun & Hrest).
    + cbn [trace]. rewrite executorCalls_app, Hcalls. cbn. apply app_nil_r.
    + cbn [trace]. rewrite pushed_app. cbn. apply app_nil_r.
    + cbn [trace]. rewrite notified_app, Hnot. cbn. apply app_nil_r.
    + exists w'. split; [exact Hrun | split; [reflexivity | exact Hrest]].
  - destruct (Hsent result w1 Hcalls eq_refl Hnot) as (w' & Hrun & Hrest).
    exists w'. split; [exact Hrun | split; [reflexivity | exact Hrest]].
Qed.

Lemma AddError_fields result err :
  RunResult.Success (RunResult.AddError result err) = RunResult.Success result
  /\ RunResult.CloudUpload (RunResult.AddError result err) = RunResult.CloudUpload result
  /\ RunResult.Backup (RunResult.AddError result err) = RunResult.Backup result
  /\ RunResult.DryRun (RunResult.AddError result err) = RunResult.DryRun result.
Proof. destruct err; repeat split; reflexivity. Qed.

(** What the operating half of [Run] does when every call is answered:
    the slots, [Success] and [Errors] of the completed result, and the
    calls of the executor. *)
Lemma operate_spec env r w :
  answers r = true ->
  exists result w',
    operate env r w = (Returns result, w')
    /\ RunResult.Success result
       = negb (RunResult.failed (RunResult.CloudUpload result))
         && negb (RunResult.failed (RunResult.Backup result))
    /\ RunResult.DryRun result = DryRun (config r)
    /\ pushed (trace w') = pushed (trace w)
    /\ notified (trace w') = notified (trace w)
    /\ match executor r with
       | None =>
           RunResult.CloudUpload result = None
           /\ RunResult.Backup result = None
           /\ RunResult.Errors result = []
           /\ executorCalls (trace w') = executorCalls (trace w)
       | Some ex =>
           if DryRun (config r) then
             (exists cu b,
                 RunResult.CloudUpload result = Some cu
                 /\ RunResult.Backup result = Some b
                 /\ skipped OperationCloudUpload cu
                 /\ skipped OperationBackup b)
             /\ RunResult.Errors result = []
             /\ executorCalls (trace w') = executorCalls (trace w)
           else
             RunResult.CloudUpload result = stored (CloudUpload ex forceUpload)
             /\ RunResult.Backup result = stored (Backup ex force)
             /\ RunResult.Errors result
                = recorded "cloud upload error: " (CloudUpload ex forceUpload)
                  ++ recorded "backup error: " (Backup ex force)
             /\ executorCalls (trace w')
                = executorCalls (trace w) ++ [EvCloudUpload forceUpload; EvBackup force]
       end.
Proof.
  unfold answers, operate, runOperations, runCloudUpload, runBackup, forceUpload, force.
  intros Hans.
  destruct (executor r) as [ex |].
  - destruct (DryRun (config r)) eqn:Edry.
    + run_app. do 2 eexists. split; [reflexivity |].
      cbn. rewrite !executorCalls_app, !pushed_app, !notified_app. cbn.
      rewrite !app_nil_r. repeat split; try reflexivity.
      do 2 eexists. repeat split; reflexivity.
    + cbn [orb] in Hans.
      destruct (CloudUpload ex {| UploadForce := true |}) as [cu | e1 |];
        destruct (Backup ex {| BackupForce := true |}) as [b | e2 |];
        try discriminate Hans;
        try destruct (BackupResult.Success cu) eqn:Ecu;
        try destruct (BackupResult.Success b) eqn:Eb;
        run_app; do 2 eexists; (split; [reflexivity |]);
        cbn; rewrite ?Ecu, ?Eb;
        rewrite !executorCalls_app, !pushed_app, !notified_app; cbn;
        rewrite ?app_nil_r, <- ?app_assoc; repeat split; reflexivity.
  - run_app. do 2 eexists. split; [reflexivity |].
    cbn. rewrite !executorCalls_app, !pushed_app, !notified_app. cbn.
    rewrite !app_nil_r. repeat split; reflexivity.
Qed.

(** What the operating half of [Run] does when a call is not answered:
    it panics right after that call. Nothing is pushed and nobody is
    notified. *)
Lemma operate_panics env r w :
  answers r = false ->
  exists ex w',
    executor r = Some ex
    /\ DryRun (config r) = false
    /\ operate env r w = (Panics, w')
    /\ pushed (trace w') = pushed (trace w)
    /\ notified (trace w') = notified (trace w)
    /\ executorCalls (trace w')
       = executorCalls (trace w)
         ++ EvCloudUpload forceUpload
            :: (if answered (CloudUpload ex forceUpload) then [EvBackup force] else []).
Proof.
  unfold answers, operate, runOperations, runCloudUpload, runBackup, forceUpload, force.
  intros Hans.
  destruct (executor r) as [ex |]; [| discriminate Hans].
  destruct (DryRun (config r)) eqn:Edry; [discriminate Hans |].
  cbn [orb] in Hans. exists ex.
  destruct (CloudUpload ex {| UploadForce := true |}) as [cu | e1 |];
    destruct (Backup ex {| BackupForce := true |}) as [b | e2 |];
    try discriminate Hans;
    try destruct (BackupResult.Success cu) eqn:Ecu;
    run_app; eexists; (split; [reflexivity |]); (split; [reflexivity |]);
    (split; [reflexivity |]);
    cbn; rewrite !executorCalls_app, !pushed_app, !notified_app; cbn;
    rewrite ?app_nil_r, <- ?app_assoc; repeat split; reflexivity.
Qed.

(** [Run] as a whole, when every call of the executor is answered: the
    completed result of the operating half, the error of the push merged
    into it, the metrics pushed and the notifications sent. *)
Lemma Run_spec env r w :
  answers r = true ->
  exists res0 w1 perr w',
    operate env r w = (Returns res0, w1)
    /\ Run env r w = (Returns (Some (RunResult.AddError res0 perr), None), w')
    /\ executorCalls (trace w') = executorCalls (trace w1)
    /\ notified (trace w')
       = notified (trace w) ++ sentFor env r (RunResult.AddError res0 perr)
    /\ match metricsPusher r with
       | None => perr = None /\ pushed (trace w') = pushed (trace w)
       | Some p =>
           exists m,
             perr = Push p m
             /\ pushed (trace w') = pushed (trace w) ++ [m]
             /\ Results m = slot (RunResult.CloudUpload res0)
                            ++ slot (RunResult.Backup res0)
             /\ ServiceUp m = true
             /\ Hostname m = hostname r
       end
    /\ (forall n nt e,
          notifier r = Some n ->
          In nt (sentFor env r (RunResult.AddError res0 perr)) ->
          Domain.Notify n nt = Some e ->
          In (EvLog LError "failed to send notification") (trace w')).
Proof.
  intros Hans.
  destruct (operate_spec env r w Hans) as (res0 & w1 & Hop & _ & _ & Hpush & Hnot & _).
  destruct (report_spec env r res0 w1)
    as (perr & w' & Hrep & Hperr & Hcalls & Hpushed & Hnotified & Hlog).
  exists res0, w1, perr, w'.
  split; [exact Hop |].
  split; [rewrite Run_split, Hop; exact Hrep |].
  split; [exact Hcalls |].
  split; [rewrite Hnotified, Hnot; reflexivity |].
  split; [| exact Hlog].
  pose proof (pushMetrics_spec env r res0 w1) as Hp.
  destruct (metricsPusher r) as [p |].
  - destruct Hp as (m & Hm & Hres & Hup & Hhost).
    exists m. rewrite Hm in Hperr, Hpushed. cbn [fst snd trace] in Hperr, Hpushed.
    rewrite pushed_app, Hpush in Hpushed. cbn in Hpushed.
    repeat split; assumption.
  - rewrite Hp in Hperr, Hpushed. cbn [fst snd] in Hperr, Hpushed.
    split; [exact Hperr | rewrite Hpushed; exact Hpush].
Qed.

(** [Run] as a whole, when a call of the executor is not answered: it
    panics where its operating half does. *)
Lemma Run_panics env r w :
  answers r = false ->
  exists ex w',
    executor r = Some ex
    /\ DryRun (config r) = false
    /\ Run env r w = (Panics, w')
    /\ pushed (trace w') = pushed (trace w)
    /\ notified (trace w') = notified (trace w)
    /\ executorCalls (trace w')
       = executorCalls (trace w)
         ++ EvCloudUpload forceUpload
            :: (if answered (CloudUpload ex forceUpload) then [EvBackup force] else []).
Proof.
  intros Hans.
  destruct (operate_panics env r w Hans) as (ex & w' & Hex & Hdry & Hop & Hrest).
  exists ex, w'. rewrite Run_split, Hop. repeat split; first [assumption | apply Hrest].
Qed.

Lemma sentFor_spec env r result :
  sentFor env r result
  = match notifier r with
    | None => []
    | Some _ =>
        if negb (RunResult.Success result)
           && (String.eqb (notifyLevel r) NotifyError
               || String.eqb (notifyLevel r) NotifyWarning
               || String.eqb (notifyLevel r) NotifyAlways)
        then [ErrorNotification "Ludusavi Backup Failed" (buildErrorMessage r result)]
        else if String.eqb (notifyLevel r) NotifyAlways
             then [InfoNotification "Ludusavi Backup Completed"
                                    (buildSuccessMessage env r result)]
             else []
    end.
Proof.
  unfold sentFor, sendNotifications, notifyLevel.
  destruct (notifier r) as [n |]; [| reflexivity].
  destruct (negb (RunResult.Success result)
            && (String.eqb (Config.Notify (Apprise (config r))) NotifyError
                || String.eqb (Config.Notify (Apprise (config r))) NotifyWarning
                || String.eqb (Config.Notify (Apprise (config r))) NotifyAlways));
    [| destruct (String.eqb (Config.Notify (Apprise (config r))) NotifyAlways)];
    reflexivity.
Qed.

Lemma buildErrorMessage_hostname r r' result :
  hostname r' = hostname r -> buildErrorMessage r' result = buildErrorMessage r result.
Proof. intros H. unfold buildErrorMessage. rewrite H. reflexivity. Qed.

(** ** Dry run *)

(** C6. In every cycle run in dry-run mode with an executor configured,
    [Run] makes no call of the executor's [CloudUpload] or [Backup]; it
    returns a result with a nil error, whose [Success] is true and which
    holds two operation results, one of kind cloud_upload and one of kind
    backup, each successful, with zero statistics and no error text. *)
Theorem Run_dry_run env r ex w :
  executor r = Some ex ->
  DryRun (config r) = true ->
  exists result w',
    Run env r w = (Returns (Some result, None), w')
    /\ executorCalls (trace w') = executorCalls (trace w)
    /\ RunResult.Success result = true
    /\ RunResult.DryRun result = true
    /\ exists cu b,
         RunResult.CloudUpload result = Some cu
         /\ RunResult.Backup result = Some b
         /\ skipped OperationCloudUpload cu
         /\ skipped OperationBackup b.
Proof.
  intros Hex Hdry.
  pose proof (answers_dry_run r Hdry) as Hans.
  destruct (Run_spec env r w Hans) as (res0 & w1 & perr & w' & Hop & Hrun & Hcalls & _).
  destruct (operate_spec env r w Hans) as (res & w1' & Hop' & Hsucc & Hd & _ & _ & Hcase).
  rewrite Hop in Hop'. injection Hop' as <- <-.
  rewrite Hex, Hdry in Hcase. rewrite Hdry in Hd.
  destruct Hcase as ((cu & b & Hcu & Hb & Hscu & Hsb) & _ & Hcalls0).
  destruct (AddError_fields res0 perr) as (Fs & Fcu & Fb & Fd).
  exists (RunResult.AddError res0 perr), w'.
  split; [exact Hrun |].
  split; [rewrite Hcalls; exact Hcalls0 |].
  split.
  { rewrite Fs, Hsucc, Hcu, Hb. cbn.
    destruct Hscu as (_ & -> & _), Hsb as (_ & -> & _). reflexivity. }
  split; [rewrite Fd; exact Hd |].
  exists cu, b. rewrite Fcu, Fb. repeat split; first [assumption | apply Hscu | apply Hsb].
Qed.

Lemma Run_dry_run_witness :
  let r := testRunner NotifyError true (Some uploadErrorExecutor)
                      (Some mockPusher) (Some NopNotifier) in
  executor r = Some uploadErrorExecutor
  /\ DryRun (config r) = true
  /\ exists result w',
       Run testEnv r world0 = (Returns (Some result, None), w')
       /\ executorCalls (trace w') = executorCalls (trace world0)
       /\ RunResult.Success result = true
       /\ RunResult.DryRun result = true
       /\ exists cu b,
            RunResult.CloudUpload result = Some cu
            /\ RunResult.Backup result = Some b
            /\ skipped OperationCloudUpload cu
            /\ skipped OperationBackup b.
Proof.
  split; [reflexivity |]. split; [reflexivity |].
  apply (Run_dry_run testEnv _ uploadErrorExecutor world0); reflexivity.
Defined.

(** ** No executor *)

(** C10. When the runner has no executor, [Run] calls no operation: the
    returned result has neither a cloud-upload nor a backup result, its
    [Success] is true, and the returned error is nil. The metrics push and
    the notification step still run: a configured pusher receives exactly
    one set of metrics, with no operation result in it, and the notifier is
    handed what [sendNotifications] sends for the returned result, which
    under level always is one information notice. *)
Theorem Run_no_executor env r w :
  executor r = None ->
  exists result w',
    Run env r w = (Returns (Some result, None), w')
    /\ RunResult.CloudUpload result = None
    /\ RunResult.Backup result = None
    /\ RunResult.Success result = true
    /\ executorCalls (trace w') = executorCalls (trace w)
    /\ (forall p, metricsPusher r = Some p ->
          exists m, pushed (trace w') = pushed (trace w) ++ [m]
                    /\ Results m = [] /\ ServiceUp m = true)
    /\ notified (trace w') = notified (trace w) ++ sentFor env r result
    /\ (forall n, notifier r = Some n -> notifyLevel r = NotifyAlways ->
          sentFor env r result
          = [InfoNotification "Ludusavi Backup Completed"
                              (buildSuccessMessage env r result)]).
Proof.
  intros Hex.
  pose proof (answers_no_executor r Hex) as Hans.
  destruct (Run_spec env r w Hans)
    as (res0 & w1 & perr & w' & Hop & Hrun & Hcalls & Hnotified & Hpush & _).
  destruct (operate_spec env r w Hans) as (res & w1' & Hop' & Hsucc & _ & _ & _ & Hcase).
  rewrite Hop in Hop'. injection Hop' as <- <-.
  rewrite Hex in Hcase. destruct Hcase as (Hcu & Hb & _ & Hcalls0).
  destruct (AddError_fields res0 perr) as (Fs & Fcu & Fb & _).
  assert (Hs : RunResult.Success (RunResult.AddError res0 perr) = true).
  { rewrite Fs, Hsucc, Hcu, Hb. reflexivity. }
  exists (RunResult.AddError res0 perr), w'.
  split; [exact Hrun |].
  split; [rewrite Fcu; exact Hcu |].
  split; [rewrite Fb; exact Hb |].
  split; [exact Hs |].
  split; [rewrite Hcalls; exact Hcalls0 |].
  split.
  { intros p Hp. rewrite Hp in Hpush. destruct Hpush as (m & _ & Hm & Hres & Hup & _).
    exists m. rewrite Hcu, Hb in Hres. repeat split; assumption. }
  split; [exact Hnotified |].
  intros n Hn Hlevel. rewrite sentFor_spec, Hn, Hs, Hlevel. reflexivity.
Qed.

Lemma Run_no_executor_witness :
  let r := testRunner NotifyAlways false None (Some mockPusher) (Some NopNotifier) in
  executor r = None
  /\ exists result w',
       Run testEnv r world0 = (Returns (Some result, None), w')
       /\ RunResult.CloudUpload result = None
       /\ RunResult.Backup result = None
       /\ RunResult.Success result = true
       /\ executorCalls (trace w') = executorCalls (trace world0)
       /\ (forall p, metricsPusher r = Some p ->
             exists m, pushed (trace w') = pushed (trace world0) ++ [m]
                       /\ Results m = [] /\ ServiceUp m = true)
       /\ notified (trace w') = notified (trace world0) ++ sentFor testEnv r result
       /\ (forall n, notifier r = Some n -> notifyLevel r = NotifyAlways ->
             sentFor testEnv r result
             = [InfoNotification "Ludusavi Backup Completed"
                                 (buildSuccessMessage testEnv r result)]).
Proof.
  split; [reflexivity |].
  apply (Run_no_executor testEnv _ world0); reflexivity.
Defined.

(** ** What [Run] returns *)

(** C8, as the code has it. For every runner whose executor answers the
    calls of the cycle (there is no executor, or the run is a dry run, or
    [CloudUpload] and [Backup] each return a result or an error) and every
    starting state, [Run] returns a result and a nil error. The result is
    the completed result with the error of the metrics push merged in: when
    the push fails, its text is appended to [Errors]. The notification step
    runs after it whatever the push did: the notifier is handed what
    [sendNotifications] sends for the returned result. When the notifier
    fails, the failure is logged and the error returned by [Run] is still
    nil. *)
Theorem Run_returns_result env r w :
  answers r = true ->
  exists res0 perr result w',
    Run env r w = (Returns (Some result, None), w')
    /\ fst (operate env r w) = Returns res0
    /\ result = RunResult.AddError res0 perr
    /\ match metricsPusher r with
       | None => perr = None
       | Some p => exists m, pushed (trace w') = pushed (trace w) ++ [m]
                             /\ perr = Push p m
       end
    /\ (forall e, perr = Some e ->
          RunResult.Errors result = RunResult.Errors res0 ++ [error_Error e])
    /\ notified (trace w') = notified (trace w) ++ sentFor env r result
    /\ (forall n nt e,
          notifier r = Some n -> In nt (sentFor env r result) ->
          Domain.Notify n nt = Some e ->
          In (EvLog LError "failed to send notification") (trace w')).
Proof.
  intros Hans.
  destruct (Run_spec env r w Hans)
    as (res0 & w1 & perr & w' & Hop & Hrun & _ & Hnotified & Hpush & Hlog).
  exists res0, perr, (RunResult.AddError res0 perr), w'.
  split; [exact Hrun |].
  split; [rewrite Hop; reflexivity |].
  split; [reflexivity |].
  split.
  { destruct (metricsPusher r) as [p |].
    - destruct Hpush as (m & Hperr & Hm & _). exists m. split; assumption.
    - apply Hpush. }
  split; [intros e ->; reflexivity |].
  split; [exact Hnotified | exact Hlog].
Qed.

(** A cycle whose metrics push and whose notifier both fail still returns
    its result with a nil error. *)
Lemma Run_returns_result_witness :
  let r := testRunner NotifyAlways false (Some mockExecutor)
                      (Some failingPusher) (Some failingNotifier) in
  answers r = true
  /\ exists res0 perr result w',
       Run testEnv r world0 = (Returns (Some result, None), w')
       /\ fst (operate testEnv r world0) = Returns res0
       /\ result = RunResult.AddError res0 perr
       /\ match metricsPusher r with
          | None => perr = None
          | Some p => exists m, pushed (trace w') = pushed (trace world0) ++ [m]
                                /\ perr = Push p m
          end
       /\ (forall e, perr = Some e ->
             RunResult.Errors result = RunResult.Errors res0 ++ [error_Error e])
       /\ notified (trace w') = notified (trace world0) ++ sentFor testEnv r result
       /\ (forall n nt e,
             notifier r = Some n -> In nt (sentFor testEnv r result) ->
             Domain.Notify n nt = Some e ->
             In (EvLog LError "failed to send notification") (trace w')).
Proof.
  refine (conj eq_refl _).
  apply (Run_returns_result testEnv _ world0). reflexivity.
Defined.

(** C8 as stated fails on an executor that returns a nil result with a
    nil error, as a function of a [MockExecutor] can: [runCloudUpload]
    reads [result.Success] of the nil result, and [Run] panics. It returns
    nothing, [Backup] is not called, no metrics are pushed and nobody is
    notified. *)
Lemma Run_nil_result_counterexample :
  let r := testRunner NotifyAlways false (Some nilResultExecutor)
                      (Some mockPusher) (Some NopNotifier) in
  executor r = Some nilResultExecutor
  /\ DryRun (config r) = false
  /\ CloudUpload nilResultExecutor forceUpload = Neither
  /\ fst (Run testEnv r world0) = Panics
  /\ executorCalls (trace (snd (Run testEnv r world0))) = [EvCloudUpload forceUpload]
  /\ pushed (trace (snd (Run testEnv r world0))) = []
  /\ notified (trace (snd (Run testEnv r world0))) = [].
Proof. cbv zeta. repeat split. Qed.

(** ** Notification policy *)

(** C9. For every result handed to [sendNotifications] by a runner with a
    notifier: under level always exactly one notification is sent, the
    information notice when the result is a success and the error notice
    when it is a failure; under level error or warning the error notice is
    sent when the result is a failure and nothing is sent when it is a
    success. What is sent on a failure under error and under warning is the
    same notification. *)
Theorem sendNotifications_policy env r n result w :
  notifier r = Some n ->
  (notifyLevel r = NotifyAlways ->
     notified (trace (snd (sendNotifications env r result w)))
     = notified (trace w)
       ++ [if RunResult.Success result
           then InfoNotification "Ludusavi Backup Completed"
                                 (buildSuccessMessage env r result)
           else ErrorNotification "Ludusavi Backup Failed"
                                  (buildErrorMessage r result)])
  /\ (notifyLevel r = NotifyError \/ notifyLevel r = NotifyWarning ->
        notified (trace (snd (sendNotifications env r result w)))
        = notified (trace w)
          ++ (if RunResult.Success result
              then []
              else [ErrorNotification "Ludusavi Backup Failed"
                                      (buildErrorMessage r result)]))
  /\ (forall r' n' w',
        notifier r' = Some n' -> hostname r' = hostname r ->
        notifyLevel r = NotifyError -> notifyLevel r' = NotifyWarning ->
        notified (trace (snd (sendNotifications env r' result w')))
        = notified (trace w')
          ++ notified (trace (snd (sendNotifications env r result world0)))).
Proof.
  intros Hn.
  assert (Hsend : forall r0 w0,
             notified (trace (snd (sendNotifications env r0 result w0)))
             = notified (trace w0) ++ sentFor env r0 result).
  { intros r0 w0.
    destruct (sendNotifications_spec env r0 result w0) as (out & -> & _).
    cbn [snd trace]. rewrite notified_app, notified_map_EvNotify. reflexivity. }
  split; [| split].
  - intros Hlevel. rewrite Hsend, sentFor_spec, Hn, Hlevel.
    destruct (RunResult.Success result); reflexivity.
  - intros [Hlevel | Hlevel]; rewrite Hsend, sentFor_spec, Hn, Hlevel;
      destruct (RunResult.Success result); reflexivity.
  - intros r' n' w' Hn' Hhost Hlevel Hlevel'.
    rewrite Hsend. f_equal. fold (sentFor env r result).
    rewrite !sentFor_spec, Hn, Hn', Hlevel, Hlevel'.
    rewrite (buildErrorMessage_hostname r r' result Hhost).
    destruct (RunResult.Success result); reflexivity.
Qed.

Lemma sendNotifications_policy_witness :
  let always := testRunner NotifyAlways false None None (Some NopNotifier) in
  let warning := testRunner NotifyWarning false None None (Some NopNotifier) in
  notifier always = Some NopNotifier
  /\ notifyLevel always = NotifyAlways
  /\ notified (trace (snd (sendNotifications testEnv always (completed true) world0)))
     = [InfoNotification "Ludusavi Backup Completed"
          (buildSuccessMessage testEnv always (completed true))]
  /\ notified (trace (snd (sendNotifications testEnv always (completed false) world0)))
     = [ErrorNotification "Ludusavi Backup Failed"
          (buildErrorMessage always (completed false))]
  /\ notifier warning = Some NopNotifier
  /\ notifyLevel warning = NotifyWarning
  /\ notified (trace (snd (sendNotifications testEnv warning (completed true) world0)))
     = []
  /\ notified (trace (snd (sendNotifications testEnv warning (completed false) world0)))
     = [ErrorNotification "Ludusavi Backup Failed"
          (buildErrorMessage warning (completed false))].
Proof.
  cbv zeta.
  split; [reflexivity |]. split; [reflexivity |].
  split.
  { exact (proj1 (sendNotifications_policy testEnv
              (testRunner NotifyAlways false None None (Some NopNotifier)) NopNotifier (completed true)
                    world0 eq_refl) eq_refl). }
  split.
  { exact (proj1 (sendNotifications_policy testEnv
              (testRunner NotifyAlways false None None (Some NopNotifier)) NopNotifier (completed false)
                    world0 eq_refl) eq_refl). }
  split; [reflexivity |]. split; [reflexivity |].
  split.
  { exact (proj1 (proj2 (sendNotifications_policy testEnv
              (testRunner NotifyWarning false None None (Some NopNotifier)) NopNotifier
                           (completed true) world0 eq_refl)) (or_intror eq_refl)). }
  exact (proj1 (proj2 (sendNotifications_policy testEnv
              (testRunner NotifyWarning false None None (Some NopNotifier)) NopNotifier
                         (completed false) world0 eq_refl)) (or_intror eq_refl)).
Defined.

(** ** Failure of the metrics push *)

(** C7, as the code has it. In every cycle of a runner with a metrics
    pusher that gets as far as the push (the executor answers the calls of
    the cycle), the error the push returns is merged into the result after
    [Complete]: when the push fails, its text is appended to [Errors].
    [Success] is left as [Complete] set it: it is true exactly when no
    recorded operation failed. A failure of the push never makes [Success]
    false. *)
Theorem Run_push_failure_keeps_Success env r p w :
  metricsPusher r = Some p ->
  answers r = true ->
  exists res0 m result w',
    Run env r w = (Returns (Some result, None), w')
    /\ fst (operate env r w) = Returns res0
    /\ pushed (trace w') = pushed (trace w) ++ [m]
    /\ result = RunResult.AddError res0 (Push p m)
    /\ (forall e, Push p m = Some e ->
          RunResult.Errors result = RunResult.Errors res0 ++ [error_Error e])
    /\ RunResult.Success result = RunResult.Success res0
    /\ RunResult.Success result
       = negb (RunResult.failed (RunResult.CloudUpload result))
         && negb (RunResult.failed (RunResult.Backup result)).
Proof.
  intros Hp Hans.
  destruct (Run_spec env r w Hans)
    as (res0 & w1 & perr & w' & Hop & Hrun & _ & _ & Hpush & _).
  destruct (operate_spec env r w Hans) as (res & w1' & Hop' & Hsucc & _).
  rewrite Hop in Hop'. injection Hop' as <- <-.
  rewrite Hp in Hpush. destruct Hpush as (m & -> & Hm & _).
  destruct (AddError_fields res0 (Push p m)) as (Fs & Fcu & Fb & _).
  exists res0, m, (RunResult.AddError res0 (Push p m)), w'.
  split; [exact Hrun |].
  split; [rewrite Hop; reflexivity |].
  split; [exact Hm |].
  split; [reflexivity |].
  split; [intros e ->; reflexivity |].
  split; [exact Fs |].
  rewrite Fs, Fcu, Fb. exact Hsucc.
Qed.

Lemma Run_push_failure_keeps_Success_witness :
  let r := testRunner NotifyError false (Some mockExecutor)
                      (Some failingPusher) (Some NopNotifier) in
  metricsPusher r = Some failingPusher
  /\ answers r = true
  /\ exists res0 m result w',
       Run testEnv r world0 = (Returns (Some result, None), w')
       /\ fst (operate testEnv r world0) = Returns res0
       /\ pushed (trace w') = pushed (trace world0) ++ [m]
       /\ result = RunResult.AddError res0 (Push failingPusher m)
       /\ (forall e, Push failingPusher m = Some e ->
             RunResult.Errors result = RunResult.Errors res0 ++ [error_Error e])
       /\ RunResult.Success result = RunResult.Success res0
       /\ RunResult.Success result
          = negb (RunResult.failed (RunResult.CloudUpload result))
            && negb (RunResult.failed (RunResult.Backup result)).
Proof.
  split; [reflexivity |]. split; [reflexivity |].
  apply (Run_push_failure_keeps_Success testEnv _ failingPusher world0); reflexivity.
Defined.

(** C7, the cycle of the claim. Both operations succeed and the push
    fails: the failure is the one entry of [Errors], and [Success] is
    true. *)
Lemma Run_push_failure_counterexample :
  let r := testRunner NotifyError false (Some mockExecutor)
                      (Some failingPusher) (Some NopNotifier) in
  let result := returnedResult (fst (Run testEnv r world0)) in
  option_map RunResult.CloudUpload result = Some (Some (succeeded OperationCloudUpload))
  /\ option_map RunResult.Backup result = Some (Some (succeeded OperationBackup))
  /\ List.length (pushed (trace (snd (Run testEnv r world0)))) = 1%nat
  /\ option_map RunResult.Errors result = Some ["pushgateway down"]
  /\ option_map RunResult.Success result = Some true.
Proof. cbv zeta. repeat split; vm_compute; reflexivity. Qed.

(** ** Failure of the cloud upload *)

(** C2, where the code departs from it. In live mode, when the executor's
    [CloudUpload] returns an error and its [Backup] returns a successful
    result, [Run] still calls [Backup] after [CloudUpload], once each; but
    the returned result holds no cloud-upload result, its [Success] is
    true, and the failure is only the first entry of [Errors]. *)
Theorem Run_upload_error env r ex e b w :
  executor r = Some ex ->
  DryRun (config r) = false ->
  CloudUpload ex forceUpload = Failed e ->
  Backup ex force = Returned b ->
  BackupResult.Success b = true ->
  exists result w',
    Run env r w = (Returns (Some result, None), w')
    /\ executorCalls (trace w')
       = executorCalls (trace w) ++ [EvCloudUpload forceUpload; EvBackup force]
    /\ RunResult.CloudUpload result = None
    /\ RunResult.Backup result = Some b
    /\ RunResult.Success result = true
    /\ exists rest,
         RunResult.Errors result
         = ("cloud upload error: " ++ error_Error e)%string :: rest.
Proof.
  intros Hex Hdry Hcu Hb Hsb.
  assert (Hans : answers r = true)
    by (apply (answers_live r ex Hex); [rewrite Hcu | rewrite Hb]; reflexivity).
  destruct (Run_spec env r w Hans) as (res0 & w1 & perr & w' & Hop & Hrun & Hcalls & _).
  destruct (operate_spec env r w Hans) as (res & w1' & Hop' & Hsucc & _ & _ & _ & Hcase).
  rewrite Hop in Hop'. injection Hop' as <- <-.
  rewrite Hex, Hdry, Hcu, Hb in Hcase. cbn [stored recorded app] in Hcase.
  destruct Hcase as (Hrcu & Hrb & Herr & Hcalls0).
  destruct (AddError_fields res0 perr) as (Fs & Fcu & Fb & _).
  exists (RunResult.AddError res0 perr), w'.
  split; [exact Hrun |].
  split; [rewrite Hcalls; exact Hcalls0 |].
  split; [rewrite Fcu; exact Hrcu |].
  split; [rewrite Fb; exact Hrb |].
  split; [rewrite Fs, Hsucc, Hrcu, Hrb; cbn; rewrite Hsb; reflexivity |].
  destruct perr as [pe |]; cbn [RunResult.AddError RunResult.Errors];
    rewrite Herr; eexists; reflexivity.
Qed.

Lemma Run_upload_error_witness :
  let r := testRunner NotifyError false (Some uploadErrorExecutor)
                      (Some mockPusher) (Some NopNotifier) in
  executor r = Some uploadErrorExecutor
  /\ DryRun (config r) = false
  /\ CloudUpload uploadErrorExecutor forceUpload = Failed (errorString "upload unreachable")
  /\ Backup uploadErrorExecutor force = Returned (succeeded OperationBackup)
  /\ BackupResult.Success (succeeded OperationBackup) = true
  /\ exists result w',
       Run testEnv r world0 = (Returns (Some result, None), w')
       /\ executorCalls (trace w')
          = executorCalls (trace world0) ++ [EvCloudUpload forceUpload; EvBackup force]
       /\ RunResult.CloudUpload result = None
       /\ RunResult.Backup result = Some (succeeded OperationBackup)
       /\ RunResult.Success result = true
       /\ exists rest,
            RunResult.Errors result
            = ("cloud upload error: "
               ++ error_Error (errorString "upload unreachable"))%string :: rest.
Proof.
  do 5 (split; [reflexivity |]).
  apply (Run_upload_error testEnv _ uploadErrorExecutor
           (errorString "upload unreachable") (succeeded OperationBackup) world0);
    reflexivity.
Defined.

(** The cycle of C2 on the other way a cloud upload fails: the executor
    returns a result that is not a success, with a nil error. [Run] calls
    both operations, records both results and [Success] is false. *)
Theorem Run_upload_unsuccessful env r ex cu b w :
  executor r = Some ex ->
  DryRun (config r) = false ->
  CloudUpload ex forceUpload = Returned cu ->
  BackupResult.Success cu = false ->
  Backup ex force = Returned b ->
  exists result w',
    Run env r w = (Returns (Some result, None), w')
    /\ executorCalls (trace w')
       = executorCalls (trace w) ++ [EvCloudUpload forceUpload; EvBackup force]
    /\ RunResult.CloudUpload result = Some cu
    /\ RunResult.Backup result = Some b
    /\ RunResult.Success result = false.
Proof.
  intros Hex Hdry Hcu Hscu Hb.
  assert (Hans : answers r = true)
    by (apply (answers_live r ex Hex); [rewrite Hcu | rewrite Hb]; reflexivity).
  destruct (Run_spec env r w Hans) as (res0 & w1 & perr & w' & Hop & Hrun & Hcalls & _).
  destruct (operate_spec env r w Hans) as (res & w1' & Hop' & Hsucc & _ & _ & _ & Hcase).
  rewrite Hop in Hop'. injection Hop' as <- <-.
  rewrite Hex, Hdry, Hcu, Hb in Hcase. cbn [stored recorded app] in Hcase.
  destruct Hcase as (Hrcu & Hrb & _ & Hcalls0).
  destruct (AddError_fields res0 perr) as (Fs & Fcu & Fb & _).
  exists (RunResult.AddError res0 perr), w'.
  split; [exact Hrun |].
  split; [rewrite Hcalls; exact Hcalls0 |].
  split; [rewrite Fcu; exact Hrcu |].
  split; [rewrite Fb; exact Hrb |].
  rewrite Fs, Hsucc, Hrcu. cbn. rewrite Hscu. reflexivity.
Qed.

Lemma Run_upload_unsuccessful_witness :
  let r := testRunner NotifyError false (Some uploadUnsuccessfulExecutor)
                      (Some mockPusher) (Some NopNotifier) in
  executor r = Some uploadUnsuccessfulExecutor
  /\ DryRun (config r) = false
  /\ exists cu,
       CloudUpload uploadUnsuccessfulExecutor forceUpload = Returned cu
       /\ BackupResult.Success cu = false
       /\ Backup uploadUnsuccessfulExecutor force = Returned (succeeded OperationBackup)
       /\ exists result w',
            Run testEnv r world0 = (Returns (Some result, None), w')
            /\ executorCalls (trace w')
               = executorCalls (trace world0)
                 ++ [EvCloudUpload forceUpload; EvBackup force]
            /\ RunResult.CloudUpload result = Some cu
            /\ RunResult.Backup result = Some (succeeded OperationBackup)
            /\ RunResult.Success result = false.
Proof.
  do 2 (split; [reflexivity |]).
  eexists. do 3 (split; [reflexivity |]).
  apply (Run_upload_unsuccessful testEnv _ uploadUnsuccessfulExecutor _
           (succeeded OperationBackup) world0); reflexivity.
Defined.

End RunnerProperties.

(** * Properties of the backoff delay *)
Section BackoffProperties.
Import HTTP.

(** ** binary64 on integers below 2^53 *)

Lemma digits2_pos_iter_xO p (j : positive) :
  digits2_pos (Pos.iter xO p j) = (digits2_pos p + j)%positive.
Proof.
  revert p. induction j using Pos.peano_ind; intros p.
  - cbn. lia.
  - rewrite Pos.iter_succ. cbn. rewrite IHj. lia.
Qed.

Lemma digits2_pos_bounds p :
  2 ^ (Zpos (digits2_pos p) - 1) <= Zpos p < 2 ^ Zpos (digits2_pos p).
Proof.
  induction p as [p IH | p IH |]; cbn [digits2_pos].
  - rewrite Pos2Z.inj_succ. replace (Z.succ (Zpos (digits2_pos p)) - 1) with (Z.succ (Zpos (digits2_pos p) - 1)) by lia.
    rewrite !Z.pow_succ_r by lia. lia.
  - rewrite Pos2Z.inj_succ. replace (Z.succ (Zpos (digits2_pos p)) - 1) with (Z.succ (Zpos (digits2_pos p) - 1)) by lia.
    rewrite !Z.pow_succ_r by lia. lia.
  - cbn. lia.
Qed.

Lemma Pos_iter_xO_spec p (j : positive) :
  Zpos (Pos.iter xO p j) = Zpos p * 2 ^ Zpos j.
Proof.
  revert p. induction j using Pos.peano_ind; intros p.
  - cbn. lia.
  - rewrite Pos.iter_succ, Pos2Z.inj_succ, Z.pow_succ_r by lia.
    rewrite Pos2Z.inj_xO, IHj. lia.
Qed.

(** Aligning a mantissa to a lower exponent keeps the value and adds the
    digits shifted in. *)
Lemma shl_align_spec m ex ex' :
  ex' <= ex ->
  exists m',
    shl_align m ex ex' = (m', ex')
    /\ Zpos m' = Zpos m * 2 ^ (ex - ex')
    /\ Zpos (digits2_pos m') = Zpos (digits2_pos m) + (ex - ex').
Proof.
  intros Hle. unfold shl_align.
  destruct (ex' - ex) as [| d | d] eqn:Ed; try lia.
  - assert (ex' = ex) by lia. subst ex'. exists m.
    rewrite Z.sub_diag. cbn. repeat split; lia.
  - exists (Pos.iter xO m d).
    replace (ex - ex') with (Zpos d) by lia.
    rewrite Pos_iter_xO_spec, digits2_pos_iter_xO. repeat split; lia.
Qed.

(** A mantissa of 53 digits is left as it is by the rounding. *)
Lemma binary_round_aux_canonical m e :
  Zpos (digits2_pos m) = 53 ->
  - 1074 <= e ->
  binary_round_aux prec emax false (Zpos m) e loc_Exact
  = if e <=? 971 then S754_finite false m e else S754_infinity false.
Proof.
  intros Hd He.
  unfold binary_round_aux, shr_fexp, fexp, emin, Zdigits2, prec, emax.
  rewrite Hd.
  replace (Z.max (53 + e - 53) (3 - 1024 - 53) - e) with 0 by lia.
  cbn [shr shr_record_of_loc shr_m loc_of_shr_record round_nearest_even Zdigits2].
  rewrite Hd.
  replace (Z.max (53 + e - 53) (3 - 1024 - 53) - e) with 0 by lia.
  cbn [shr shr_record_of_loc shr_m].
  reflexivity.
Qed.

Lemma digits2_pos_le_53 p : Zpos p < 2 ^ 53 -> Zpos (digits2_pos p) <= 53.
Proof.
  intros Hp. pose proof (digits2_pos_bounds p) as [Hlo _].
  destruct (Z_le_gt_dec (Zpos (digits2_pos p)) 53) as [H | H]; [exact H | exfalso].
  assert (2 ^ 53 <= 2 ^ (Zpos (digits2_pos p) - 1)) by (apply Z.pow_le_mono_r; lia).
  lia.
Qed.

(** [float64(x)] of a positive integer below 2^53 is exact: the mantissa
    is the integer, shifted to 53 digits. *)
Lemma float64_of_int_pos p :
  Zpos p < 2 ^ 53 ->
  exists m,
    float64_of_int (Zpos p) = S754_finite false m (Zpos (digits2_pos p) - 53)
    /\ Zpos (digits2_pos m) = 53
    /\ Zpos m = Zpos p * 2 ^ (53 - Zpos (digits2_pos p)).
Proof.
  intros Hp. pose proof (digits2_pos_le_53 p Hp) as Hd.
  unfold float64_of_int, binary_normalize, binary_round, fexp, emin, prec, emax.
  replace (Z.max (Zpos (digits2_pos p) + 0 - 53) (3 - 1024 - 53))
    with (Zpos (digits2_pos p) - 53) by lia.
  destruct (shl_align_spec p 0 (Zpos (digits2_pos p) - 53)) as (m & -> & Hm & Hdm);
    [lia |].
  exists m.
  assert (Hd53 : Zpos (digits2_pos m) = 53) by lia.
  split; [| split; [exact Hd53 |]].
  - pose proof (binary_round_aux_canonical m (Zpos (digits2_pos p) - 53) Hd53) as H.
    unfold prec, emax in H. rewrite H by lia.
    destruct (Z.leb_spec (Zpos (digits2_pos p) - 53) 971); [reflexivity | lia].
  - rewrite Hm. f_equal. f_equal. lia.
Qed.

(** [math.Pow(2, k)] for a natural [k]. *)
Lemma math_Pow2_nonneg k :
  0 <= k ->
  math_Pow2 k = if k <=? 1023
                then S754_finite false 4503599627370496 (k - 52)
                else S754_infinity false.
Proof.
  intros Hk.
  unfold math_Pow2, binary_round, fexp, emin, prec, emax. cbn [digits2_pos].
  replace (Z.max (1 + k - 53) (3 - 1024 - 53)) with (k - 52) by lia.
  unfold shl_align. replace (k - 52 - k) with (-52) by lia.
  cbn [Pos.iter].
  pose proof (binary_round_aux_canonical 4503599627370496 (k - 52) eq_refl) as H.
  unfold prec, emax in H. rewrite H by lia.
  destruct (Z.leb_spec (k - 52) 971), (Z.leb_spec k 1023); first [reflexivity | lia].
Qed.

(** Shifting a record right over 52 zero bits is exact. *)
Lemma shr_52 m :
  iter_pos shr_1 52 (Build_shr_record (Zpos (4503599627370496 * m)) false false)
  = Build_shr_record (Zpos m) false false.
Proof. reflexivity. Qed.

Lemma shr_fexp_canonical m e :
  Zpos (digits2_pos m) = 53 ->
  - 1074 <= e ->
  shr_fexp prec emax (Zpos m) e loc_Exact = (Build_shr_record (Zpos m) false false, e).
Proof.
  intros Hd He. unfold shr_fexp, fexp, emin, Zdigits2, prec, emax. rewrite Hd.
  replace (Z.max (53 + e - 53) (3 - 1024 - 53) - e) with 0 by lia.
  reflexivity.
Qed.

Lemma shr_fexp_52 m e :
  Zpos (digits2_pos m) = 53 ->
  - 1074 <= e + 52 ->
  shr_fexp prec emax (Zpos (4503599627370496 * m)) e loc_Exact
  = (Build_shr_record (Zpos m) false false, e + 52).
Proof.
  intros Hd He.
  assert (Hd' : Zpos (digits2_pos (4503599627370496 * m)) = 105).
  { cbn [Pos.mul digits2_pos]. rewrite !Pos2Z.inj_succ. lia. }
  unfold shr_fexp, fexp, emin, Zdigits2, prec, emax. rewrite Hd'.
  replace (Z.max (105 + e - 53) (3 - 1024 - 53) - e) with 52 by lia.
  reflexivity.
Qed.

(** The product of a 53-digit mantissa with a power of two is exact, or
    overflows to [+Inf]. *)
Lemma float64_mul_Pow2 m e k :
  Zpos (digits2_pos m) = 53 ->
  - 52 <= e <= 0 ->
  0 <= k <= 1023 ->
  float64_mul (S754_finite false m e) (S754_finite false 4503599627370496 (k - 52))
  = if e + k <=? 971 then S754_finite false m (e + k) else S754_infinity false.
Proof.
  intros Hd He Hk.
  unfold float64_mul, SFmul. cbn [xorb].
  rewrite Pos.mul_comm.
  unfold binary_round_aux.
  rewrite (shr_fexp_52 m (e + (k - 52)) Hd) by lia.
  cbn [shr_m loc_of_shr_record round_nearest_even].
  rewrite (shr_fexp_canonical m (e + (k - 52) + 52) Hd) by lia.
  cbn [shr_m].
  replace (e + (k - 52) + 52) with (e + k) by lia.
  reflexivity.
Qed.

(** On mantissas of 53 digits the order of the floats is the order of
    their values. *)
Lemma SFltb_canonical m2 e2 m1 e1 c :
  Zpos (digits2_pos m1) = 53 ->
  Zpos (digits2_pos m2) = 53 ->
  0 <= e1 + c -> 0 <= e2 + c ->
  SFltb (S754_finite false m2 e2) (S754_finite false m1 e1)
  = (Zpos m2 * 2 ^ (e2 + c) <? Zpos m1 * 2 ^ (e1 + c)).
Proof.
  intros Hd1 Hd2 H1 H2.
  pose proof (digits2_pos_bounds m1) as B1. rewrite Hd1 in B1.
  pose proof (digits2_pos_bounds m2) as B2. rewrite Hd2 in B2.
  change (2 ^ (53 - 1)) with 4503599627370496 in B1, B2.
  change (2 ^ 53) with 9007199254740992 in B1, B2.
  unfold SFltb, SFcompare.
  destruct (Z.compare_spec e2 e1) as [He | He | He].
  - subst e2. fold (Pos.compare m2 m1).
    assert (0 < 2 ^ (e1 + c)) by (apply Z.pow_pos_nonneg; lia).
    destruct (Pos.compare_spec m2 m1) as [Hm | Hm | Hm];
      symmetry; [apply Z.ltb_ge | apply Z.ltb_lt | apply Z.ltb_ge]; nia.
  - symmetry. apply Z.ltb_lt.
    replace (e1 + c) with (Z.succ (e1 - e2 - 1) + (e2 + c)) by lia.
    rewrite (Z.pow_add_r 2 (Z.succ (e1 - e2 - 1)) (e2 + c)), Z.pow_succ_r by lia.
    assert (HX : 0 < 2 ^ (e2 + c)) by (apply Z.pow_pos_nonneg; lia).
    assert (HY : 0 < 2 ^ (e1 - e2 - 1)) by (apply Z.pow_pos_nonneg; lia).
    assert (Hlt : Zpos m2 < Zpos m1 * (2 * 2 ^ (e1 - e2 - 1))) by nia.
    rewrite Z.mul_assoc. apply Z.mul_lt_mono_pos_r; assumption.
  - symmetry. apply Z.ltb_ge.
    replace (e2 + c) with (Z.succ (e2 - e1 - 1) + (e1 + c)) by lia.
    rewrite (Z.pow_add_r 2 (Z.succ (e2 - e1 - 1)) (e1 + c)), Z.pow_succ_r by lia.
    assert (HX : 0 < 2 ^ (e1 + c)) by (apply Z.pow_pos_nonneg; lia).
    assert (HY : 0 < 2 ^ (e2 - e1 - 1)) by (apply Z.pow_pos_nonneg; lia).
    assert (Hlt : Zpos m1 <= Zpos m2 * (2 * 2 ^ (e2 - e1 - 1))) by nia.
    rewrite Z.mul_assoc. apply Z.mul_le_mono_nonneg_r; [lia | assumption].
Qed.

Lemma int64_of_float64_exact m e v :
  0 <= v <= MaxInt64 ->
  (e < 0 -> Zpos m = v * 2 ^ (- e)) ->
  (0 <= e -> v = Zpos m * 2 ^ e) ->
  int64_of_float64 (S754_finite false m e) = Some v.
Proof.
  intros Hv Hneg Hpos. unfold int64_of_float64.
  assert (Hmag : match e with
                 | Zneg p => Zpos m / 2 ^ Zpos p
                 | _ => Zpos m * 2 ^ e
                 end = v).
  { destruct e as [| p | p].
    - symmetry. apply Hpos. lia.
    - symmetry. apply Hpos. lia.
    - rewrite Hneg by lia. cbn [Z.opp]. apply Z.div_mul.
      apply Z.pow_nonzero; lia. }
  rewrite Hmag.
  destruct (Z.leb_spec MinInt64 v), (Z.leb_spec v MaxInt64);
    first [reflexivity | unfold MinInt64 in *; lia].
Qed.

(** The value of a mantissa aligned to 53 digits, scaled by 2^53 so that
    every exponent is a natural number. *)
Lemma scaled_value m x e0 k :
  Zpos m = x * 2 ^ (- e0) ->
  - 53 <= e0 <= 0 -> 0 <= k ->
  Zpos m * 2 ^ (e0 + k + 53) = x * 2 ^ k * 2 ^ 53.
Proof.
  intros Hm He Hk. rewrite Hm.
  rewrite <- !Z.mul_assoc, <- !Z.pow_add_r by lia.
  f_equal. f_equal. lia.
Qed.

Lemma float64_of_int_0 : float64_of_int 0 = S754_zero false.
Proof. reflexivity. Qed.

(** The float64 computation of [calculateDelay], step by step, for delays
    that binary64 holds exactly. *)
Lemma calculateDelay_min retry n :
  0 <= InitialDelay retry < 2 ^ 53 ->
  0 <= MaxDelay retry < 2 ^ 53 ->
  1 <= n ->
  (InitialDelay retry = 0 -> n <= 1024) ->
  calculateDelay retry n
  = Some (Z.min (MaxDelay retry) (InitialDelay retry * 2 ^ (n - 1))).
Proof.
  destruct retry as [N I M]. cbn [InitialDelay MaxDelay].
  intros HI HM Hn Hzero. unfold calculateDelay. cbn [InitialDelay MaxDelay].
  assert (Hk : 0 <= n - 1) by lia.
  assert (Hpow : 0 < 2 ^ (n - 1)) by (apply Z.pow_pos_nonneg; lia).
  destruct I as [| p | p]; [| | lia].
  - (* InitialDelay = 0 *)
    rewrite float64_of_int_0, math_Pow2_nonneg by lia.
    destruct (Z.leb_spec (n - 1) 1023) as [_ | Hbig]; [| specialize (Hzero eq_refl); lia].
    cbn [float64_mul SFmul xorb].
    rewrite Z.mul_0_l, Z.min_r by lia.
    destruct M as [| q | q]; [reflexivity | | lia].
    destruct (float64_of_int_pos q (proj2 HM)) as (mM & -> & _). reflexivity.
  - (* InitialDelay > 0 *)
    destruct (float64_of_int_pos p (proj2 HI)) as (mI & -> & HdI & HmI).
    pose proof (digits2_pos_le_53 p (proj2 HI)) as HdIle.
    pose proof (digits2_pos_bounds p) as [HdIlo _].
    set (eI := Zpos (digits2_pos p) - 53) in *.
    assert (HeI : - 52 <= eI <= 0) by (unfold eI; lia).
    assert (HmI' : Zpos mI = Zpos p * 2 ^ (- eI)).
    { rewrite HmI. f_equal. f_equal. unfold eI. lia. }
    assert (Hover : forall fM, (fM = S754_zero false \/ exists m e, fM = S754_finite false m e) ->
                float64_gt (S754_infinity false) fM = true).
    { intros fM [-> | (m & e & ->)]; reflexivity. }
    assert (HfM : float64_of_int M = S754_zero false
                  \/ exists m e, float64_of_int M = S754_finite false m e).
    { destruct M as [| q | q]; [left; reflexivity | | lia].
      destruct (float64_of_int_pos q (proj2 HM)) as (mM & -> & _). right. eauto. }
    assert (Hbig : 2 ^ 53 <= 2 ^ (n - 1) -> Z.min M (Zpos p * 2 ^ (n - 1)) = M).
    { intros H. apply Z.min_l. nia. }
    rewrite math_Pow2_nonneg by lia.
    destruct (Z.leb_spec (n - 1) 1023) as [Hsmall | Hlarge].
    + rewrite float64_mul_Pow2 by (try assumption; lia).
      destruct (Z.leb_spec (eI + (n - 1)) 971) as [Hfin | Hinf].
      * (* a finite product *)
        destruct M as [| q | q]; [| | lia].
        { rewrite float64_of_int_0. cbn [float64_gt SFltb SFcompare].
          f_equal. symmetry. apply Z.min_l. lia. }
        destruct (float64_of_int_pos q (proj2 HM)) as (mM & -> & HdM & HmM).
        pose proof (digits2_pos_le_53 q (proj2 HM)) as HdMle.
        pose proof (digits2_pos_bounds q) as [HdMlo _].
        set (eM := Zpos (digits2_pos q) - 53) in *.
        assert (HmM' : Zpos mM = Zpos q * 2 ^ (- eM)).
        { rewrite HmM. f_equal. f_equal. unfold eM. lia. }
        unfold float64_gt.
        rewrite (SFltb_canonical mM eM mI (eI + (n - 1)) 53 HdI HdM) by (unfold eM; lia).
        pose proof (scaled_value mM (Zpos q) eM 0 HmM') as HvM.
        pose proof (scaled_value mI (Zpos p) eI (n - 1) HmI') as HvI.
        rewrite Z.add_0_r, Z.pow_0_r, Z.mul_1_r in HvM.
        rewrite HvM, HvI by (unfold eM; lia).
        assert (H53 : 0 < 2 ^ 53) by (apply Z.pow_pos_nonneg; lia).
        destruct (Z.ltb_spec (Zpos q * 2 ^ 53) (Zpos p * 2 ^ (n - 1) * 2 ^ 53)) as [Hlt | Hge].
        { f_equal. symmetry. apply Z.min_l. nia. }
        assert (Hle : Zpos p * 2 ^ (n - 1) <= Zpos q) by nia.
        rewrite Z.min_r by exact Hle.
        apply int64_of_float64_exact.
        -- unfold MaxInt64. change (2 ^ 53) with 9007199254740992 in HM.
           change (2 ^ 63 - 1) with 9223372036854775807. lia.
        -- intros Hneg. rewrite HmI'. rewrite <- Z.mul_assoc, <- Z.pow_add_r by lia.
           f_equal. f_equal. lia.
        -- intros Hpos. rewrite HmI'. rewrite <- Z.mul_assoc, <- Z.pow_add_r by lia.
           f_equal. f_equal. lia.
      * (* the product overflows *)
        rewrite (Hover _ HfM). f_equal. symmetry. apply Hbig.
        apply Z.pow_le_mono_r; lia.
    + (* the power overflows *)
      cbn [float64_mul SFmul xorb].
      rewrite (Hover _ HfM). f_equal. symmetry. apply Hbig.
      apply Z.pow_le_mono_r; lia.
Qed.

(** C3, as the code has it. For a retry policy whose [InitialDelay] and
    [MaxDelay] are at least 0 and below 2^53 ns, and every attempt
    [n >= 1] ([n <= 1024] when [InitialDelay] is 0), the delay after
    attempt [n] is [min(MaxDelay, InitialDelay * 2^(n-1))]. In particular,
    with [InitialDelay] = 1s and [MaxDelay] = 10s the delays after attempts
    1 to 5 are 1s, 2s, 4s, 8s and 10s. The delay is computed in float64:
    outside that range it is not always the minimum. *)
Theorem calculateDelay_capped_backoff retry n :
  0 <= InitialDelay retry < 2 ^ 53 ->
  0 <= MaxDelay retry < 2 ^ 53 ->
  1 <= n ->
  (InitialDelay retry = 0 -> n <= 1024) ->
  calculateDelay retry n
  = Some (Z.min (MaxDelay retry) (InitialDelay retry * 2 ^ (n - 1)))
  /\ (InitialDelay retry = 1 * Second ->
      MaxDelay retry = 10 * Second ->
      map (calculateDelay retry) [1; 2; 3; 4; 5]
      = [Some (1 * Second); Some (2 * Second); Some (4 * Second); Some (8 * Second);
         Some (10 * Second)]).
Proof.
  intros HI HM Hn Hzero.
  split; [apply calculateDelay_min; assumption |].
  intros H1 H10. cbn [map].
  assert (Hnz : InitialDelay retry = 0 -> False)
    by (rewrite H1; unfold Second, Millisecond; lia).
  rewrite !calculateDelay_min by (try assumption; try lia; intros H0; contradiction (Hnz H0)).
  rewrite H1, H10. reflexivity.
Qed.

(** The delays of the claim's example, and the cap reached at the fifth
    attempt. *)
Lemma calculateDelay_capped_backoff_witness :
  let retry := {| MaxAttempts := 5; InitialDelay := 1 * Second; MaxDelay := 10 * Second |} in
  calculateDelay retry 5 = Some (10 * Second)
  /\ map (calculateDelay retry) [1; 2; 3; 4; 5]
     = [Some (1 * Second); Some (2 * Second); Some (4 * Second); Some (8 * Second);
        Some (10 * Second)].
Proof.
  cbv zeta.
  assert (HI : 0 <= 1 * Second < 2 ^ 53) by (unfold Second, Millisecond; lia).
  assert (HM : 0 <= 10 * Second < 2 ^ 53) by (unfold Second, Millisecond; lia).
  assert (Hn : 1 <= 5) by lia.
  assert (Hz : 1 * Second = 0 -> 5 <= 1024) by (intros _; lia).
  destruct (calculateDelay_capped_backoff
              {| MaxAttempts := 5; InitialDelay := 1 * Second; MaxDelay := 10 * Second |}
              5 HI HM Hn Hz) as [Hd Htable].
  split; [exact Hd | exact (Htable eq_refl eq_refl)].
Defined.

(** [calculateDelay] is the capped exponential backoff wherever binary64
    holds the two configured delays exactly: for delays from 0 up to, not
    including, 2^53 ns and every attempt [n >= 1], it gives
    [min(MaxDelay, InitialDelay * 2^(n-1))]. With a zero [InitialDelay]
    this holds up to attempt 1024; beyond, the product is [0 * +Inf]. *)
Theorem calculateDelay_exact retry n :
  0 <= InitialDelay retry < 2 ^ 53 ->
  0 <= MaxDelay retry < 2 ^ 53 ->
  1 <= n ->
  (InitialDelay retry = 0 -> n <= 1024) ->
  calculateDelay retry n
  = Some (Z.min (MaxDelay retry) (InitialDelay retry * 2 ^ (n - 1))).
Proof. exact (calculateDelay_min retry n). Qed.

Lemma calculateDelay_exact_witness :
  let retry := {| MaxAttempts := 5; InitialDelay := 1 * Second; MaxDelay := 10 * Second |} in
  calculateDelay retry 1 = Some (1 * Second)
  /\ calculateDelay retry 2 = Some (2 * Second)
  /\ calculateDelay retry 3 = Some (4 * Second)
  /\ calculateDelay retry 4 = Some (8 * Second)
  /\ calculateDelay retry 5 = Some (10 * Second).
Proof.
  cbv zeta.
  refine (conj _ (conj _ (conj _ (conj _ _))));
    refine (calculateDelay_exact
              {| MaxAttempts := 5; InitialDelay := 1 * Second; MaxDelay := 10 * Second |}
              _ _ _ _ _);
    cbn [InitialDelay MaxDelay]; unfold Second, Millisecond; lia.
Defined.

(** Under a configuration that [Validate] accepts
    ([0 <= InitialDelay <= MaxDelay]) with delays below 2^53 ns and a
    positive [InitialDelay], every backoff delay lies between
    [InitialDelay] and [MaxDelay], and the delay after a later attempt is
    never shorter than the delay after an earlier one. *)
Theorem calculateDelay_bounded_monotone retry n n' :
  0 < InitialDelay retry ->
  InitialDelay retry <= MaxDelay retry ->
  MaxDelay retry < 2 ^ 53 ->
  1 <= n <= n' ->
  exists d d',
    calculateDelay retry n = Some d
    /\ calculateDelay retry n' = Some d'
    /\ InitialDelay retry <= d
    /\ d <= d'
    /\ d' <= MaxDelay retry.
Proof.
  intros HI HIM HM Hn.
  exists (Z.min (MaxDelay retry) (InitialDelay retry * 2 ^ (n - 1))),
         (Z.min (MaxDelay retry) (InitialDelay retry * 2 ^ (n' - 1))).
  assert (Hmono : 2 ^ (n - 1) <= 2 ^ (n' - 1)) by (apply Z.pow_le_mono_r; lia).
  assert (Hone : 1 <= 2 ^ (n - 1)).
  { change 1 with (2 ^ 0). apply Z.pow_le_mono_r; lia. }
  split; [apply calculateDelay_min; lia |].
  split; [apply calculateDelay_min; lia |].
  split; [apply Z.min_glb; nia |].
  split; [apply Z.min_le_compat_l; nia | apply Z.le_min_l].
Qed.

Lemma calculateDelay_bounded_monotone_witness :
  exists d d',
    calculateDelay DefaultRetryConfig 1 = Some d
    /\ calculateDelay DefaultRetryConfig 2 = Some d'
    /\ InitialDelay DefaultRetryConfig <= d
    /\ d <= d'
    /\ d' <= MaxDelay DefaultRetryConfig.
Proof.
  apply (calculateDelay_bounded_monotone DefaultRetryConfig 1 2);
    cbn [InitialDelay MaxDelay DefaultRetryConfig]; unfold Second, Millisecond; lia.
Defined.

(** With a zero [InitialDelay], from attempt 1025 on the power of two is
    [+Inf] and the product [0 * +Inf] is NaN: it compares greater than
    nothing, so the cap is not applied, and the delay is the conversion of
    NaN to an integer, which the language leaves to the implementation. *)
Theorem calculateDelay_zero_initial_NaN retry n :
  InitialDelay retry = 0 ->
  1025 <= n ->
  calculateDelay retry n = None.
Proof.
  intros HI Hn. unfold calculateDelay. rewrite HI, float64_of_int_0.
  rewrite math_Pow2_nonneg by lia.
  destruct (Z.leb_spec (n - 1) 1023) as [Hle | _]; [lia |].
  cbn [float64_mul SFmul].
  unfold float64_gt, SFltb, SFcompare.
  destruct (float64_of_int (MaxDelay retry)); reflexivity.
Qed.

Lemma calculateDelay_zero_initial_NaN_witness :
  calculateDelay {| MaxAttempts := 2000; InitialDelay := 0; MaxDelay := 30 * Second |} 1025
  = None.
Proof.
  apply calculateDelay_zero_initial_NaN; [reflexivity | lia].
Defined.

(** C3 as stated fails beyond 2^53 ns, where binary64 rounds: with both
    delays at 2^53 + 1 ns the delay after the first attempt is 2^53 ns,
    one nanosecond short of [min(MaxDelay, InitialDelay * 2^0)]. *)
Lemma calculateDelay_rounds_beyond_2_53 :
  let retry := {| MaxAttempts := 3;
                  InitialDelay := 2 ^ 53 + 1;
                  MaxDelay := 2 ^ 53 + 1 |} in
  calculateDelay retry 1 = Some (2 ^ 53)
  /\ Z.min (MaxDelay retry) (InitialDelay retry * 2 ^ (1 - 1)) = 2 ^ 53 + 1.
Proof. cbv zeta. split; vm_compute; reflexivity. Qed.

End BackoffProperties.

(** * More properties of the retry client *)
Section RetryLoopProperties.
Import HTTP.

(** One pass through the loop body, run on the trace. *)
Ltac run_eff :=
  cbn [andb];
  cbv beta iota zeta delta [bind ret log emit doRoundTrip select];
  cbn [fst snd trace ticks].

Lemma roundTrips_app a b : roundTrips (a ++ b) = roundTrips a ++ roundTrips b.
Proof. unfold roundTrips. apply flat_map_app. Qed.

Lemma attemptNumbers_S from n :
  attemptNumbers from (S n) = from :: attemptNumbers (from + 1) n.
Proof.
  unfold attemptNumbers. cbn [seq map]. rewrite Z.add_0_r. f_equal.
  rewrite <- seq_shift, map_map. apply map_ext. intros i. lia.
Qed.

Lemma calls_cons (e : event) tr :
  calls (e :: tr) = match e with EvRoundTrip _ _ => S (calls tr) | _ => calls tr end.
Proof. destruct e; reflexivity. Qed.

Lemma delays_cons (e : event) tr :
  delays (e :: tr) = match e with EvSelect _ d => d :: delays tr | _ => delays tr end.
Proof. destruct e; reflexivity. Qed.

Lemma roundTrips_cons (e : event) tr :
  roundTrips (e :: tr)
  = match e with EvRoundTrip a b => (a, b) :: roundTrips tr | _ => roundTrips tr end.
Proof. destruct e; reflexivity. Qed.

Lemma backoffs_cons env c body k ks :
  backoffs env c body (k :: ks)
  = (if waits (httpClient_Do env k body) then [calculateDelay (retry c) k] else [])
    ++ backoffs env c body ks.
Proof. reflexivity. Qed.

(** What the events of a pass through the loop body count for. *)
Ltac count_events :=
  rewrite ?calls_cons, ?delays_cons, ?roundTrips_cons;
  cbn [calls delays roundTrips filter flat_map List.length app].

(** The loop of [Do], whatever the target and the context do. *)
Lemma attempts_invariant env c body :
  forall n attempt lastErr w,
    (n <> 0%nat -> Z.of_nat n = MaxAttempts (retry c) - attempt + 1) ->
    exists tr,
      trace (snd (attempts env c body n attempt lastErr w)) = trace w ++ tr
      /\ (calls tr <= n)%nat
      /\ (n <> 0%nat -> 1 <= calls tr)%nat
      /\ (List.length (delays tr) <= calls tr)%nat
      /\ (List.length (delays tr) <= pred n)%nat
      /\ roundTrips tr = map (fun k => (k, body)) (attemptNumbers attempt (calls tr))
      /\ oneOf (fst (attempts env c body n attempt lastErr w))
      /\ ((forall k, ctx_select env k = TimerFired) ->
          delays tr = backoffs env c body (attemptNumbers attempt (pred (calls tr)))).
Proof.
  induction n as [| n IH]; intros attempt lastErr w Hn.
  - exists []. cbn. rewrite app_nil_r. repeat split; try reflexivity; lia.
  - specialize (Hn ltac:(discriminate)).
    assert (Hn' : n <> 0%nat -> Z.of_nat n = MaxAttempts (retry c) - (attempt + 1) + 1)
      by lia.
    assert (Hlt : (attempt <? MaxAttempts (retry c)) = true -> n <> 0%nat).
    { intros H. apply Z.ltb_lt in H. lia. }
    cbn [attempts]. run_eff.
    destruct (httpClient_Do env attempt body) as [e | status header [b | e]] eqn:Ert;
      run_eff;
      try destruct (shouldRetry status) eqn:Eretry;
      try destruct (attempt <? MaxAttempts (retry c)) eqn:Elt;
      try specialize (Hlt eq_refl);
      run_eff;
      try destruct (ctx_select env attempt) eqn:Esel;
      run_eff;
      lazymatch goal with
      | |- context [attempts env c body n (attempt + 1) ?l ?w'] =>
          destruct (IH (attempt + 1) l w' Hn')
            as (tr & Htr & Hc & Hpos & Hd & Hd' & Hrt & Hone & Hsched);
          eexists;
          split; [rewrite Htr; cbn [trace]; rewrite <- !app_assoc; cbn [app];
                  reflexivity |];
          count_events;
          split; [lia |]; split; [lia |]; split; [lia |]; split; [lia |];
          split; [rewrite attemptNumbers_S; cbn [map]; f_equal; exact Hrt |];
          split; [exact Hone |];
          intros Hsel; specialize (Hsched Hsel); cbn [pred];
          destruct (calls tr) as [| m] eqn:Ecalls;
          [ try (specialize (Hpos Hlt); lia);
            cbn [attemptNumbers seq map backoffs flat_map] in *; exact Hsched
          | try (exfalso; apply Z.ltb_ge in Elt; lia);
            rewrite attemptNumbers_S, backoffs_cons, Ert; cbn [waits pred] in *;
            rewrite ?Eretry; cbn [app]; rewrite Hsched; reflexivity ]
      | |- _ =>
          eexists;
          split; [cbn [trace]; rewrite <- ?app_assoc; cbn [app]; reflexivity |];
          count_events; rewrite ?attemptNumbers_S;
          cbn [attemptNumbers seq map pred backoffs flat_map];
          repeat split; try lia; try reflexivity;
          intros Hsel; rewrite Hsel in Esel; discriminate
      end.
Qed.

Lemma Do_invariant env c req w :
  exists tr,
    trace (snd (Do env c req w)) = trace w ++ tr
    /\ Z.of_nat (calls tr) <= Z.max 0 (MaxAttempts (retry c))
    /\ (List.length (delays tr) <= calls tr)%nat
    /\ Z.of_nat (List.length (delays tr)) <= Z.max 0 (MaxAttempts (retry c) - 1)
    /\ roundTrips tr = map (fun k => (k, sent req)) (attemptNumbers 1 (calls tr))
    /\ oneOf (fst (Do env c req w))
    /\ ((forall k, ctx_select env k = TimerFired) ->
        delays tr = backoffs env c (sent req) (attemptNumbers 1 (pred (calls tr)))).
Proof.
  assert (Hloop : forall body,
             exists tr,
               trace (snd (attempts env c body (Z.to_nat (MaxAttempts (retry c))) 1 None w))
               = trace w ++ tr
               /\ Z.of_nat (calls tr) <= Z.max 0 (MaxAttempts (retry c))
               /\ (List.length (delays tr) <= calls tr)%nat
               /\ Z.of_nat (List.length (delays tr)) <= Z.max 0 (MaxAttempts (retry c) - 1)
               /\ roundTrips tr = map (fun k => (k, body)) (attemptNumbers 1 (calls tr))
               /\ oneOf (fst (attempts env c body (Z.to_nat (MaxAttempts (retry c)))
                                       1 None w))
               /\ ((forall k, ctx_select env k = TimerFired) ->
                   delays tr = backoffs env c body (attemptNumbers 1 (pred (calls tr))))).
  { intros body.
    destruct (attempts_invariant env c body (Z.to_nat (MaxAttempts (retry c))) 1 None w)
      as (tr & Htr & Hc & _ & Hd & Hd' & Hrt & Hone & Hsched); [lia |].
    exists tr. repeat split; try assumption; lia. }
  unfold Do, sent.
  destruct (ReqBody req) as [[b | e] |]; [apply Hloop | | apply Hloop].
  exists []. cbn. rewrite app_nil_r. repeat split; try reflexivity; lia.
Qed.

(** [Do] never calls the target more often than [MaxAttempts] allows; it
    waits at most once per call, and fewer times than [MaxAttempts]: never
    after the last attempt allowed. *)
Theorem Do_calls_bounded env c req w :
  exists tr,
    trace (snd (Do env c req w)) = trace w ++ tr
    /\ Z.of_nat (calls tr) <= Z.max 0 (MaxAttempts (retry c))
    /\ (List.length (delays tr) <= calls tr)%nat
    /\ Z.of_nat (List.length (delays tr)) <= Z.max 0 (MaxAttempts (retry c) - 1).
Proof.
  destruct (Do_invariant env c req w) as (tr & Htr & Hc & Hd & Hd' & _).
  exists tr. repeat split; assumption.
Qed.

(** [Do] returns a response with a nil error, or no response with an
    error: never both, never neither. *)
Theorem Do_response_xor_error env c req w :
  (exists resp, fst (Do env c req w) = (Some resp, None))
  \/ (exists err, fst (Do env c req w) = (None, Some err)).
Proof.
  destruct (Do_invariant env c req w) as (_ & _ & _ & _ & _ & _ & Hone & _).
  destruct (fst (Do env c req w)) as [[resp |] [err |]]; cbn in Hone;
    try contradiction; [left | right]; eexists; reflexivity.
Qed.

(** Every attempt of [Do] sends the bytes of the request body again, and
    the attempts are numbered 1, 2, ... without a gap. *)
Theorem Do_resends_body env c req w :
  exists tr,
    trace (snd (Do env c req w)) = trace w ++ tr
    /\ roundTrips tr = map (fun k => (k, sent req)) (attemptNumbers 1 (calls tr)).
Proof.
  destruct (Do_invariant env c req w) as (tr & Htr & _ & _ & _ & Hrt & _).
  exists tr. split; assumption.
Qed.

(** When no wait is cut short, [Do] waits exactly after each attempt but
    the last one made that ended in a transport error or a retryable
    status, for the delay [calculateDelay] gives for that attempt; after a
    response whose body could not be read it goes on at once. *)
Theorem Do_backoff_schedule env c req w :
  (forall k, ctx_select env k = TimerFired) ->
  exists tr,
    trace (snd (Do env c req w)) = trace w ++ tr
    /\ delays tr = backoffs env c (sent req) (attemptNumbers 1 (pred (calls tr))).
Proof.
  intros Hsel.
  destruct (Do_invariant env c req w) as (tr & Htr & _ & _ & _ & _ & _ & Hsched).
  exists tr. split; [exact Htr | exact (Hsched Hsel)].
Qed.

Lemma Do_backoff_schedule_witness :
  (forall k, ctx_select unavailable k = TimerFired)
  /\ exists tr,
       trace (snd (Do unavailable testClient getRequest world0)) = trace world0 ++ tr
       /\ delays tr
          = backoffs unavailable testClient (sent getRequest)
                     (attemptNumbers 1 (pred (calls tr))).
Proof.
  split; [reflexivity |].
  apply (Do_backoff_schedule unavailable testClient getRequest world0). reflexivity.
Defined.

(** With [MaxAttempts] zero or negative the loop body never runs: [Do]
    does not call the target and returns the exhaustion error, which wraps
    a nil error. *)
Theorem Do_no_attempts env c req w :
  MaxAttempts (retry c) <= 0 ->
  readable req ->
  Do env c req w = ((None, Some (wrapNil (exhaustedMsg c))), w).
Proof.
  intros Hmax Hr. rewrite (Do_readable env c req Hr).
  replace (Z.to_nat (MaxAttempts (retry c))) with 0%nat by lia.
  reflexivity.
Qed.

Lemma Do_no_attempts_witness :
  let c := WithRetryConfig {| MaxAttempts := 0; InitialDelay := Second; MaxDelay := Second |}
                           NewClient in
  MaxAttempts (retry c) <= 0
  /\ Do unavailable c getRequest world0
     = ((None, Some (wrapNil "request failed after 0 attempts: ")), world0).
Proof.
  split; [cbn; lia |].
  exact (Do_no_attempts unavailable
           (WithRetryConfig {| MaxAttempts := 0; InitialDelay := Second;
                               MaxDelay := Second |} NewClient)
           getRequest world0 ltac:(cbn; lia) readable_getRequest).
Defined.

Lemma attempts_until env c body j status header b :
  httpClient_Do env j body = Received status header (ReadOk b) ->
  shouldRetry status = false ->
  j <= MaxAttempts (retry c) ->
  forall m n attempt lastErr w,
    Z.of_nat m = j - attempt ->
    Z.of_nat n = MaxAttempts (retry c) - attempt + 1 ->
    (forall k, attempt <= k < j -> retryable (httpClient_Do env k body) = true) ->
    (forall k, attempt <= k < j -> ctx_select env k = TimerFired) ->
    fst (attempts env c body n attempt lastErr w)
      = (Some {| StatusCode := status; Body := b; Headers := header |}, None)
    /\ calls (trace (snd (attempts env c body n attempt lastErr w)))
       = (calls (trace w) + S m)%nat
    /\ delays (trace (snd (attempts env c body n attempt lastErr w)))
       = delays (trace w) ++ backoffs env c body (attemptNumbers attempt m).
Proof.
  intros Hj Hs Hmax.
  induction m as [| m IH]; intros n attempt lastErr w Hm Hn Hret Hsel.
  - assert (attempt = j) by lia. subst attempt.
    destruct n as [| n]; [lia |].
    cbn [attempts]. run_eff. rewrite Hj. run_eff. rewrite Hs. cbn [andb]. run_eff.
    rewrite !calls_app, !delays_app. cbn. rewrite !app_nil_r.
    repeat split; try reflexivity; lia.
  - destruct n as [| n]; [lia |].
    assert (Hlt : (attempt <? MaxAttempts (retry c)) = true) by (apply Z.ltb_lt; lia).
    pose proof (Hret attempt ltac:(lia)) as Hr.
    pose proof (Hsel attempt ltac:(lia)) as Hsl.
    assert (Hm' : Z.of_nat m = j - (attempt + 1)) by lia.
    assert (Hn' : Z.of_nat n = MaxAttempts (retry c) - (attempt + 1) + 1) by lia.
    assert (Hret' : forall k, attempt + 1 <= k < j ->
                              retryable (httpClient_Do env k body) = true)
      by (intros; apply Hret; lia).
    assert (Hsel' : forall k, attempt + 1 <= k < j -> ctx_select env k = TimerFired)
      by (intros; apply Hsel; lia).
    rewrite attemptNumbers_S, backoffs_cons.
    cbn [attempts]. run_eff.
    destruct (httpClient_Do env attempt body) as [e | st hd [b' | e]];
      cbn [retryable waits] in Hr |- *; run_eff; rewrite ?Hr, ?Hlt, ?Hsl; run_eff;
      lazymatch goal with
      | |- context [attempts env c body n (attempt + 1) ?l ?w'] =>
          destruct (IH n (attempt + 1) l w' Hm' Hn' Hret' Hsel') as (IH1 & IH2 & IH3);
          rewrite IH1, IH2, IH3; cbn [trace];
          rewrite !calls_app, !delays_app; cbn;
          rewrite ?app_nil_r, <- ?app_assoc; cbn [app];
          repeat split; try reflexivity; lia
      end.
Qed.

(** Retrying until a final answer. When the attempts before the [j]-th
    end in a retryable outcome and no wait is cut short, and the [j]-th
    attempt ([j <= MaxAttempts]) gets a response with a status that is not
    retried, [Do] returns that response with a nil error after exactly [j]
    calls, having waited out the backoff delays of the attempts before. *)
Theorem Do_retries_until_final env c req j status header body :
  readable req ->
  1 <= j <= MaxAttempts (retry c) ->
  (forall k, 1 <= k < j -> retryable (httpClient_Do env k (sent req)) = true) ->
  (forall k, 1 <= k < j -> ctx_select env k = TimerFired) ->
  httpClient_Do env j (sent req) = Received status header (ReadOk body) ->
  shouldRetry status = false ->
  fst (Do env c req world0)
    = (Some {| StatusCode := status; Body := body; Headers := header |}, None)
  /\ calls (trace (snd (Do env c req world0))) = Z.to_nat j
  /\ delays (trace (snd (Do env c req world0)))
     = backoffs env c (sent req) (attemptNumbers 1 (Z.to_nat (j - 1))).
Proof.
  intros Hr Hj Hret Hsel Hrt Hs.
  rewrite (Do_readable env c req Hr).
  destruct (attempts_until env c (sent req) j status header body Hrt Hs (proj2 Hj)
              (Z.to_nat (j - 1)) (Z.to_nat (MaxAttempts (retry c))) 1 None world0)
    as (H1 & H2 & H3); try lia; try assumption.
  rewrite H1, H2, H3. cbn [trace world0 calls delays filter flat_map List.length app].
  repeat split; try reflexivity. lia.
Qed.

Lemma Do_retries_until_final_witness :
  1 <= 3 <= MaxAttempts (retry testClient)
  /\ httpClient_Do recovering 3 (sent getRequest) = Received 200 [] (ReadOk "success")
  /\ fst (Do recovering testClient getRequest world0)
     = (Some {| StatusCode := 200; Body := "success"; Headers := [] |}, None)
  /\ calls (trace (snd (Do recovering testClient getRequest world0))) = 3%nat
  /\ delays (trace (snd (Do recovering testClient getRequest world0)))
     = [Some (10 * Millisecond); Some (20 * Millisecond)].
Proof.
  split; [cbn; lia |]. split; [reflexivity |].
  assert (Hbefore : forall k, 1 <= k < 3 ->
            retryable (httpClient_Do recovering k (sent getRequest)) = true).
  { intros k Hk. cbn. destruct (Z.ltb_spec k 3); [reflexivity | lia]. }
  exact (Do_retries_until_final recovering testClient getRequest 3 200 [] "success"
           readable_getRequest ltac:(cbn; lia) Hbefore (fun _ _ => eq_refl)
           eq_refl eq_refl).
Defined.

(** [CheckConnectivity] makes one request and never retries or waits,
    whatever the answer. It returns a nil error exactly when the target
    answered with a status from 200 to 299, whether or not the body of the
    answer could be read. *)
Theorem CheckConnectivity_reachable url_Parse env c url w :
  url_Parse url = None ->
  (fst (CheckConnectivity url_Parse env c url w) = None
   <-> exists status header body,
         httpClient_Do env 1 None = Received status header body
         /\ 200 <= status < 300)
  /\ calls (trace (snd (CheckConnectivity url_Parse env c url w)))
     = S (calls (trace w))
  /\ delays (trace (snd (CheckConnectivity url_Parse env c url w)))
     = delays (trace w).
Proof.
  intros Hurl. unfold CheckConnectivity. rewrite Hurl. run_eff.
  destruct (httpClient_Do env 1 None) as [e | status header body]; run_eff.
  - rewrite calls_app, delays_app. cbn. rewrite app_nil_r.
    repeat split; try lia; try discriminate.
    intros (st & h & b & H & _). discriminate H.
  - destruct (Z.leb_spec 200 status), (Z.ltb_spec status 300); run_eff;
      rewrite calls_app, delays_app; cbn; rewrite app_nil_r;
      (split; [split | split; [lia | reflexivity]]);
      try discriminate;
      try (intros _; reflexivity);
      try (intros _; do 3 eexists; split; [reflexivity | lia]);
      intros (st & h & b & Hrt & Hst); injection Hrt as <- _ _; lia.
Qed.

Lemma CheckConnectivity_reachable_witness :
  fst (CheckConnectivity (fun _ => None) unavailable testClient "http://localhost/" world0)
  <> None
  /\ calls (trace (snd (CheckConnectivity (fun _ => None) unavailable testClient
                                          "http://localhost/" world0))) = 1%nat.
Proof.
  destruct (CheckConnectivity_reachable (fun _ => None) unavailable testClient
              "http://localhost/" world0 eq_refl) as (Hiff & Hcalls & _).
  split; [| exact Hcalls].
  intros Hnil. apply Hiff in Hnil. destruct Hnil as (st & h & b & H & Hst).
  injection H as <- _ _. lia.
Defined.

End RetryLoopProperties.

(** * More properties of the runner *)
Section CycleProperties.
Import Config Domain App.

(** In live mode [Run] calls [CloudUpload] and then [Backup], once each
    and each with [Force] set, whether the first returns a result,
    successful or not, or an error. Each slot of the result holds what the
    call returned with a nil error; [Success] is true exactly when no
    stored result is a failure; [Errors] holds the error of each call that
    returned one, cloud upload first, then the error of the metrics push
    when the runner has a pusher and the push failed, and nothing else. A
    call that returns neither a result nor an error makes [Run] panic
    right after it: after such a [CloudUpload], [Backup] is not called. *)
Theorem Run_live_operations env r ex w :
  executor r = Some ex ->
  DryRun (config r) = false ->
  (answered (CloudUpload ex forceUpload) = true ->
   answered (Backup ex force) = true ->
   exists result w',
     Run env r w = (Returns (Some result, None), w')
     /\ executorCalls (trace w')
        = executorCalls (trace w) ++ [EvCloudUpload forceUpload; EvBackup force]
     /\ RunResult.CloudUpload result = stored (CloudUpload ex forceUpload)
     /\ RunResult.Backup result = stored (Backup ex force)
     /\ RunResult.Success result
        = negb (RunResult.failed (stored (CloudUpload ex forceUpload)))
          && negb (RunResult.failed (stored (Backup ex force)))
     /\ match metricsPusher r with
        | None =>
            RunResult.Errors result
            = recorded "cloud upload error: " (CloudUpload ex forceUpload)
              ++ recorded "backup error: " (Backup ex force)
        | Some p =>
            exists m,
              pushed (trace w') = pushed (trace w) ++ [m]
              /\ RunResult.Errors result
                 = recorded "cloud upload error: " (CloudUpload ex forceUpload)
                   ++ recorded "backup error: " (Backup ex force)
                   ++ pushError (Push p m)
        end)
  /\ (CloudUpload ex forceUpload = Neither ->
      exists w',
        Run env r w = (Panics, w')
        /\ executorCalls (trace w')
           = executorCalls (trace w) ++ [EvCloudUpload forceUpload])
  /\ (answered (CloudUpload ex forceUpload) = true ->
      Backup ex force = Neither ->
      exists w',
        Run env r w = (Panics, w')
        /\ executorCalls (trace w')
           = executorCalls (trace w) ++ [EvCloudUpload forceUpload; EvBackup force]).
Proof.
  intros Hex Hdry.
  split; [| split].
  - intros Hacu Hab.
    pose proof (answers_live r ex Hex Hacu Hab) as Hans.
    destruct (Run_spec env r w Hans)
      as (res0 & w1 & perr & w' & Hop & Hrun & Hcalls & _ & Hpush & _).
    destruct (operate_spec env r w Hans) as (res & w1' & Hop' & Hsucc & _ & _ & _ & Hcase).
    rewrite Hop in Hop'. injection Hop' as <- <-.
    rewrite Hex, Hdry in Hcase. destruct Hcase as (Hcu & Hb & Herr & Hcalls0).
    destruct (AddError_fields res0 perr) as (Fs & Fcu & Fb & _).
    exists (RunResult.AddError res0 perr), w'.
    split; [exact Hrun |].
    split; [rewrite Hcalls; exact Hcalls0 |].
    split; [rewrite Fcu; exact Hcu |].
    split; [rewrite Fb; exact Hb |].
    split; [rewrite Fs, Hsucc, Hcu, Hb; reflexivity |].
    destruct (metricsPusher r) as [p |].
    + destruct Hpush as (m & -> & Hm & _). exists m. split; [exact Hm |].
      destruct (Push p m) as [e |]; cbn [RunResult.AddError RunResult.Errors pushError];
        rewrite Herr, <- ?app_assoc, ?app_nil_r; reflexivity.
    + destruct Hpush as [-> _]. cbn [RunResult.AddError]. exact Herr.
  - intros Hcu.
    assert (Hans : answers r = false) by (unfold answers; rewrite Hex, Hdry, Hcu; reflexivity).
    destruct (Run_panics env r w Hans) as (ex' & w' & Hex' & _ & Hrun & _ & _ & Hcalls).
    rewrite Hex in Hex'. injection Hex' as <-. rewrite Hcu in Hcalls.
    exists w'. split; [exact Hrun | exact Hcalls].
  - intros Hacu Hb.
    assert (Hans : answers r = false)
      by (unfold answers; rewrite Hex, Hdry, Hb; cbn; apply andb_false_r).
    destruct (Run_panics env r w Hans) as (ex' & w' & Hex' & _ & Hrun & _ & _ & Hcalls).
    rewrite Hex in Hex'. injection Hex' as <-. rewrite Hacu in Hcalls.
    exists w'. split; [exact Hrun | exact Hcalls].
Qed.

(** A cycle whose cloud upload returns an error and whose metrics push
    fails: both operations are called, and [Errors] holds the two errors
    in that order. *)
Lemma Run_live_operations_witness :
  let r := testRunner NotifyError false (Some uploadErrorExecutor)
                      (Some failingPusher) (Some NopNotifier) in
  executor r = Some uploadErrorExecutor
  /\ DryRun (config r) = false
  /\ exists result w',
       Run testEnv r world0 = (Returns (Some result, None), w')
       /\ executorCalls (trace w') = [EvCloudUpload forceUpload; EvBackup force]
       /\ RunResult.CloudUpload result = None
       /\ RunResult.Backup result = Some (succeeded OperationBackup)
       /\ RunResult.Success result = true
       /\ RunResult.Errors result
          = ["cloud upload error: upload unreachable"; "pushgateway down"].
Proof.
  refine (conj eq_refl (conj eq_refl _)).
  destruct (proj1 (Run_live_operations testEnv
                     (testRunner NotifyError false (Some uploadErrorExecutor)
                                 (Some failingPusher) (Some NopNotifier))
                     uploadErrorExecutor world0 eq_refl eq_refl) eq_refl eq_refl)
    as (result & w' & Hrun & Hcalls & Hcu & Hb & Hs & m & _ & Herr).
  exists result, w'.
  split; [exact Hrun |]. split; [exact Hcalls |]. split; [exact Hcu |].
  split; [exact Hb |]. split; [exact Hs | exact Herr].
Defined.

(** Every cycle that returns pushes the metrics of what it recorded. A
    cycle returns, a result and a nil error, exactly when the executor
    answers its calls. With a metrics pusher it then has pushed exactly
    once, after the operations: the metrics say the service is up, carry
    the runner's hostname and hold the results stored in the returned
    result, cloud upload before backup. Without a pusher nothing is
    pushed, and a cycle that panics pushes nothing either. *)
Theorem Run_pushes_recorded_results env r w :
  match fst (Run env r w) with
  | Returns (result, err) =>
      answers r = true
      /\ err = None
      /\ exists res,
           result = Some res
           /\ match metricsPusher r with
              | None => pushed (trace (snd (Run env r w))) = pushed (trace w)
              | Some _ =>
                  exists m,
                    pushed (trace (snd (Run env r w))) = pushed (trace w) ++ [m]
                    /\ Results m = slot (RunResult.CloudUpload res)
                                   ++ slot (RunResult.Backup res)
                    /\ ServiceUp m = true
                    /\ Hostname m = hostname r
              end
  | Panics =>
      answers r = false
      /\ pushed (trace (snd (Run env r w))) = pushed (trace w)
  end.
Proof.
  destruct (answers r) eqn:Hans.
  - destruct (Run_spec env r w Hans)
      as (res0 & w1 & perr & w' & Hop & Hrun & _ & _ & Hpush & _).
    destruct (AddError_fields res0 perr) as (_ & Fcu & Fb & _).
    rewrite Hrun. cbn [fst snd].
    split; [reflexivity |]. split; [reflexivity |].
    exists (RunResult.AddError res0 perr). split; [reflexivity |].
    destruct (metricsPusher r) as [p |].
    + destruct Hpush as (m & _ & Hm & Hres & Hup & Hhost).
      exists m. rewrite Fcu, Fb. repeat split; assumption.
    + apply Hpush.
  - destruct (Run_panics env r w Hans) as (ex & w' & _ & _ & Hrun & Hpush & _).
    rewrite Hrun. cbn [fst snd]. split; [reflexivity | exact Hpush].
Qed.

(** A notify level that is none of error, warning and always sends
    nothing: [sendNotifications] returns a nil error without calling the
    notifier, whatever the result, and a whole cycle notifies nobody, even
    when it failed (or panicked). *)
Theorem sendNotifications_invalid_level env r :
  IsValid (notifyLevel r) = false ->
  (forall result w, sendNotifications env r result w = (None, w))
  /\ (forall w, notified (trace (snd (Run env r w))) = notified (trace w)).
Proof.
  intros Hinv. unfold IsValid in Hinv.
  apply orb_false_iff in Hinv. destruct Hinv as [Hinv Halways].
  apply orb_false_iff in Hinv. destruct Hinv as [Herror Hwarning].
  assert (Hsend : forall result w, sendNotifications env r result w = (None, w)).
  { intros result w. unfold sendNotifications. fold (notifyLevel r).
    rewrite Herror, Hwarning, Halways, andb_false_r.
    destruct (notifier r); reflexivity. }
  split; [exact Hsend |].
  intros w.
  destruct (answers r) eqn:Hans.
  - destruct (Run_spec env r w Hans) as (res0 & w1 & perr & w' & _ & Hrun & _ & Hnot & _).
    rewrite Hrun. cbn [snd]. rewrite Hnot. unfold sentFor. rewrite Hsend.
    cbn. apply app_nil_r.
  - destruct (Run_panics env r w Hans) as (ex & w' & _ & _ & Hrun & _ & Hnot & _).
    rewrite Hrun. exact Hnot.
Qed.

Lemma sendNotifications_invalid_level_witness :
  let r := testRunner "never" false (Some uploadUnsuccessfulExecutor)
                      None (Some failingNotifier) in
  IsValid (notifyLevel r) = false
  /\ (forall result w, sendNotifications testEnv r result w = (None, w))
  /\ (forall w, notified (trace (snd (Run testEnv r w))) = notified (trace w)).
Proof.
  refine (conj eq_refl _).
  apply (sendNotifications_invalid_level testEnv). reflexivity.
Defined.

(** A failed operation is reported. In live mode, when both calls of the
    executor return a result and one of the results is not a success, a
    runner with a notifier and a valid notify level sends exactly one
    notification: the error notice, whose body is the error message of the
    returned result; and [Success] of that result is false. *)
Theorem Run_failure_notified env r n ex cu b w :
  notifier r = Some n ->
  IsValid (notifyLevel r) = true ->
  executor r = Some ex ->
  DryRun (config r) = false ->
  CloudUpload ex forceUpload = Returned cu ->
  Backup ex force = Returned b ->
  BackupResult.Success cu && BackupResult.Success b = false ->
  exists result w',
    Run env r w = (Returns (Some result, None), w')
    /\ RunResult.Success result = false
    /\ notified (trace w')
       = notified (trace w)
         ++ [ErrorNotification "Ludusavi Backup Failed" (buildErrorMessage r result)].
Proof.
  intros Hn Hlevel Hex Hdry Hcu Hb Hfail.
  assert (Hans : answers r = true)
    by (apply (answers_live r ex Hex); [rewrite Hcu | rewrite Hb]; reflexivity).
  destruct (Run_spec env r w Hans)
    as (res0 & w1 & perr & w' & Hop & Hrun & _ & Hnot & _).
  destruct (operate_spec env r w Hans) as (res & w1' & Hop' & Hsucc & _ & _ & _ & Hcase).
  rewrite Hop in Hop'. injection Hop' as <- <-.
  rewrite Hex, Hdry, Hcu, Hb in Hcase. cbn [stored] in Hcase.
  destruct Hcase as (Hrcu & Hrb & _).
  destruct (AddError_fields res0 perr) as (Fs & _).
  assert (Hs : RunResult.Success (RunResult.AddError res0 perr) = false).
  { rewrite Fs, Hsucc, Hrcu, Hrb. cbn [RunResult.failed].
    rewrite !negb_involutive. exact Hfail. }
  exists (RunResult.AddError res0 perr), w'.
  split; [exact Hrun |]. split; [exact Hs |].
  rewrite Hnot, sentFor_spec, Hn, Hs. cbn [negb andb].
  unfold IsValid in Hlevel. rewrite Hlevel. reflexivity.
Qed.

Lemma Run_failure_notified_witness :
  let r := testRunner NotifyError false (Some uploadUnsuccessfulExecutor)
                      None (Some NopNotifier) in
  notifier r = Some NopNotifier
  /\ IsValid (notifyLevel r) = true
  /\ exists result w',
       Run testEnv r world0 = (Returns (Some result, None), w')
       /\ RunResult.Success result = false
       /\ notified (trace w')
          = notified (trace world0)
            ++ [ErrorNotification "Ludusavi Backup Failed" (buildErrorMessage r result)].
Proof.
  refine (conj eq_refl (conj eq_refl _)).
  eapply (Run_failure_notified testEnv _ NopNotifier uploadUnsuccessfulExecutor
            _ _ world0); reflexivity.
Defined.

Lemma append_assoc (a b c : string) : ((a ++ b) ++ c = a ++ (b ++ c))%string.
Proof. induction a as [| x a IH]; cbn; [reflexivity | rewrite IH; reflexivity]. Qed.

Lemma append_nil_r (a : string) : (a ++ "" = a)%string.
Proof. induction a as [| x a IH]; cbn; [reflexivity | rewrite IH; reflexivity]. Qed.

Lemma fold_errorLines (errs : list string) (msg : string) :
  fold_left (fun msg err => (msg ++ "Error: " ++ err ++ nl)%string) errs msg
  = (msg ++ errorLines errs)%string.
Proof.
  unfold errorLines. revert msg.
  induction errs as [| e errs IH]; intros msg; cbn [fold_left map String.concat].
  - symmetry. apply append_nil_r.
  - rewrite IH. destruct errs as [| e' errs].
    + cbn [map String.concat]. rewrite !append_assoc, append_nil_r. reflexivity.
    + cbn [map String.concat]. rewrite !append_assoc. reflexivity.
Qed.

(** The text of [buildErrorMessage]: the header naming the host, the line
    of the cloud upload when it failed, the line of the backup when it
    failed, then one line for each entry of [Errors], in order. *)
Lemma buildErrorMessage_text r result :
  buildErrorMessage r result
  = (("Backup failed on " ++ hostname r ++ "." ++ nl)
     ++ operationLine "Cloud upload error: " (RunResult.CloudUpload result)
     ++ operationLine "Backup error: " (RunResult.Backup result)
     ++ errorLines (RunResult.Errors result))%string.
Proof.
  unfold buildErrorMessage, operationLine. rewrite fold_errorLines.
  destruct (RunResult.CloudUpload result) as [cu |];
    [destruct (BackupResult.Success cu) |];
    (destruct (RunResult.Backup result) as [b |];
     [destruct (BackupResult.Success b) |]);
    cbn [negb]; rewrite ?append_assoc; cbn [append]; reflexivity.
Qed.

Lemma contains_refl (s : string) : contains s s.
Proof. exists "", "". cbn. symmetry. apply append_nil_r. Qed.

Lemma contains_app_l (a b sub : string) : contains a sub -> contains (a ++ b) sub.
Proof.
  intros (pre & post & ->). exists pre, (post ++ b)%string.
  rewrite !append_assoc. reflexivity.
Qed.

Lemma contains_app_r (a b sub : string) : contains b sub -> contains (a ++ b) sub.
Proof.
  intros (pre & post & ->). exists (a ++ pre)%string, post.
  rewrite !append_assoc. reflexivity.
Qed.

Lemma errorLines_cons (e : string) (errs : list string) :
  errorLines (e :: errs) = (("Error: " ++ e ++ nl) ++ errorLines errs)%string.
Proof.
  unfold errorLines. cbn [map String.concat].
  destruct errs as [| e' errs]; cbn [map String.concat].
  - rewrite append_nil_r. reflexivity.
  - reflexivity.
Qed.

Lemma errorLines_contains (e : string) (errs : list string) :
  In e errs -> contains (errorLines errs) ("Error: " ++ e ++ nl).
Proof.
  induction errs as [| e' errs IH]; intros Hin; [destruct Hin |].
  rewrite errorLines_cons. destruct Hin as [-> | Hin].
  - apply contains_app_l, contains_refl.
  - apply contains_app_r, IH, Hin.
Qed.

(** The error message leaves nothing out: it starts with the line naming
    the host, and it holds the error line of every failed operation of the
    result and a line for every entry of [Errors]. *)
Theorem buildErrorMessage_reports_all r result :
  (exists rest,
      buildErrorMessage r result
      = ("Backup failed on " ++ hostname r ++ "." ++ nl ++ rest)%string)
  /\ (forall cu, RunResult.CloudUpload result = Some cu ->
                 BackupResult.Success cu = false ->
                 contains (buildErrorMessage r result)
                          ("Cloud upload error: " ++ BackupResult.Error cu ++ nl))
  /\ (forall b, RunResult.Backup result = Some b ->
                BackupResult.Success b = false ->
                contains (buildErrorMessage r result)
                         ("Backup error: " ++ BackupResult.Error b ++ nl))
  /\ (forall e, In e (RunResult.Errors result) ->
                contains (buildErrorMessage r result) ("Error: " ++ e ++ nl)).
Proof.
  rewrite buildErrorMessage_text.
  split; [| split; [| split]].
  - eexists. rewrite !append_assoc. reflexivity.
  - intros cu Hcu Hs. rewrite Hcu. cbn [operationLine]. rewrite Hs.
    apply contains_app_r, contains_app_l, contains_refl.
  - intros b Hb Hs. rewrite Hb. cbn [operationLine]. rewrite Hs.
    apply contains_app_r, contains_app_r, contains_app_l, contains_refl.
  - intros e Hin.
    apply contains_app_r, contains_app_r, contains_app_r, errorLines_contains, Hin.
Qed.

End CycleProperties.

(** * Properties of the configuration *)
Section ConfigProperties.
Import Config.

Lemma IsValid_iff (n : NotifyLevel) :
  IsValid n = true <-> In n [NotifyError; NotifyWarning; NotifyAlways].
Proof.
  unfold IsValid. rewrite !orb_true_iff, !String.eqb_eq. cbn [In].
  split.
  - intros [[H | H] | H]; subst; auto.
  - intros [H | [H | [H | []]]]; subst; auto.
Qed.

Lemma validLogLevels_iff (l : string) :
  existsb (String.eqb l) validLogLevels = true <-> In l validLogLevels.
Proof.
  rewrite existsb_exists. split.
  - intros (x & Hin & Heq). apply String.eqb_eq in Heq. subst. exact Hin.
  - intros Hin. exists l. split; [exact Hin | apply String.eqb_refl].
Qed.

(** The next check of [Validate] did not fail. *)
Ltac passed H E :=
  match type of H with
  | (if ?b then _ else _) = None => destruct b eqn:E; [discriminate H |]
  end.

(** [Validate] returns a nil error for exactly the valid configurations. *)
Theorem Validate_accepts_iff os c :
  Validate os c = None <-> valid os c.
Proof.
  unfold Validate, valid. split.
  - intros H.
    passed H Eint. passed H Epath. passed H Emet. passed H Eatt. passed H Einit.
    passed H Emax. passed H Eurl. passed H Ekey. passed H Enot. passed H Elog.
    passed H Esize. clear H.
    apply Z.ltb_ge in Eint, Eatt, Einit, Emax, Esize.
    apply negb_false_iff in Elog.
    repeat split; try lia.
    + destruct (LudusaviPath c =? "")%string eqn:Ep.
      * left. apply String.eqb_eq. exact Ep.
      * right. destruct (os_Stat os (LudusaviPath c)); [discriminate Epath | reflexivity].
    + intros Hen Hurl. rewrite Hen, Hurl in Emet. discriminate Emet.
    + intros Hurl. rewrite H, Hurl in Eurl. discriminate Eurl.
    + intros Hkey. rewrite H, Hkey in Ekey. discriminate Ekey.
    + apply IsValid_iff. rewrite H in Enot. apply negb_false_iff in Enot. exact Enot.
    + apply validLogLevels_iff. exact Elog.
  - intros (Hint & Hpath & Hmet & Hatt & Hdel & Happ & Hlog & Hsize).
    destruct (Z.ltb_spec (Interval c) Minute); [lia |].
    replace (negb (LudusaviPath c =? "")%string
             && match os_Stat os (LudusaviPath c) with Some _ => true | None => false end)
      with false.
    2: { destruct Hpath as [-> | ->]; [reflexivity |]. symmetry. apply andb_false_r. }
    replace (MetricsEnabled (Metrics c) && (PushgatewayURL (Metrics c) =? "")%string)
      with false.
    2: { destruct (MetricsEnabled (Metrics c)); [| reflexivity].
         symmetry. apply String.eqb_neq. apply Hmet. reflexivity. }
    destruct (Z.ltb_spec (HTTP.MaxAttempts (Retry c)) 1); [lia |].
    destruct (Z.ltb_spec (HTTP.InitialDelay (Retry c)) 0); [lia |].
    destruct (Z.ltb_spec (HTTP.MaxDelay (Retry c)) (HTTP.InitialDelay (Retry c))); [lia |].
    apply validLogLevels_iff in Hlog. rewrite Hlog. cbn [negb].
    destruct (Z.ltb_spec (MaxSizeMB (Log c)) 1); [lia |].
    destruct (AppriseEnabled (Apprise c)); [| reflexivity].
    destruct (Happ eq_refl) as (Hurl & Hkey & Hnot).
    apply String.eqb_neq in Hurl, Hkey. apply IsValid_iff in Hnot.
    rewrite Hurl, Hkey, Hnot. reflexivity.
Qed.

Lemma Validate_accepts_iff_witness :
  Validate testOS validConfig = None /\ valid testOS validConfig.
Proof.
  pose proof (Validate_accepts_iff testOS validConfig) as [Hvalid _].
  split; [reflexivity | exact (Hvalid eq_refl)].
Defined.

End ConfigProperties.

(** * Properties of the notifiers *)
Section MultiNotifierProperties.
Import Domain MultiNotifier.

Ltac run_multi :=
  cbv beta iota zeta delta [bind ret MultiNotifier.log emit];
  cbn [fst snd trace ticks].

Lemma notifyEach_spec notification :
  forall ns i errs w,
    fst (notifyEach i ns notification errs w) = errs ++ failures ns notification
    /\ notifyCalls (trace (snd (notifyEach i ns notification errs w)))
       = notifyCalls (trace w)
         ++ map (fun k => (k, notification)) (seq i (List.length ns))
    /\ warnings (trace (snd (notifyEach i ns notification errs w)))
       = warnings (trace w)
         ++ map (fun _ => "notifier failed") (failures ns notification).
Proof.
  induction ns as [| n ns IH]; intros i errs w.
  - cbn. rewrite !app_nil_r. repeat split; reflexivity.
  - cbn [notifyEach failures flat_map List.length seq map]. run_multi.
    destruct (Domain.Notify n notification) as [err |]; run_multi;
      lazymatch goal with
      | |- context [notifyEach (S i) ns notification ?e ?w'] =>
          destruct (IH (S i) e w') as (H1 & H2 & H3); rewrite H1, H2, H3
      end;
      cbn [trace]; unfold notifyCalls, warnings;
      rewrite !flat_map_app; cbn [flat_map app map];
      rewrite ?app_nil_r, <- ?app_assoc; cbn [app];
      repeat split; reflexivity.
Qed.

Lemma failures_nil ns notification :
  failures ns notification = []
  <-> Forall (fun n => Domain.Notify n notification = None) ns.
Proof.
  induction ns as [| n ns IH]; cbn [failures flat_map].
  - split; [constructor | reflexivity].
  - fold (failures ns notification).
    destruct (Domain.Notify n notification) as [err |] eqn:E; cbn [app].
    + split; [discriminate |]. intros H. inversion H as [| ? ? Hn _]. congruence.
    + rewrite IH. split; [intros H; constructor; assumption |].
      intros H. inversion H. assumption.
Qed.

(** [MultiNotifier.Notify] attempts all notifiers: each is called exactly
    once, in order, with the notification, whether or not an earlier one
    failed. The call returns nil exactly when every notifier did;
    otherwise it returns the join of the errors of the notifiers that
    failed, in their order, and one warning was logged for each. *)
Theorem MultiNotifier_Notify_attempts_all m notification w :
  notifyCalls (trace (snd (Notify m notification w)))
  = notifyCalls (trace w)
    ++ map (fun k => (k, notification)) (seq 0 (List.length (notifiers m)))
  /\ fst (Notify m notification w) = errors_Join (failures (notifiers m) notification)
  /\ (fst (Notify m notification w) = None
      <-> Forall (fun n => Domain.Notify n notification = None) (notifiers m))
  /\ warnings (trace (snd (Notify m notification w)))
     = warnings (trace w)
       ++ map (fun _ => "notifier failed") (failures (notifiers m) notification).
Proof.
  unfold Notify, bind.
  destruct (notifyEach_spec notification (notifiers m) 0%nat [] w) as (H1 & H2 & H3).
  destruct (notifyEach 0 (notifiers m) notification [] w) as [errs w'] eqn:E.
  cbn [fst snd app] in H1, H2, H3. subst errs.
  pose proof (failures_nil (notifiers m) notification) as Hnil.
  destruct (failures (notifiers m) notification) as [| e l] eqn:Ef;
    cbn [List.length Nat.ltb Nat.leb errors_Join]; unfold ret; cbn [fst snd];
    (split; [exact H2 |]); (split; [reflexivity |]); (split; [| exact H3]).
  - split; [intros _; apply Hnil; reflexivity | reflexivity].
  - split; [discriminate |]. intros H. apply Hnil in H. discriminate H.
Qed.

Lemma MultiNotifier_Notify_attempts_all_witness :
  notifyCalls (trace (snd (Notify oneDown alert world0)))
  = [(0%nat, alert); (1%nat, alert); (2%nat, alert)]
  /\ fst (Notify oneDown alert world0)
     = Some {| errs := [errorString "apprise down"] |}
  /\ warnings (trace (snd (Notify oneDown alert world0))) = ["notifier failed"].
Proof.
  destruct (MultiNotifier_Notify_attempts_all oneDown alert world0) as (H1 & H2 & _ & H4).
  exact (conj H1 (conj H2 H4)).
Defined.

Lemma validateEach_spec :
  forall ns i errs w,
    fst (validateEach i ns errs w) = errs ++ invalid ns
    /\ validateCalls (trace (snd (validateEach i ns errs w)))
       = validateCalls (trace w) ++ seq i (List.length ns).
Proof.
  induction ns as [| n ns IH]; intros i errs w.
  - cbn. rewrite !app_nil_r. split; reflexivity.
  - cbn [validateEach invalid flat_map List.length seq]. run_multi.
    destruct (NotifierValidate n) as [err |]; run_multi;
      lazymatch goal with
      | |- context [validateEach (S i) ns ?e ?w'] =>
          destruct (IH (S i) e w') as (H1 & H2); rewrite H1, H2
      end;
      cbn [trace]; unfold validateCalls;
      rewrite !flat_map_app; cbn [flat_map app];
      rewrite ?app_nil_r, <- ?app_assoc; cbn [app];
      split; reflexivity.
Qed.

Lemma invalid_nil ns :
  invalid ns = [] <-> Forall (fun n => NotifierValidate n = None) ns.
Proof.
  induction ns as [| n ns IH]; cbn [invalid flat_map].
  - split; [constructor | reflexivity].
  - fold (invalid ns).
    destruct (NotifierValidate n) as [err |] eqn:E; cbn [app].
    + split; [discriminate |]. intros H. inversion H as [| ? ? Hn _]. congruence.
    + rewrite IH. split; [intros H; constructor; assumption |].
      intros H. inversion H. assumption.
Qed.

(** [MultiNotifier.Validate] validates every notifier, once each and in
    order, and does not stop at the first that is invalid; it returns nil
    exactly when every notifier is valid, and otherwise the join of the
    errors of the invalid ones, in their order. *)
Theorem MultiNotifier_Validate_checks_all m w :
  validateCalls (trace (snd (Validate m w)))
  = validateCalls (trace w) ++ seq 0 (List.length (notifiers m))
  /\ fst (Validate m w) = errors_Join (invalid (notifiers m))
  /\ (fst (Validate m w) = None
      <-> Forall (fun n => NotifierValidate n = None) (notifiers m)).
Proof.
  unfold Validate, bind.
  destruct (validateEach_spec (notifiers m) 0%nat [] w) as (H1 & H2).
  destruct (validateEach 0 (notifiers m) [] w) as [errs w'] eqn:E.
  cbn [fst snd app] in H1, H2. subst errs.
  pose proof (invalid_nil (notifiers m)) as Hnil.
  destruct (invalid (notifiers m)) as [| e l] eqn:Ef;
    cbn [List.length Nat.ltb Nat.leb errors_Join]; unfold ret; cbn [fst snd];
    (split; [exact H2 |]); (split; [reflexivity |]).
  - split; [intros _; apply Hnil; reflexivity | reflexivity].
  - split; [discriminate |]. intros H. apply Hnil in H. discriminate H.
Qed.

End MultiNotifierProperties.

Section AppriseProperties.
Import Domain Apprise.

Ltac run_http :=
  cbn [andb orb];
  cbv beta iota zeta delta [bind ret HTTP.log emit HTTP.doRoundTrip HTTP.select];
  cbn [fst snd trace ticks].

Lemma length_append (a b : string) :
  String.length (a ++ b) = (String.length a + String.length b)%nat.
Proof. induction a as [| c a IH]; cbn; [reflexivity | rewrite IH; reflexivity]. Qed.

Lemma substring_0_append (a b : string) : substring 0 (String.length a) (a ++ b) = a.
Proof.
  induction a as [| c a IH]; cbn.
  - destruct b; reflexivity.
  - rewrite IH. reflexivity.
Qed.

Lemma substring_skip_append (a b : string) (n : nat) :
  substring (String.length a) n (a ++ b) = substring 0 n b.
Proof. induction a as [| c a IH]; cbn; [reflexivity | exact IH]. Qed.

Lemma substring_0_length (s : string) : substring 0 (String.length s) s = s.
Proof. induction s as [| c s IH]; cbn; [reflexivity | rewrite IH; reflexivity]. Qed.

Lemma length_substring_0 (n : nat) (s : string) :
  (n <= String.length s)%nat -> String.length (substring 0 n s) = n.
Proof.
  revert s. induction n as [| n IH]; intros s Hn.
  - destruct s; reflexivity.
  - destruct s as [| c s]; cbn in *; [lia |]. rewrite IH by lia. reflexivity.
Qed.

(** [strings.TrimSuffix] removes the suffix once. *)
Lemma TrimSuffix_append (s suffix : string) : TrimSuffix (s ++ suffix) suffix = s.
Proof.
  unfold TrimSuffix, HasSuffix. rewrite length_append.
  replace (String.length s + String.length suffix - String.length suffix)%nat
    with (String.length s) by lia.
  rewrite substring_skip_append, substring_0_length, String.eqb_refl, substring_0_append.
  replace (String.length suffix <=? String.length s + String.length suffix)%nat
    with true by (symmetry; apply Nat.leb_le; lia).
  reflexivity.
Qed.

(** The request sent for a notification never carries more than 1000
    bytes of body: a body of up to 1000 bytes is sent as it is, a longer
    one is cut to its first 997 bytes followed by three dots. The title is
    sent as it is, and the level under the name Apprise has for it: info
    as "info", warning as "warning" and error as "failure". *)
Theorem requestFor_truncates notification :
  (String.length (Body (requestFor notification)) <= maxBodyLength)%nat
  /\ ((String.length (Domain.Body notification) <= maxBodyLength)%nat ->
      Body (requestFor notification) = Domain.Body notification)
  /\ ((maxBodyLength < String.length (Domain.Body notification))%nat ->
      Body (requestFor notification)
      = (substring 0 997 (Domain.Body notification) ++ "...")%string
      /\ String.length (Body (requestFor notification)) = maxBodyLength)
  /\ Title (requestFor notification) = Domain.Title notification
  /\ Type' (requestFor notification)
     = match Domain.Level notification with
       | NotificationLevelInfo => "info"
       | NotificationLevelWarning => "warning"
       | NotificationLevelError => "failure"
       end.
Proof.
  unfold requestFor, maxBodyLength. cbn [Body Title Type'].
  destruct (Nat.ltb_spec 1000 (String.length (Domain.Body notification))) as [Hlong | Hshort].
  - assert (Hlen : String.length (substring 0 (1000 - 3) (Domain.Body notification) ++ "...")
                   = 1000%nat).
    { rewrite length_append, length_substring_0 by lia. reflexivity. }
    rewrite Hlen.
    split; [lia |]. split; [lia |]. split; [| split; reflexivity].
    intros _. split; reflexivity.
  - split; [exact Hshort |]. split; [reflexivity |]. split; [lia | split; reflexivity].
Qed.
(** The result of the loop of [Do] does not depend on what was logged
    before. *)
Lemma attempts_result_world env c body :
  forall n attempt lastErr w w',
    fst (HTTP.attempts env c body n attempt lastErr w)
    = fst (HTTP.attempts env c body n attempt lastErr w').
Proof.
  induction n as [| n IH]; intros attempt lastErr w w'; [reflexivity |].
  cbn [HTTP.attempts]. run_http.
  destruct (HTTP.httpClient_Do env attempt body) as [e | status header [b | e]];
    run_http;
    try destruct (HTTP.shouldRetry status);
    try destruct (attempt <? HTTP.MaxAttempts (HTTP.retry c));
    cbn [andb]; run_http;
    try destruct (HTTP.ctx_select env attempt);
    run_http; try reflexivity; apply IH.
Qed.

Lemma Do_result_world env c req w w' :
  fst (HTTP.Do env c req w) = fst (HTTP.Do env c req w').
Proof.
  unfold HTTP.Do. destruct (HTTP.ReqBody req) as [[b | e] |];
    try reflexivity; apply attempts_result_world.
Qed.

Lemma post_result_world net c u body w w' :
  fst (post net c u body w) = fst (post net c u body w').
Proof.
  unfold post. destruct (url_Parse net u); [reflexivity |].
  unfold HTTP.Post. apply Do_result_world.
Qed.

Lemma post_one_of net c u body w : HTTP.oneOf (fst (post net c u body w)).
Proof.
  unfold post. destruct (url_Parse net u); [exact I |].
  unfold HTTP.Post.
  destruct (Do_invariant (server net u) c
              {| HTTP.Method := "POST"; HTTP.URL := u;
                 HTTP.ReqBody := Some (HTTP.ReadOk body) |} w)
    as (_ & _ & _ & _ & _ & _ & Hone & _).
  exact Hone.
Qed.

(** [AppriseClient.Notify] never dereferences a nil response: it always
    returns. It returns a nil error exactly when the request could be
    marshalled, the notify URL of the client is a URL, and the retrying
    [Post] of the marshalled request to that URL came back with a response
    whose status is from 200 to 299. *)
Theorem Apprise_Notify_result net a notification w :
  exists r,
    fst (Notify net a notification w) = Return r
    /\ (r = None
        <-> exists jsonBody resp,
              json_Marshal net (requestFor notification) = inl jsonBody
              /\ fst (post net (httpClient a) (url a ++ "/notify/" ++ key a)
                           jsonBody world0)
                 = (Some resp, None)
              /\ 200 <= HTTP.StatusCode resp < 300).
Proof.
  unfold Notify.
  destruct (json_Marshal net (requestFor notification)) as [jsonBody | merr]; run_http.
  2: { eexists. split; [reflexivity |]. split; [discriminate |].
       intros (j & resp & H & _). discriminate H. }
  set (w1 := {| ticks := ticks w;
                trace := trace w ++ [HTTP.EvLog Debug "sending notification via apprise"] |}).
  pose proof (post_one_of net (httpClient a) (url a ++ "/notify/" ++ key a) jsonBody w1)
    as Hone.
  pose proof (post_result_world net (httpClient a) (url a ++ "/notify/" ++ key a)
                jsonBody w1 world0) as Hworld.
  destruct (post net (httpClient a) (url a ++ "/notify/" ++ key a) jsonBody w1)
    as [[resp err] w2].
  cbn [fst] in Hone, Hworld.
  destruct resp as [resp |], err as [err |]; cbn in Hone; try contradiction.
  - destruct (Z.ltb_spec (HTTP.StatusCode resp) 200),
             (Z.leb_spec 300 (HTTP.StatusCode resp));
      cbn [orb]; run_http; eexists; (split; [reflexivity |]);
      (split;
       [ first [ discriminate
               | intros _; exists jsonBody, resp;
                 split; [reflexivity | split; [symmetry; exact Hworld | lia]] ]
       | first [ reflexivity
               | intros (j & resp' & Hj & Hr & Hst); injection Hj as <-;
                 rewrite <- Hworld in Hr; injection Hr as <-; lia ] ]).
  - eexists. split; [reflexivity |]. split; [discriminate |].
    intros (j & resp' & Hj & Hr & _). injection Hj as <-.
    rewrite <- Hworld in Hr. discriminate Hr.
Qed.

(** Retries that run out surface as the status of the server. When
    every attempt to reach the notify URL ends in a retryable outcome, no
    wait is cut short, and the last attempt got an answer,
    [AppriseClient.Notify] has called the server [MaxAttempts] times and
    returns the error that names the status and body of that last answer:
    not an error about the attempts. *)
Theorem Apprise_Notify_exhausted net a notification jsonBody status header body w :
  json_Marshal net (requestFor notification) = inl jsonBody ->
  url_Parse net (url a ++ "/notify/" ++ key a) = None ->
  1 <= HTTP.MaxAttempts (HTTP.retry (httpClient a)) ->
  (forall k, 1 <= k <= HTTP.MaxAttempts (HTTP.retry (httpClient a)) ->
     HTTP.retryable (HTTP.httpClient_Do (server net (url a ++ "/notify/" ++ key a)) k
                                        (Some jsonBody)) = true) ->
  (forall k, 1 <= k < HTTP.MaxAttempts (HTTP.retry (httpClient a)) ->
     HTTP.ctx_select (server net (url a ++ "/notify/" ++ key a)) k = HTTP.TimerFired) ->
  HTTP.httpClient_Do (server net (url a ++ "/notify/" ++ key a))
                     (HTTP.MaxAttempts (HTTP.retry (httpClient a))) (Some jsonBody)
  = HTTP.Received status header (HTTP.ReadOk body) ->
  fst (Notify net a notification w)
  = Return (Some (errorString ("apprise returned status " ++ itoa status ++ ": " ++ body)))
  /\ HTTP.calls (trace (snd (Notify net a notification w)))
     = (HTTP.calls (trace w)
        + Z.to_nat (HTTP.MaxAttempts (HTTP.retry (httpClient a))))%nat.
Proof.
  intros Hm Hu Hmax Hret Hsel Hlast.
  assert (Hstatus : (status <? 200) || (300 <=? status) = true).
  { pose proof (Hret (HTTP.MaxAttempts (HTTP.retry (httpClient a))) ltac:(lia)) as Hr.
    rewrite Hlast in Hr. cbn [HTTP.retryable] in Hr.
    apply shouldRetry_iff in Hr. unfold HTTP.retryableStatuses in Hr. cbn [In] in Hr.
    apply orb_true_iff. right. apply Z.leb_le.
    destruct Hr as [Hr | [Hr | [Hr | [Hr | [Hr | []]]]]]; subst status; lia. }
  unfold Notify. rewrite Hm. run_http. unfold post. rewrite Hu.
  unfold HTTP.Post, HTTP.Do. cbn [HTTP.ReqBody].
  destruct (Z.to_nat (HTTP.MaxAttempts (HTTP.retry (httpClient a)))) as [| n] eqn:En;
    [lia |].
  match goal with
  | |- context [HTTP.attempts ?env ?c ?b (S n) 1 None ?w1] =>
      destruct (attempts_exhausted env c b n 1 None w1) as [H1 H2];
      [lia | exact Hret | exact Hsel |];
      destruct (HTTP.attempts env c b (S n) 1 None w1) as [[resp err] w2]
  end.
  cbn [fst snd] in H1, H2. rewrite Hlast in H1. cbn [HTTP.exhausted] in H1.
  injection H1 as -> ->. cbn [HTTP.StatusCode HTTP.Body]. rewrite Hstatus.
  run_http. split; [reflexivity |].
  rewrite H2. cbn [trace]. rewrite calls_app. cbn. lia.
Qed.

Lemma Apprise_Notify_exhausted_witness :
  let net := {| url_Parse := fun _ => None;
                server := fun _ => HTTP.unavailable;
                json_Marshal := fun req => inl (Body req) |} in
  fst (Notify net testApprise alert world0)
  = Return (Some (errorString "apprise returned status 503: busy"))
  /\ HTTP.calls (trace (snd (Notify net testApprise alert world0))) = 3%nat.
Proof.
  exact (Apprise_Notify_exhausted
           {| url_Parse := fun _ => None;
              server := fun _ => HTTP.unavailable;
              json_Marshal := fun req => inl (Body req) |}
           testApprise alert "disk full" 503 [] "busy" world0
           eq_refl eq_refl ltac:(cbn; lia) (fun _ _ => eq_refl) (fun _ _ => eq_refl)
           eq_refl).
Defined.

(** One connectivity check: whether it passes, and the request it
    makes. *)
Lemma checkConnectivity_spec net c u w :
  (fst (checkConnectivity net c u w) = None <-> reachable net u)
  /\ fst (checkConnectivity net c u w) = fst (checkConnectivity net c u world0)
  /\ HTTP.calls (trace (snd (checkConnectivity net c u w)))
     = (HTTP.calls (trace w)
        + match url_Parse net u with None => 1 | Some _ => 0 end)%nat.
Proof.
  unfold checkConnectivity, HTTP.CheckConnectivity, reachable.
  destruct (url_Parse net u) as [perr |]; run_http.
  - split; [| split; [reflexivity | symmetry; apply Nat.add_0_r]].
    split; [discriminate | intros [H _]; discriminate H].
  - destruct (HTTP.httpClient_Do (server net u) 1 None) as [e | status header body];
      run_http.
    + cbn [trace]. rewrite ?calls_app. cbn.
      split; [| split; reflexivity].
      split; [discriminate |]. intros (_ & st & h & b & H & _). discriminate H.
    + destruct (Z.leb_spec 200 status), (Z.ltb_spec status 300); run_http;
        cbn [trace]; rewrite ?calls_app; cbn;
        (split; [| split; [reflexivity | lia]]);
        (split;
         [ first [ discriminate
                 | intros _; split; [reflexivity |];
                   do 3 eexists; split; [reflexivity | lia] ]
         | first [ reflexivity
                 | intros (_ & st & h & b & Hrt & Hst);
                   injection Hrt as <- _ _; lia ] ]).
Qed.

(** [AppriseClient.Validate] passes exactly when the details page or,
    failing that, the root of the server answers a connectivity check. It
    asks for the details page first and for the root only when that check
    failed: one request when the details page answers, never more than
    two. When both checks fail, the error names the root URL and wraps the
    failure of the first check, not of the second. *)
Theorem Apprise_Validate_fallback net a w :
  (fst (Validate net a w) = None
   <-> reachable net (url a ++ "/details/" ++ key a) \/ reachable net (url a))
  /\ (HTTP.calls (trace (snd (Validate net a w))) <= HTTP.calls (trace w) + 2)%nat
  /\ (reachable net (url a ++ "/details/" ++ key a) ->
      HTTP.calls (trace (snd (Validate net a w))) = S (HTTP.calls (trace w)))
  /\ (forall err,
        fst (checkConnectivity net (httpClient a) (url a ++ "/details/" ++ key a) world0)
        = Some err ->
        ~ reachable net (url a) ->
        fst (Validate net a w)
        = Some (wrapError ("apprise server not reachable at " ++ url a ++ ": ") err)).
Proof.
  unfold Validate, bind.
  destruct (checkConnectivity_spec net (httpClient a) (url a ++ "/details/" ++ key a) w)
    as (Hd & Hdw & Hdc).
  assert (Hone : forall u, (match url_Parse net u with None => 1 | Some _ => 0 end <= 1)%nat)
    by (intros u; destruct (url_Parse net u); lia).
  pose proof (Hone (url a ++ "/details/" ++ key a)%string) as Hd1.
  destruct (checkConnectivity net (httpClient a) (url a ++ "/details/" ++ key a) w)
    as [[derr |] w1]; cbn [fst snd] in Hd, Hdw, Hdc.
  - destruct (checkConnectivity_spec net (httpClient a) (url a) w1) as (Hr & _ & Hrc).
    pose proof (Hone (url a)) as Hr1.
    destruct (checkConnectivity net (httpClient a) (url a) w1) as [[rerr |] w2];
      cbn [fst snd] in Hr, Hrc; unfold ret; cbn [fst snd].
    + split; [split; [discriminate |] |].
      { intros [H | H]; [apply Hd in H | apply Hr in H]; discriminate H. }
      split; [lia |]. split.
      { intros H. apply Hd in H. discriminate H. }
      intros err Herr _. rewrite <- Hdw in Herr. injection Herr as <-. reflexivity.
    + split; [split; [intros _; right; apply Hr; reflexivity | reflexivity] |].
      split; [lia |]. split.
      { intros H. apply Hd in H. discriminate H. }
      intros err _ Hnot. contradiction Hnot. apply Hr. reflexivity.
  - unfold ret. cbn [fst snd].
    assert (Hreach : reachable net (url a ++ "/details/" ++ key a))
      by (apply Hd; reflexivity).
    split; [split; [intros _; left; exact Hreach | reflexivity] |].
    split; [lia |]. split.
    + intros _. destruct Hreach as [Hp _]. rewrite Hp in Hdc. lia.
    + intros err Herr _. rewrite <- Hdw in Herr. discriminate Herr.
Qed.

Lemma Apprise_Validate_fallback_witness :
  fst (Validate testNet testApprise world0) = None
  /\ HTTP.calls (trace (snd (Validate testNet testApprise world0))) = 2%nat.
Proof.
  destruct (Apprise_Validate_fallback testNet testApprise world0) as (Hiff & _).
  split; [| reflexivity].
  apply Hiff. right. split; [reflexivity |].
  exists 200, [], (HTTP.ReadOk "OK"). split; [reflexivity | lia].
Defined.

(** A trailing slash of the configured URL makes no difference: the
    client made for a base URL and the one made for the base URL followed
    by a slash are the same, so they ask for the same notify and details
    URLs. *)
Theorem NewAppriseClient_trailing_slash base key' opts :
  HasSuffix base "/" = false ->
  NewAppriseClient (base ++ "/") key' opts = NewAppriseClient base key' opts
  /\ url (NewAppriseClient base key' []) = base.
Proof.
  intros Hno. unfold NewAppriseClient.
  rewrite TrimSuffix_append. unfold TrimSuffix at 1 2. rewrite Hno.
  split; reflexivity.
Qed.

Lemma NewAppriseClient_trailing_slash_witness :
  NewAppriseClient "http://localhost:8000/" "test" []
  = NewAppriseClient "http://localhost:8000" "test" []
  /\ url (NewAppriseClient "http://localhost:8000" "test" []) = "http://localhost:8000".
Proof.
  exact (NewAppriseClient_trailing_slash "http://localhost:8000" "test" [] eq_refl).
Defined.

End AppriseProperties.

(** * Properties of the ludusavi executor *)
Section LudusaviProperties.
Import Ludusavi.

Ltac run_exec :=
  cbv beta iota zeta delta
    [bind ret Ludusavi.log emit time_Now
     Domain.BackupResult.New Domain.BackupResult.Complete];
  cbn [fst snd trace ticks].

Lemma commands_app (a b : list event) : commands (a ++ b) = commands a ++ commands b.
Proof. unfold commands. apply flat_map_app. Qed.

(** What [Backup] and [CloudUpload] do, for an operation and its
    arguments, told by what the system does. *)
Lemma operation_spec os e op args w :
  exists r w',
    operation os e op args w = ((r, None), w')
    /\ Domain.BackupResult.Operation r = op
    /\ Domain.BackupResult.Duration r
       = Domain.BackupResult.EndTime r - Domain.BackupResult.StartTime r
    /\ match getBinaryPath os e with
       | inr err =>
           commands (trace w') = commands (trace w)
           /\ Domain.BackupResult.Success r = false
           /\ Domain.BackupResult.Stats r = Domain.zeroStats
           /\ Domain.BackupResult.Error r = error_Error err
       | inl path =>
           commands (trace w') = commands (trace w) ++ [(path, args)]
           /\ match cmd_Run os path args (env e) with
              | Broke err stderr =>
                  Domain.BackupResult.Success r = false
                  /\ Domain.BackupResult.Stats r = Domain.zeroStats
                  /\ Domain.BackupResult.Error r
                     = match ctx_Err os with
                       | Some ctxErr => error_Error ctxErr
                       | None =>
                           if (strings_TrimSpace os stderr =? "")%string
                           then ("ludusavi failed: " ++ error_Error err)%string
                           else ("ludusavi failed: " ++ strings_TrimSpace os stderr
                                 ++ ": " ++ error_Error err)%string
                       end
              | Exited stdout =>
                  if (String.length (bytes_TrimSpace os stdout) =? 0)%nat
                  then Domain.BackupResult.Success r = true
                       /\ Domain.BackupResult.Stats r = Domain.zeroStats
                       /\ Domain.BackupResult.Error r = ""
                  else
                    match json_Unmarshal os stdout with
                    | inr err =>
                        Domain.BackupResult.Success r = false
                        /\ Domain.BackupResult.Stats r = Domain.zeroStats
                        /\ Domain.BackupResult.Error r
                           = ("failed to parse output: failed to parse JSON: "
                              ++ error_Error err)%string
                    | inl out =>
                        Domain.BackupResult.Success r = true
                        /\ Domain.BackupResult.Stats r
                           = {| Domain.TotalGames := TotalGames (Overall out);
                                Domain.ProcessedGames := ProcessedGames (Overall out);
                                Domain.TotalBytes := TotalBytes (Overall out);
                                Domain.ProcessedBytes := ProcessedBytes (Overall out);
                                Domain.NewGames := New (ChangedGames (Overall out));
                                Domain.ChangedGames
                                  := Different (ChangedGames (Overall out));
                                Domain.SameGames := Same (ChangedGames (Overall out)) |}
                        /\ Domain.BackupResult.Error r = ""
                    end
              end
       end.
Proof.
  unfold operation, run, parseOutput.
  destruct (getBinaryPath os e) as [path | err]; run_exec.
  - destruct (cmd_Run os path args (env e)) as [stdout | err stderr]; run_exec.
    + destruct (String.length (bytes_TrimSpace os stdout) =? 0)%nat;
        [| destruct (json_Unmarshal os stdout) as [out | err]];
        run_exec; do 2 eexists; (split; [reflexivity |]); cbn;
        rewrite !commands_app; cbn; rewrite ?app_nil_r;
        repeat split; reflexivity.
    + destruct (ctx_Err os) as [ctxErr |];
        [| destruct (strings_TrimSpace os stderr =? "")%string];
        run_exec; do 2 eexists; (split; [reflexivity |]); cbn;
        rewrite !commands_app; cbn; rewrite ?app_nil_r, ?append_assoc;
        repeat split; reflexivity.
  - do 2 eexists. split; [reflexivity |]. cbn. rewrite ?app_nil_r.
    repeat split; reflexivity.
Qed.

(** [LudusaviExecutor.Backup] never returns an error: whatever goes wrong
    is reported in the result, which is of kind backup and whose duration
    is its end minus its start. At most one command is run, [backup --api]
    (with [--force] when forced), and none when no binary is found. The
    result is a success in two cases: the command exits with status zero
    and prints nothing but white space (zero statistics), or it prints
    JSON that [json.Unmarshal] accepts (the statistics are the seven
    numbers of its [overall] part); the error text is then empty. In every
    other case the result is a failure with zero statistics, and its error
    text says why: the error of [getBinaryPath]; the error of the context
    when the command failed under a context that is done; "ludusavi
    failed: " with the trimmed standard error output, if any, and the
    error of the command; or "failed to parse output: failed to parse
    JSON: " with the error of [json.Unmarshal]. *)
Theorem Ludusavi_Backup_reports os e opts w :
  let args := ["backup"; "--api"] ++ (if Domain.BackupForce opts then ["--force"] else []) in
  exists r w',
    Backup os e opts w = ((r, None), w')
    /\ Domain.BackupResult.Operation r = Domain.OperationBackup
    /\ Domain.BackupResult.Duration r
       = Domain.BackupResult.EndTime r - Domain.BackupResult.StartTime r
    /\ match getBinaryPath os e with
       | inr err =>
           commands (trace w') = commands (trace w)
           /\ Domain.BackupResult.Success r = false
           /\ Domain.BackupResult.Stats r = Domain.zeroStats
           /\ Domain.BackupResult.Error r = error_Error err
       | inl path =>
           commands (trace w') = commands (trace w) ++ [(path, args)]
           /\ match cmd_Run os path args (env e) with
              | Broke err stderr =>
                  Domain.BackupResult.Success r = false
                  /\ Domain.BackupResult.Stats r = Domain.zeroStats
                  /\ Domain.BackupResult.Error r
                     = match ctx_Err os with
                       | Some ctxErr => error_Error ctxErr
                       | None =>
                           if (strings_TrimSpace os stderr =? "")%string
                           then ("ludusavi failed: " ++ error_Error err)%string
                           else ("ludusavi failed: " ++ strings_TrimSpace os stderr
                                 ++ ": " ++ error_Error err)%string
                       end
              | Exited stdout =>
                  if (String.length (bytes_TrimSpace os stdout) =? 0)%nat
                  then Domain.BackupResult.Success r = true
                       /\ Domain.BackupResult.Stats r = Domain.zeroStats
                       /\ Domain.BackupResult.Error r = ""
                  else
                    match json_Unmarshal os stdout with
                    | inr err =>
                        Domain.BackupResult.Success r = false
                        /\ Domain.BackupResult.Stats r = Domain.zeroStats
                        /\ Domain.BackupResult.Error r
                           = ("failed to parse output: failed to parse JSON: "
                              ++ error_Error err)%string
                    | inl out =>
                        Domain.BackupResult.Success r = true
                        /\ Domain.BackupResult.Stats r
                           = {| Domain.TotalGames := TotalGames (Overall out);
                                Domain.ProcessedGames := ProcessedGames (Overall out);
                                Domain.TotalBytes := TotalBytes (Overall out);
                                Domain.ProcessedBytes := ProcessedBytes (Overall out);
                                Domain.NewGames := New (ChangedGames (Overall out));
                                Domain.ChangedGames
                                  := Different (ChangedGames (Overall out));
                                Domain.SameGames := Same (ChangedGames (Overall out)) |}
                        /\ Domain.BackupResult.Error r = ""
                    end
              end
       end.
Proof. cbv zeta. unfold Backup. apply operation_spec. Qed.

(** [LudusaviExecutor.CloudUpload] never returns an error either. Its
    result is of kind cloud_upload, the one command it runs is
    [cloud upload --api] (with [--force] when forced), and success,
    statistics and error text follow from what the command does as for a
    backup: an output of nothing but white space, as when there is nothing
    to sync, is a success with zero statistics; output that
    [json.Unmarshal] refuses is a failure. *)
Theorem Ludusavi_CloudUpload_reports os e opts w :
  let args := ["cloud"; "upload"; "--api"]
                ++ (if Domain.UploadForce opts then ["--force"] else []) in
  exists r w',
    CloudUpload os e opts w = ((r, None), w')
    /\ Domain.BackupResult.Operation r = Domain.OperationCloudUpload
    /\ Domain.BackupResult.Duration r
       = Domain.BackupResult.EndTime r - Domain.BackupResult.StartTime r
    /\ match getBinaryPath os e with
       | inr err =>
           commands (trace w') = commands (trace w)
           /\ Domain.BackupResult.Success r = false
           /\ Domain.BackupResult.Stats r = Domain.zeroStats
           /\ Domain.BackupResult.Error r = error_Error err
       | inl path =>
           commands (trace w') = commands (trace w) ++ [(path, args)]
           /\ match cmd_Run os path args (env e) with
              | Broke err stderr =>
                  Domain.BackupResult.Success r = false
                  /\ Domain.BackupResult.Stats r = Domain.zeroStats
                  /\ Domain.BackupResult.Error r
                     = match ctx_Err os with
                       | Some ctxErr => error_Error ctxErr
                       | None =>
                           if (strings_TrimSpace os stderr =? "")%string
                           then ("ludusavi failed: " ++ error_Error err)%string
                           else ("ludusavi failed: " ++ strings_TrimSpace os stderr
                                 ++ ": " ++ error_Error err)%string
                       end
              | Exited stdout =>
                  if (String.length (bytes_TrimSpace os stdout) =? 0)%nat
                  then Domain.BackupResult.Success r = true
                       /\ Domain.BackupResult.Stats r = Domain.zeroStats
                       /\ Domain.BackupResult.Error r = ""
                  else
                    match json_Unmarshal os stdout with
                    | inr err =>
                        Domain.BackupResult.Success r = false
                        /\ Domain.BackupResult.Stats r = Domain.zeroStats
                        /\ Domain.BackupResult.Error r
                           = ("failed to parse output: failed to parse JSON: "
                              ++ error_Error err)%string
                    | inl out =>
                        Domain.BackupResult.Success r = true
                        /\ Domain.BackupResult.Stats r
                           = {| Domain.TotalGames := TotalGames (Overall out);
                                Domain.ProcessedGames := ProcessedGames (Overall out);
                                Domain.TotalBytes := TotalBytes (Overall out);
                                Domain.ProcessedBytes := ProcessedBytes (Overall out);
                                Domain.NewGames := New (ChangedGames (Overall out));
                                Domain.ChangedGames
                                  := Different (ChangedGames (Overall out));
                                Domain.SameGames := Same (ChangedGames (Overall out)) |}
                        /\ Domain.BackupResult.Error r = ""
                    end
              end
       end.
Proof. cbv zeta. unfold CloudUpload. apply operation_spec. Qed.

Lemma firstExisting_first os missing candidate rest :
  Forall (fun c => os_Stat os c <> None) missing ->
  os_Stat os candidate = None ->
  firstExisting os (missing ++ candidate :: rest) = Some candidate.
Proof.
  intros Hmissing Hthere.
  induction Hmissing as [| c missing Hc _ IH]; cbn [app firstExisting].
  - rewrite Hthere. reflexivity.
  - destruct (os_Stat os c); [exact IH | contradiction Hc; reflexivity].
Qed.

Lemma firstExisting_none os candidates :
  Forall (fun c => os_Stat os c <> None) candidates ->
  firstExisting os candidates = None.
Proof.
  intros Hnone. induction Hnone as [| c candidates Hc _ IH]; cbn [firstExisting].
  - reflexivity.
  - destruct (os_Stat os c); [exact IH | contradiction Hc; reflexivity].
Qed.

Lemma firstExisting_spec os candidates :
  match firstExisting os candidates with
  | Some candidate => In candidate candidates /\ os_Stat os candidate = None
  | None => Forall (fun c => os_Stat os c <> None) candidates
  end.
Proof.
  induction candidates as [| c rest IH]; cbn [firstExisting].
  - constructor.
  - destruct (os_Stat os c) as [err |] eqn:E.
    + destruct (firstExisting os rest) as [candidate |].
      * split; [right; apply IH | apply IH].
      * constructor; [rewrite E; discriminate | exact IH].
    + split; [left; reflexivity | exact E].
Qed.

(** Where the binary is looked for, in this order. A configured path is
    used as it is, without a look at the system. Without one, the path
    [exec.LookPath] finds is used, whatever the common locations hold. When
    ludusavi is not in the PATH either, the common locations are tried in
    their order and the first that exists is used. When none exists,
    [getBinaryPath] fails with "ludusavi not found in PATH or common
    locations"; it fails in no other case. *)
Theorem getBinaryPath_found os e :
  (binaryPath e <> "" -> getBinaryPath os e = inl (binaryPath e))
  /\ (forall path,
        binaryPath e = "" ->
        exec_LookPath os "ludusavi" = inl path ->
        getBinaryPath os e = inl path)
  /\ (forall err missing candidate rest,
        binaryPath e = "" ->
        exec_LookPath os "ludusavi" = inr err ->
        getCommonPaths os = missing ++ candidate :: rest ->
        Forall (fun c => os_Stat os c <> None) missing ->
        os_Stat os candidate = None ->
        getBinaryPath os e = inl candidate)
  /\ (forall err,
        binaryPath e = "" ->
        exec_LookPath os "ludusavi" = inr err ->
        Forall (fun c => os_Stat os c <> None) (getCommonPaths os) ->
        getBinaryPath os e
        = inr (errorString "ludusavi not found in PATH or common locations"))
  /\ ((exists err, getBinaryPath os e = inr err)
      <-> binaryPath e = ""
          /\ (exists err, exec_LookPath os "ludusavi" = inr err)
          /\ Forall (fun c => os_Stat os c <> None) (getCommonPaths os)).
Proof.
  unfold getBinaryPath.
  destruct (binaryPath e =? "")%string eqn:Ep; cbn [negb].
  - apply String.eqb_eq in Ep.
    split; [intros H; contradiction |].
    split; [intros path _ ->; reflexivity |].
    split.
    { intros err missing candidate rest _ -> -> Hmissing Hthere.
      rewrite (firstExisting_first os missing candidate rest Hmissing Hthere).
      reflexivity. }
    split.
    { intros err _ -> Hnone. rewrite (firstExisting_none os _ Hnone). reflexivity. }
    pose proof (firstExisting_spec os (getCommonPaths os)) as Hfirst.
    destruct (exec_LookPath os "ludusavi") as [found | lerr] eqn:El.
    + split; [intros (err & H); discriminate H |].
      intros (_ & (err & H) & _). discriminate H.
    + destruct (firstExisting os (getCommonPaths os)) as [candidate |].
      * split; [intros (err & H); discriminate H |].
        intros (_ & _ & Hall). destruct Hfirst as [Hin Hstat].
        rewrite Forall_forall in Hall. contradiction (Hall candidate Hin).
      * split; [intros _ | intros _; eexists; reflexivity].
        split; [exact Ep |]. split; [eexists; reflexivity | exact Hfirst].
  - apply String.eqb_neq in Ep.
    split; [reflexivity |].
    split; [intros path H; contradiction |].
    split; [intros err missing candidate rest H; contradiction |].
    split; [intros err H; contradiction |].
    split; [intros (err & H); discriminate H |].
    intros (H & _). contradiction.
Qed.

(** [LudusaviExecutor.Validate] returns nil exactly when a path of the
    binary is found, [os.Stat] finds the file, and [--version] runs with
    exit status zero. *)
Theorem Ludusavi_Validate_ok os e w :
  fst (Validate os e w) = None
  <-> exists path stdout,
        getBinaryPath os e = inl path
        /\ os_Stat os path = None
        /\ cmd_Run os path ["--version"] (env e) = Exited stdout.
Proof.
  unfold Validate, Version, run.
  destruct (getBinaryPath os e) as [path | err]; run_exec.
  - destruct (os_Stat os path) as [serr |] eqn:Es; run_exec.
    + split; [discriminate |]. intros (p & out & H & Hs & _).
      injection H as <-. rewrite Es in Hs. discriminate Hs.
    + destruct (cmd_Run os path ["--version"] (env e)) as [stdout | rerr stderr] eqn:Er;
        run_exec.
      * split; [intros _; exists path, stdout; auto | reflexivity].
      * destruct (ctx_Err os);
          [| destruct (negb (strings_TrimSpace os stderr =? "")%string)];
          run_exec; (split; [discriminate |]);
          intros (p & out & H & _ & Hr); injection H as <-;
          rewrite Er in Hr; discriminate Hr.
  - split; [discriminate |]. intros (p & out & H & _). discriminate H.
Qed.

(** On a system with ludusavi in the PATH whose backup prints JSON, the
    backup is a success with the statistics read. *)
Lemma Ludusavi_Backup_reports_witness :
  exists r w',
    Backup testOS testExecutor App.force world0 = ((r, None), w')
    /\ Domain.BackupResult.Success r = true
    /\ Domain.ChangedGames (Domain.BackupResult.Stats r) = 10
    /\ Domain.BackupResult.Error r = ""
    /\ commands (trace w') = [("/usr/bin/ludusavi", ["backup"; "--api"; "--force"])].
Proof.
  destruct (Ludusavi_Backup_reports testOS testExecutor App.force world0)
    as (r & w' & Hrun & _ & _ & Hcmd & Hsucc & Hstats & Herr).
  exists r, w'. split; [exact Hrun |]. split; [exact Hsucc |].
  split; [rewrite Hstats; reflexivity |]. split; [exact Herr | exact Hcmd].
Defined.

(** On the same system the cloud upload exits with an error and a line
    on its standard error output: the result is a failure that quotes
    both. *)
Lemma Ludusavi_CloudUpload_reports_witness :
  exists r w',
    CloudUpload testOS testExecutor App.forceUpload world0 = ((r, None), w')
    /\ Domain.BackupResult.Success r = false
    /\ Domain.BackupResult.Stats r = Domain.zeroStats
    /\ Domain.BackupResult.Error r = "ludusavi failed: no cloud configured: exit status 1".
Proof.
  destruct (Ludusavi_CloudUpload_reports testOS testExecutor App.forceUpload world0)
    as (r & w' & Hrun & _ & _ & _ & Hsucc & Hstats & Herr).
  exists r, w'. split; [exact Hrun |]. split; [exact Hsucc |].
  split; [exact Hstats | exact Herr].
Defined.

End LudusaviProperties.

(** * Properties of the scheduler *)
Section SchedulerProperties.
Import Config Domain App Scheduler.

Ltac run_sched :=
  cbv beta iota zeta delta
    [bind ret App.log emit time_Now
     RunResult.New RunResult.Complete BackupResult.New BackupResult.Complete
     NewMetrics];
  cbn [fst snd trace ticks].

Lemma started_app (a b : list event) : started (a ++ b) = (started a + started b)%nat.
Proof. unfold started. rewrite filter_app, length_app. reflexivity. Qed.

Lemma downs_app (a b : list event) : downs (a ++ b) = downs a ++ downs b.
Proof. unfold downs. rewrite pushed_app, filter_app. reflexivity. Qed.

Lemma Run_started env r w :
  started (trace (snd (Run env r w))) = S (started (trace w)).
Proof.
  unfold Run, runOperations, runCloudUpload, App.runBackup, pushMetrics, sendNotifications.
  run_sched.
  repeat match goal with
         | |- context [match ?x with _ => _ end] =>
             lazymatch x with
             | context [match _ with _ => _ end] => fail
             | _ => destruct x; run_sched
             end
         end.
  all: cbn [trace]; rewrite ?started_app; cbn [started filter List.length String.eqb Ascii.eqb Bool.eqb andb]; lia.
Qed.

Lemma Run_downs env r w : downs (trace (snd (Run env r w))) = downs (trace w).
Proof.
  destruct (answers r) eqn:Hans.
  - destruct (Run_spec env r w Hans)
      as (res0 & w1 & perr & w' & _ & Hrun & _ & _ & Hpush & _).
    rewrite Hrun. cbn [snd]. unfold downs.
    destruct (metricsPusher r) as [p |].
    + destruct Hpush as (m & _ & -> & _ & Hup & _).
      rewrite filter_app. cbn [filter]. rewrite Hup. cbn [negb]. apply app_nil_r.
    + destruct Hpush as [_ ->]. reflexivity.
  - destruct (Run_panics env r w Hans) as (ex & w' & _ & _ & Hrun & Hpush & _).
    rewrite Hrun. cbn [snd]. unfold downs. rewrite Hpush. reflexivity.
Qed.

(** One call of [runBackup]: the cycle it begins, and that it returns
    when the runner's executor answers. *)
Lemma runBackup_spec env s ctxDone w :
  started (trace (snd (Scheduler.runBackup env s ctxDone w)))
  = (started (trace w) + cycles [ctxDone])%nat
  /\ downs (trace (snd (Scheduler.runBackup env s ctxDone w))) = downs (trace w)
  /\ (answers (runner s) = true ->
      fst (Scheduler.runBackup env s ctxDone w) = Returns tt).
Proof.
  unfold Scheduler.runBackup, bind. destruct ctxDone.
  - cbn. split; [lia |]. split; reflexivity.
  - pose proof (Run_started env (runner s) w) as Hs.
    pose proof (Run_downs env (runner s) w) as Hd.
    destruct (answers (runner s)) eqn:Hans.
    + destruct (Run_spec env (runner s) w Hans) as (res0 & w1 & perr & w' & _ & Hrun & _).
      rewrite Hrun in *. cbn [snd] in Hs, Hd. unfold ret, cycles.
      cbn [fst snd filter negb List.length].
      split; [lia |]. split; [exact Hd | reflexivity].
    + destruct (Run_panics env (runner s) w Hans) as (ex & w' & _ & _ & Hrun & _).
      rewrite Hrun in *. cbn [snd] in Hs, Hd. unfold ret, cycles.
      cbn [fst snd filter negb List.length].
      split; [lia |]. split; [exact Hd | discriminate].
Qed.

(** The metrics of the final push. *)
Lemma runFinalBackup_spec env s w :
  started (trace (snd (runFinalBackup env s w))) = started (trace w)
  /\ match metricsPusher (runner s) with
     | None => downs (trace (snd (runFinalBackup env s w))) = downs (trace w)
     | Some _ =>
         exists m,
           downs (trace (snd (runFinalBackup env s w))) = downs (trace w) ++ [m]
           /\ ServiceUp m = false
           /\ Results m = []
           /\ Hostname m = hostname (runner s)
     end.
Proof.
  unfold runFinalBackup.
  destruct (metricsPusher (runner s)) as [p |]; run_sched.
  - match goal with
    | |- context [Push p ?m] => destruct (Push p m); run_sched; cbn [trace];
                                rewrite !started_app, !downs_app; cbn;
                                (split; [lia |]); exists m;
                                rewrite ?app_nil_r; repeat split; reflexivity
    end.
  - cbn [trace]. rewrite started_app, downs_app. cbn. rewrite app_nil_r.
    split; [lia | reflexivity].
Qed.

Lemma loop_spec env s ctxErr last rest :
  answers (runner s) = true ->
  last = StopSignal \/ last = CtxDone ->
  forall flags w,
    fst (loop env s ctxErr (map Tick flags ++ last :: rest) w) = answer ctxErr last
    /\ started (trace (snd (loop env s ctxErr (map Tick flags ++ last :: rest) w)))
       = (started (trace w) + cycles flags)%nat
    /\ match metricsPusher (runner s) with
       | None =>
           downs (trace (snd (loop env s ctxErr (map Tick flags ++ last :: rest) w)))
           = downs (trace w)
       | Some _ =>
           exists m,
             downs (trace (snd (loop env s ctxErr (map Tick flags ++ last :: rest) w)))
             = downs (trace w) ++ [m]
             /\ ServiceUp m = false
             /\ Results m = []
             /\ Hostname m = hostname (runner s)
       end.
Proof.
  intros Hans Hlast. induction flags as [| d flags IH]; intros w.
  - cbn [map app loop].
    assert (Hend : forall msg,
               let w1 := {| ticks := ticks w; trace := trace w ++ [EvLog Info msg] |} in
               msg <> "starting backup run" ->
               started (trace (snd (runFinalBackup env s w1))) = started (trace w)
               /\ match metricsPusher (runner s) with
                  | None => downs (trace (snd (runFinalBackup env s w1))) = downs (trace w)
                  | Some _ =>
                      exists m,
                        downs (trace (snd (runFinalBackup env s w1)))
                        = downs (trace w) ++ [m]
                        /\ ServiceUp m = false /\ Results m = []
                        /\ Hostname m = hostname (runner s)
                  end).
    { intros msg w1 Hmsg.
      destruct (runFinalBackup_spec env s w1) as [Hs Hd].
      assert (Hs1 : started (trace w1) = started (trace w)).
      { unfold w1, started. cbn [trace]. rewrite filter_app, length_app. cbn [filter].
        apply String.eqb_neq in Hmsg. rewrite Hmsg. cbn. lia. }
      assert (Hd1 : downs (trace w1) = downs (trace w)).
      { unfold w1. cbn [trace]. rewrite downs_app. cbn. apply app_nil_r. }
      rewrite Hs, Hs1. split; [reflexivity |].
      destruct (metricsPusher (runner s)); rewrite Hd1 in Hd; exact Hd. }
    destruct Hlast as [-> | ->]; cbn [loop answer]; run_sched;
      match goal with
      | |- context [runFinalBackup env s {| ticks := _; trace := _ ++ [EvLog Info ?msg] |}] =>
          destruct (Hend msg ltac:(discriminate)) as [Hs Hd];
          destruct (runFinalBackup env s _) as [u w2]; cbn [fst snd] in *
      end;
      (split; [reflexivity |]); (split; [unfold cycles; cbn [filter List.length]; lia | exact Hd]).
  - cbn [map app loop]. run_sched.
    match goal with
    | |- context [Scheduler.runBackup env s d ?w1] =>
        destruct (runBackup_spec env s d w1) as (Hs & Hd & Hret);
        specialize (Hret Hans);
        destruct (Scheduler.runBackup env s d w1) as [u w2]; cbn [fst snd trace] in *
    end.
    subst u.
    destruct (IH w2) as (H1 & H2 & H3).
    rewrite started_app in Hs. rewrite downs_app in Hd.
    change (started [EvLog Debug "interval triggered, running backup"]) with 0%nat in Hs.
    change (downs [EvLog Debug "interval triggered, running backup"])
      with (@nil Metrics) in Hd.
    rewrite app_nil_r in Hd.
    split; [exact H1 |]. split.
    + rewrite H2, Hs. unfold cycles. cbn [filter].
      destruct d; cbn [negb List.length]; lia.
    + rewrite Hd in H3. exact H3.
Qed.

Lemma startup_spec env s sched w :
  started (trace (snd (startup env s sched w)))
  = (started (trace w)
     + if backupOnStartup s then cycles [ctxDoneAtStartup sched] else 0)%nat
  /\ downs (trace (snd (startup env s sched w))) = downs (trace w)
  /\ (answers (runner s) = true -> fst (startup env s sched w) = Returns tt).
Proof.
  unfold startup. destruct (backupOnStartup s); run_sched.
  - match goal with
    | |- context [Scheduler.runBackup ?e ?s' ?d ?w1] =>
        destruct (runBackup_spec e s' d w1) as (Hs & Hd & Hret);
        destruct (Scheduler.runBackup e s' d w1) as [u w2]; cbn [fst snd trace] in *
    end.
    rewrite Hs, Hd, !started_app, !downs_app.
    change (started [EvLog Info "scheduler started"]) with 0%nat.
    change (started [EvLog Debug "running backup on startup"]) with 0%nat.
    cbn [downs pushed flat_map filter app]. rewrite !app_nil_r.
    split; [lia |]. split; [reflexivity | exact Hret].
  - cbn [trace]. rewrite started_app, downs_app.
    change (started [EvLog Info "scheduler started"]) with 0%nat.
    cbn [downs pushed flat_map filter app]. rewrite app_nil_r.
    split; [lia |]. split; reflexivity.
Qed.

Lemma Start_spec env s sched flags last rest w :
  running s = false ->
  0 < interval s ->
  answers (runner s) = true ->
  signals sched = map Tick flags ++ last :: rest ->
  last = StopSignal \/ last = CtxDone ->
  exists w',
    Start env s sched w = ((setRunning s false, answer (ctx_Err sched) last), w')
    /\ started (trace w')
       = (started (trace w)
          + (if backupOnStartup s then cycles [ctxDoneAtStartup sched] else 0)
          + cycles flags)%nat
    /\ match metricsPusher (runner s) with
       | None => downs (trace w') = downs (trace w)
       | Some _ =>
           exists m,
             downs (trace w') = downs (trace w) ++ [m]
             /\ ServiceUp m = false
             /\ Results m = []
             /\ Hostname m = hostname (runner s)
       end.
Proof.
  intros Hrun Hint Hans Hsig Hlast.
  unfold Start. rewrite Hrun. cbn [interval setRunning].
  destruct (Z.leb_spec (interval s) 0) as [Hle | _]; [lia |].
  rewrite Hsig. unfold bind.
  destruct (startup_spec env (setRunning s true) sched w) as (Hs & Hd & Hret).
  specialize (Hret Hans).
  destruct (startup env (setRunning s true) sched w) as [u w1].
  cbn [fst snd backupOnStartup setRunning] in Hs, Hd, Hret. subst u.
  destruct (loop_spec env (setRunning s true) (ctx_Err sched) last rest Hans Hlast flags w1)
    as (H1 & H2 & H3).
  destruct (loop env (setRunning s true) (ctx_Err sched) (map Tick flags ++ last :: rest) w1)
    as [e w2].
  cbn [fst snd runner setRunning] in H1, H2, H3. subst e.
  exists w2.
  split.
  { destruct Hlast as [-> | ->]; reflexivity. }
  rewrite H2, Hs. split; [reflexivity |].
  rewrite Hd in H3. exact H3.
Qed.

(** A scheduler runs a cycle on startup when configured to, then one
    cycle for each tick of the ticker, until it is told to stop or its
    context is cancelled; a tick or a startup that finds the context done
    begins no cycle. [Start] then returns nil after a stop and the error
    of the context after a cancellation, and the scheduler is no longer
    running. The interval must be positive, and the executor of the runner
    must answer its calls: a cycle that panics ends [Start] with it. *)
Theorem Start_until_signal env s sched flags last rest w :
  running s = false ->
  0 < interval s ->
  answers (runner s) = true ->
  signals sched = map Tick flags ++ last :: rest ->
  last = StopSignal \/ last = CtxDone ->
  exists s' w',
    Start env s sched w = ((s', answer (ctx_Err sched) last), w')
    /\ running s' = false
    /\ started (trace w')
       = (started (trace w)
          + (if backupOnStartup s then cycles [ctxDoneAtStartup sched] else 0)
          + cycles flags)%nat.
Proof.
  intros Hrun Hint Hans Hsig Hlast.
  destruct (Start_spec env s sched flags last rest w Hrun Hint Hans Hsig Hlast)
    as (w' & Hstart & Hcycles & _).
  exists (setRunning s false), w'. repeat split; assumption.
Qed.

Lemma Start_until_signal_witness :
  exists s' w',
    Start testEnv testScheduler twoTicks world0 = ((s', Returned None), w')
    /\ running s' = false
    /\ started (trace w') = 3%nat.
Proof.
  destruct (Start_until_signal testEnv testScheduler twoTicks [false; false] StopSignal []
              world0 eq_refl eq_refl eq_refl eq_refl (or_introl eq_refl))
    as (s' & w' & H1 & H2 & H3).
  exists s', w'. split; [exact H1 |]. split; [exact H2 | exact H3].
Defined.

(** The last word of a scheduler. When [Start] returns, after a stop or
    a cancellation, a scheduler whose runner has a metrics pusher has
    pushed exactly one set of metrics that says the service is down: it
    holds no operation result and carries the runner's hostname. No cycle
    pushes such metrics, and without a pusher none are pushed. [Start]
    returns when the executor of the runner answers its calls. *)
Theorem Start_final_push env s sched flags last rest w :
  running s = false ->
  0 < interval s ->
  answers (runner s) = true ->
  signals sched = map Tick flags ++ last :: rest ->
  last = StopSignal \/ last = CtxDone ->
  match metricsPusher (runner s) with
  | None => downs (trace (snd (Start env s sched w))) = downs (trace w)
  | Some _ =>
      exists m,
        downs (trace (snd (Start env s sched w))) = downs (trace w) ++ [m]
        /\ ServiceUp m = false
        /\ Results m = []
        /\ Hostname m = hostname (runner s)
  end.
Proof.
  intros Hrun Hint Hans Hsig Hlast.
  destruct (Start_spec env s sched flags last rest w Hrun Hint Hans Hsig Hlast)
    as (w' & Hstart & _ & Hdowns).
  rewrite Hstart. exact Hdowns.
Qed.

Lemma Start_final_push_witness :
  exists m,
    downs (trace (snd (Start testEnv testScheduler twoTicks world0))) = [m]
    /\ ServiceUp m = false
    /\ Results m = []
    /\ Hostname m = "test-host".
Proof.
  exact (Start_final_push testEnv testScheduler twoTicks [false; false] StopSignal []
           world0 eq_refl eq_refl eq_refl eq_refl (or_introl eq_refl)).
Defined.

(** A scheduler whose interval is not positive panics when it makes its
    ticker: after the backup on startup, if one is configured, and before
    any tick. It is left not running, and it pushes no final metrics. An
    interval below one minute is what [Config.Validate] refuses. (A backup
    on startup that panics itself ends [Start] the same way, before the
    ticker is made.) *)
Theorem Start_interval_not_positive env s sched w :
  running s = false ->
  interval s <= 0 ->
  exists s' w',
    Start env s sched w = ((s', Panicked), w')
    /\ running s' = false
    /\ started (trace w')
       = (started (trace w)
          + if backupOnStartup s then cycles [ctxDoneAtStartup sched] else 0)%nat
    /\ downs (trace w') = downs (trace w).
Proof.
  intros Hrun Hint. unfold Start. rewrite Hrun. cbn [interval setRunning].
  destruct (Z.leb_spec (interval s) 0) as [_ | Hlt]; [| lia].
  unfold bind.
  destruct (startup_spec env (setRunning s true) sched w) as (Hs & Hd & _).
  destruct (startup env (setRunning s true) sched w) as [[u |] w1];
    cbn [fst snd backupOnStartup setRunning] in Hs, Hd;
    exists (setRunning s false), w1; repeat split; assumption.
Qed.

Lemma Start_interval_not_positive_witness :
  let s := NewScheduler (testRunner NotifyError false (Some mockExecutor)
                                    (Some mockPusher) (Some NopNotifier))
                        [WithInterval 0] in
  exists s' w',
    Start testEnv s twoTicks world0 = ((s', Panicked), w')
    /\ running s' = false
    /\ started (trace w') = 1%nat
    /\ downs (trace w') = [].
Proof.
  exact (Start_interval_not_positive testEnv
           (NewScheduler (testRunner NotifyError false (Some mockExecutor)
                                     (Some mockPusher) (Some NopNotifier))
                         [WithInterval 0])
           twoTicks world0 eq_refl ltac:(cbn; lia)).
Defined.

End SchedulerProperties.
